(** * MS/TP link layer of BACman: CRC engine, framer and master station

    A shallow embedding of the Python scripts under [scripts/]:
    - [crc_test.py]          (module [CrcTest]),
    - [mstp_test_sender.py]  (module [TestSender]),
    - [mstp_simulator.py]    (module [Simulator]),
    - [mstp_sniffer.py]      (module [Sniffer]),
    - [crc16_verify.py]      (module [Crc16Verify]),
    and of [mstp_capture.py] at the top of the tree (module [MstpCapture]).

    Python integers are [Z]; the elements of [bytes] and [bytearray]
    objects are [Byte.byte]; an exception raised by a function is the
    [None] of an [option] result (pure builders) or the [Raised] outcome of
    the station monad (methods of [MstpSimulator]).  Console output is left
    out, except where it is the only trace of a CRC error. *)

From Stdlib Require Import ZArith List Lia.
From Stdlib.Strings Require Import Byte.
From stdpp Require Import base option list gmap sets sorting strings pretty.
Import ListNotations.

Local Open Scope Z_scope.

(** ** Bytes and integers *)

(** [b] read as a Python int, as [buf[i]] does. *)
Definition byte_val (b : byte) : Z := Z.of_N (Byte.to_N b).

(** One element of [bytes([...])]: a [ValueError] outside [range(256)]. *)
Definition byte_of_int (z : Z) : option byte :=
  if (0 <=? z) && (z <? 256) then Byte.of_N (Z.to_N z) else None.

(** [bytes([z0, z1, ...])]. *)
Fixpoint bytes_of_ints (l : list Z) : option (list byte) :=
  match l with
  | [] => Some []
  | z :: l' =>
      match byte_of_int z, bytes_of_ints l' with
      | Some b, Some bs => Some (b :: bs)
      | _, _ => None
      end
  end.

(** [struct.pack('<H', v)]: two bytes, low byte first; [struct.error]
    outside [0 .. 65535]. *)
Definition pack_le_u16 (v : Z) : option (list byte) :=
  if (0 <=? v) && (v <? 65536)
  then bytes_of_ints [Z.land v 0xFF; Z.shiftr v 8]
  else None.

(** [for _ in range(8): body]. *)
Definition repeat8 (body : Z -> Z) (crc : Z) : Z := Nat.iter 8 body crc.

(** The shift register step shared by the bitwise CRC loops:
    [if crc & 1: crc = (crc >> 1) ^ poly else: crc >>= 1]. *)
Definition shift_xor (poly crc : Z) : Z :=
  if negb (Z.land crc 1 =? 0)
  then Z.lxor (Z.shiftr crc 1) poly
  else Z.shiftr crc 1.

(** The frame tuple [(frame_type, dest, src, data)]; [data] is [None] or a
    [bytes] object. *)
Definition frame : Type := Z * Z * Z * option (list byte).

(** ** crc_test.py *)
Module CrcTest.

Definition crc8_header_python (data : list byte) : Z :=
  let crc :=
    fold_left (fun crc b => repeat8 (shift_xor 0x8C) (Z.lxor crc (byte_val b)))
              data 0xFF in
  Z.land (Z.lnot crc) 0xFF.

Definition crc8_header_rust_style (data : list byte) : Z :=
  let crc :=
    fold_left
      (fun crc b =>
         let temp := Z.land (Z.lxor crc (byte_val b)) 0xFF in
         let temp16 := temp in
         let temp16 :=
           Z.lxor (Z.lxor (Z.lxor (Z.lxor (Z.lxor (Z.lxor (Z.lxor
             temp16 (Z.shiftl temp16 1)) (Z.shiftl temp16 2))
             (Z.shiftl temp16 3)) (Z.shiftl temp16 4)) (Z.shiftl temp16 5))
             (Z.shiftl temp16 6)) (Z.shiftl temp16 7) in
         Z.land (Z.lxor (Z.land temp16 0xfe) (Z.land (Z.shiftr temp16 8) 1)) 0xFF)
      data 0xFF in
  Z.land (Z.lnot crc) 0xFF.

Definition crc16_data_python (data : list byte) : Z :=
  let crc :=
    fold_left (fun crc b => repeat8 (shift_xor 0x8408) (Z.lxor crc (byte_val b)))
              data 0xFFFF in
  Z.land (Z.lnot crc) 0xFFFF.

(** Token frame: type=0, dest=6, src=3, len=0. *)
Definition token_header : list byte := [x00; x06; x03; x00; x00].

End CrcTest.

(** ** mstp_test_sender.py *)
Module TestSender.

Definition crc8_header (data : list byte) : Z :=
  let crc :=
    fold_left (fun crc b => repeat8 (shift_xor 0x8C) (Z.lxor crc (byte_val b)))
              data 0xFF in
  Z.land (Z.lnot crc) 0xFF.

Definition crc16_data (data : list byte) : Z :=
  let crc :=
    fold_left (fun crc b => repeat8 (shift_xor 0x8408) (Z.lxor crc (byte_val b)))
              data 0xFFFF in
  Z.land (Z.lnot crc) 0xFFFF.

Definition build_mstp_frame (frame_type dest_addr src_addr : Z)
    (data : option (list byte)) : option (list byte) :=
  let preamble := [x55; xff] in
  match data with
  | None =>
      header ← bytes_of_ints [frame_type; dest_addr; src_addr; 0x00; 0x00];
      let header_crc := crc8_header header in
      crc_byte ← bytes_of_ints [header_crc];
      Some (preamble ++ header ++ crc_byte)
  | Some data =>
      let data_len := Z.of_nat (length data) in
      header ← bytes_of_ints [frame_type; dest_addr; src_addr;
                              Z.land (Z.shiftr data_len 8) 0xFF;
                              Z.land data_len 0xFF];
      let header_crc := crc8_header header in
      let data_crc := crc16_data data in
      crc_byte ← bytes_of_ints [header_crc];
      packed ← pack_le_u16 data_crc;
      Some (preamble ++ header ++ crc_byte ++ data ++ packed)
  end.

End TestSender.

(** ** mstp_simulator.py *)
Module Simulator.

(** MS/TP frame types per ASHRAE 135 Clause 9. *)
Definition FRAME_TOKEN : Z := 0x00.
Definition FRAME_POLL_FOR_MASTER : Z := 0x01.
Definition FRAME_REPLY_TO_POLL : Z := 0x02.
Definition FRAME_TEST_REQUEST : Z := 0x03.
Definition FRAME_TEST_RESPONSE : Z := 0x04.
Definition FRAME_BACNET_DATA_EXPECTING_REPLY : Z := 0x05.
Definition FRAME_BACNET_DATA_NOT_EXPECTING_REPLY : Z := 0x06.
Definition FRAME_REPLY_POSTPONED : Z := 0x07.

(** Timing parameters; the source has seconds as floats
    ([0.000250] and [0.050]), kept here as whole microseconds. *)
Definition T_REPLY_DELAY : Z := 250.
Definition T_USAGE_TIMEOUT : Z := 50000.

(** *** CRC engine *)

(** One round of the loop of [crc8_header]: the parallel form of
    ASHRAE 135 Annex G.1. *)
Definition crc8_round (crc : Z) (b : byte) : Z :=
  let temp := Z.land (Z.lxor crc (byte_val b)) 0xFF in
  let temp :=
    Z.land
      (Z.lxor (Z.lxor (Z.lxor (Z.lxor (Z.lxor (Z.lxor (Z.lxor
         temp (Z.shiftl temp 1)) (Z.shiftl temp 2)) (Z.shiftl temp 3))
         (Z.shiftl temp 4)) (Z.shiftl temp 5)) (Z.shiftl temp 6))
         (Z.shiftl temp 7))
      0xFFFF in
  Z.land (Z.lxor (Z.land temp 0xFE) (Z.land (Z.shiftr temp 8) 1)) 0xFF.

Definition crc8_header (data : list byte) : Z :=
  let crc := fold_left crc8_round data 0xFF in
  Z.land (Z.lnot crc) 0xFF.

Definition crc16_data (data : list byte) : Z :=
  let crc :=
    fold_left (fun crc b => repeat8 (shift_xor 0x8408) (Z.lxor crc (byte_val b)))
              data 0xFFFF in
  Z.land (Z.lnot crc) 0xFFFF.

(** *** Encoder *)

Definition build_frame (frame_type dest src : Z) (data : option (list byte))
    : option (list byte) :=
  let preamble := [x55; xff] in
  match data with
  | Some ((_ :: _) as data) =>
      let data_len := Z.of_nat (length data) in
      header ← bytes_of_ints [frame_type; dest; src;
                              Z.land (Z.shiftr data_len 8) 0xFF;
                              Z.land data_len 0xFF];
      let header_crc := crc8_header header in
      let data_crc := crc16_data data in
      crc_byte ← bytes_of_ints [header_crc];
      packed ← pack_le_u16 data_crc;
      Some (preamble ++ header ++ crc_byte ++ data ++ packed)
  | _ =>
      (* data is None or len(data) == 0 *)
      header ← bytes_of_ints [frame_type; dest; src; 0x00; 0x00];
      let header_crc := crc8_header header in
      crc_byte ← bytes_of_ints [header_crc];
      Some (preamble ++ header ++ crc_byte)
  end.

(** *** Framer: [process_rx] and [parse_frame]

    Both methods touch the [rx_buffer] attribute alone, which is passed
    in and returned. *)

(** [ser.read(ser.in_waiting)] delivers [in_waiting], the bytes that are
    waiting on the port. *)
Definition process_rx (in_waiting rx_buffer : list byte) : bool * list byte :=
  if 0 <? Z.of_nat (length in_waiting)
  then (true, rx_buffer ++ in_waiting)
  else (false, rx_buffer).

(** The preamble search of [parse_frame]:
    [for i in range(len(buf) - 1): if buf[i] == 0x55 and buf[i+1] == 0xFF],
    started at index [i]; [None] is [preamble_pos = -1]. *)
Fixpoint find_preamble (buf : list byte) (i : nat) : option nat :=
  match buf with
  | b0 :: ((b1 :: _) as rest) =>
      if (byte_val b0 =? 0x55) && (byte_val b1 =? 0xFF)
      then Some i
      else find_preamble rest (S i)
  | _ => None
  end.

(** What a call of [parse_frame] reports on the console. *)
Inductive crc_error : Type :=
| HeaderCrcError (calc recv : Z)
| DataCrcError.

(** The result of one call: the value returned, the CRC error logged (if
    any) and the buffer left behind. *)
Record parse_step : Type := ParseStep {
  returned : option frame;
  logged : option crc_error;
  rx_after : list byte
}.

Definition parse_frame (rx_buffer : list byte) : parse_step :=
  (* Need at least preamble + header *)
  if Z.of_nat (length rx_buffer) <? 8 then ParseStep None None rx_buffer else
  match find_preamble rx_buffer 0 with
  | None =>
      (* No valid preamble found, keep last byte *)
      ParseStep None None
        (if 1 <? Z.of_nat (length rx_buffer)
         then drop (length rx_buffer - 1) rx_buffer
         else rx_buffer)
  | Some preamble_pos =>
      (* Discard bytes before preamble *)
      let rx_buffer :=
        if (0 <? preamble_pos)%nat then drop preamble_pos rx_buffer else rx_buffer in
      match rx_buffer with
      | _ :: _ :: b2 :: b3 :: b4 :: b5 :: b6 :: b7 :: _ =>
          let frame_type := byte_val b2 in
          let dest := byte_val b3 in
          let src := byte_val b4 in
          let data_len := Z.lor (Z.shiftl (byte_val b5) 8) (byte_val b6) in
          let header_crc := byte_val b7 in
          (* Validate header CRC *)
          let calc_crc := crc8_header (take 5 (drop 2 rx_buffer)) in
          if negb (calc_crc =? header_crc) then
            ParseStep None (Some (HeaderCrcError calc_crc header_crc))
                      (drop 2 rx_buffer)
          else
            let frame_size := if 0 <? data_len then 8 + data_len + 2 else 8 in
            (* Wait for complete frame *)
            if Z.of_nat (length rx_buffer) <? frame_size
            then ParseStep None None rx_buffer
            else if 0 <? data_len then
              let data := take (Z.to_nat data_len) (drop 8 rx_buffer) in
              match drop (Z.to_nat (8 + data_len)) rx_buffer with
              | c0 :: c1 :: _ =>
                  let data_crc_recv :=
                    Z.lor (byte_val c0) (Z.shiftl (byte_val c1) 8) in
                  let data_crc_calc := crc16_data data in
                  if negb (data_crc_recv =? data_crc_calc) then
                    ParseStep None (Some DataCrcError) (drop 2 rx_buffer)
                  else
                    ParseStep (Some (frame_type, dest, src, Some data)) None
                              (drop (Z.to_nat frame_size) rx_buffer)
              | _ => ParseStep None None rx_buffer (* out of reach: the frame is complete *)
              end
            else
              ParseStep (Some (frame_type, dest, src, None)) None
                        (drop (Z.to_nat frame_size) rx_buffer)
      | _ =>
          (* fewer than 8 bytes are left: no full header *)
          ParseStep None None rx_buffer
      end
  end.

(** The receive path of the loop of [run]: each pass reads what is
    waiting ([process_rx]) and calls [parse_frame] once; a frame that is
    returned goes to [handle_frame].  [reads] lists what each pass finds
    waiting (nothing: [[]]); the result is the frames decoded, in order,
    and the buffer left. *)
Fixpoint run_rx (reads : list (list byte)) (rx_buffer : list byte)
    : list frame * list byte :=
  match reads with
  | [] => ([], rx_buffer)
  | in_waiting :: reads' =>
      let rx_buffer := snd (process_rx in_waiting rx_buffer) in
      let step := parse_frame rx_buffer in
      let '(frames, rx_buffer) := run_rx reads' (rx_after step) in
      (match returned step with
       | Some f => f :: frames
       | None => frames
       end, rx_buffer)
  end.

(** *** Master station *)

(** The [state] attribute: ["IDLE"] or ["USE_TOKEN"]. *)
Inductive station_state : Type := IDLE | USE_TOKEN.

(** What the station does to the outside: [ser.write], [ser.flush] and
    [time.sleep] (in microseconds). *)
Inductive effect : Type :=
| SerWrite (frame : list byte)
| SerFlush
| Sleep (microseconds : Z).

(** The attributes of [MstpSimulator] that the station methods use;
    [effects] is the history of what was done to [ser] and the clock,
    oldest first. *)
Record MstpSimulator : Type := mkSimulator {
  mac : Z;
  max_master : Z;
  state : station_state;
  token_count : Z;
  frame_count : Z;
  known_masters : gset Z;
  next_station : option Z;
  tokens_received : Z;
  polls_received : Z;
  data_frames_received : Z;
  frames_sent : Z;
  effects : list effect
}.

(** [MstpSimulator(ser, mac_address, max_master)]. *)
Definition init (mac_address max_master : Z) : MstpSimulator :=
  mkSimulator mac_address max_master IDLE 0 0 ∅ None 0 0 0 0 [].

Definition set_state (v : station_state) (s : MstpSimulator) : MstpSimulator :=
  mkSimulator (mac s) (max_master s) v (token_count s) (frame_count s)
    (known_masters s) (next_station s) (tokens_received s) (polls_received s)
    (data_frames_received s) (frames_sent s) (effects s).
Definition set_token_count (v : Z) (s : MstpSimulator) : MstpSimulator :=
  mkSimulator (mac s) (max_master s) (state s) v (frame_count s)
    (known_masters s) (next_station s) (tokens_received s) (polls_received s)
    (data_frames_received s) (frames_sent s) (effects s).
Definition set_frame_count (v : Z) (s : MstpSimulator) : MstpSimulator :=
  mkSimulator (mac s) (max_master s) (state s) (token_count s) v
    (known_masters s) (next_station s) (tokens_received s) (polls_received s)
    (data_frames_received s) (frames_sent s) (effects s).
Definition set_known_masters (v : gset Z) (s : MstpSimulator) : MstpSimulator :=
  mkSimulator (mac s) (max_master s) (state s) (token_count s) (frame_count s)
    v (next_station s) (tokens_received s) (polls_received s)
    (data_frames_received s) (frames_sent s) (effects s).
Definition set_next_station (v : option Z) (s : MstpSimulator) : MstpSimulator :=
  mkSimulator (mac s) (max_master s) (state s) (token_count s) (frame_count s)
    (known_masters s) v (tokens_received s) (polls_received s)
    (data_frames_received s) (frames_sent s) (effects s).
Definition set_tokens_received (v : Z) (s : MstpSimulator) : MstpSimulator :=
  mkSimulator (mac s) (max_master s) (state s) (token_count s) (frame_count s)
    (known_masters s) (next_station s) v (polls_received s)
    (data_frames_received s) (frames_sent s) (effects s).
Definition set_polls_received (v : Z) (s : MstpSimulator) : MstpSimulator :=
  mkSimulator (mac s) (max_master s) (state s) (token_count s) (frame_count s)
    (known_masters s) (next_station s) (tokens_received s) v
    (data_frames_received s) (frames_sent s) (effects s).
Definition set_data_frames_received (v : Z) (s : MstpSimulator) : MstpSimulator :=
  mkSimulator (mac s) (max_master s) (state s) (token_count s) (frame_count s)
    (known_masters s) (next_station s) (tokens_received s) (polls_received s)
    v (frames_sent s) (effects s).
Definition set_frames_sent (v : Z) (s : MstpSimulator) : MstpSimulator :=
  mkSimulator (mac s) (max_master s) (state s) (token_count s) (frame_count s)
    (known_masters s) (next_station s) (tokens_received s) (polls_received s)
    (data_frames_received s) v (effects s).
(** One more thing done to the outside. *)
Definition emit (e : effect) (s : MstpSimulator) : MstpSimulator :=
  mkSimulator (mac s) (max_master s) (state s) (token_count s) (frame_count s)
    (known_masters s) (next_station s) (tokens_received s) (polls_received s)
    (data_frames_received s) (frames_sent s) (effects s ++ [e]).

(** Methods that can raise: the attributes keep what was assigned before
    the exception. *)
Inductive exn : Type := ValueError | ZeroDivisionError.

Inductive outcome (A : Type) : Type :=
| Done (a : A)
| Raised (e : exn).
Arguments Done {A} a.
Arguments Raised {A} e.

Definition M (A : Type) : Type := MstpSimulator -> outcome A * MstpSimulator.

#[export] Instance M_ret : MRet M := fun A a s => (Done a, s).
#[export] Instance M_bind : MBind M := fun A B f m s =>
  match m s with
  | (Done a, s') => f a s'
  | (Raised e, s') => (Raised e, s')
  end.

(** An assignment to attributes. *)
Definition assign (f : MstpSimulator -> MstpSimulator) : M unit :=
  fun s => (Done tt, f s).
(** Reading an attribute. *)
Definition attr {A : Type} (f : MstpSimulator -> A) : M A :=
  fun s => (Done (f s), s).
Definition raise {A : Type} (e : exn) : M A := fun s => (Raised e, s).
(** The result of a builder, its [None] raised as [e]. *)
Definition or_raise {A : Type} (e : exn) (o : option A) : M A :=
  match o with
  | Some a => mret a
  | None => raise e
  end.

(** [sorted(self.known_masters)]. *)
Definition sorted (s : gset Z) : list Z := merge_sort Z.le (elements s).

Definition _update_next_station (self : MstpSimulator) : MstpSimulator :=
  if decide (known_masters self = ∅) then set_next_station None self
  else
    (* Find the next master after our MAC address (wrapping around) *)
    let masters := sorted (known_masters self) in
    match find (fun m => mac self <? m) masters with
    | Some m => set_next_station (Some m) self
    | None =>
        (* Wrap around to the lowest master: masters[0] *)
        set_next_station (head masters) self
    end.

Definition discover_master (mac' : Z) (self : MstpSimulator) : MstpSimulator :=
  if negb (mac' =? mac self) && (mac' <=? max_master self)
     && negb (bool_decide (mac' ∈ known_masters self))
  then _update_next_station
         (set_known_masters ({[mac']} ∪ known_masters self) self)
  else self.

Definition send_frame (frame_type dest : Z) (data : option (list byte)) : M unit :=
  mac_ ← attr mac;
  frame ← or_raise ValueError (build_frame frame_type dest mac_ data);
  assign (emit (SerWrite frame));;
  assign (emit SerFlush);;
  sent ← attr frames_sent;
  assign (set_frames_sent (sent + 1)).

Definition handle_use_token : M unit :=
  count ← attr token_count;
  assign (set_token_count (count + 1));;
  assign (set_frame_count 0);;
  next ← attr next_station;
  match next with
  | Some next_station => send_frame FRAME_TOKEN next_station None
  | None =>
      (* No known masters yet - poll for one starting from MAC+1 *)
      mac_ ← attr mac;
      max_master_ ← attr max_master;
      poll_target ←
        (if max_master_ + 1 =? 0 then raise ZeroDivisionError
         else mret ((mac_ + 1) `mod` (max_master_ + 1)));
      send_frame FRAME_POLL_FOR_MASTER poll_target None;;
      assign (emit (Sleep T_USAGE_TIMEOUT))
  end;;
  assign (set_state IDLE).

Definition handle_frame (frame_type dest src : Z) (data : option (list byte))
    : M unit :=
  (* Discover masters from traffic *)
  assign (discover_master src);;
  (if frame_type =? FRAME_TOKEN then assign (discover_master dest)
   else if frame_type =? FRAME_REPLY_TO_POLL then assign (discover_master src)
   else mret tt);;
  mac_ ← attr mac;
  (* Check if frame is for us *)
  if negb (dest =? mac_) && negb (dest =? 255) then mret tt
  else if frame_type =? FRAME_TOKEN then
    n ← attr tokens_received;
    assign (set_tokens_received (n + 1));;
    assign (set_state USE_TOKEN);;
    handle_use_token
  else if frame_type =? FRAME_POLL_FOR_MASTER then
    n ← attr polls_received;
    assign (set_polls_received (n + 1));;
    assign (emit (Sleep T_REPLY_DELAY));;
    send_frame FRAME_REPLY_TO_POLL src None
  else if frame_type =? FRAME_BACNET_DATA_EXPECTING_REPLY then
    n ← attr data_frames_received;
    assign (set_data_frames_received (n + 1))
  else if frame_type =? FRAME_BACNET_DATA_NOT_EXPECTING_REPLY then
    n ← attr data_frames_received;
    assign (set_data_frames_received (n + 1))
  else if frame_type =? FRAME_TEST_REQUEST then
    assign (emit (Sleep T_REPLY_DELAY));;
    send_frame FRAME_TEST_RESPONSE src data
  else mret tt.

(** The operations on a station and their effect on its attributes. *)
Inductive operation : Type :=
| OpDiscoverMaster (mac' : Z)
| OpUpdateNextStation
| OpSendFrame (frame_type dest : Z) (data : option (list byte))
| OpHandleUseToken
| OpHandleFrame (frame_type dest src : Z) (data : option (list byte)).

Definition perform (op : operation) (self : MstpSimulator) : MstpSimulator :=
  match op with
  | OpDiscoverMaster m => discover_master m self
  | OpUpdateNextStation => _update_next_station self
  | OpSendFrame t d data => snd (send_frame t d data self)
  | OpHandleUseToken => snd (handle_use_token self)
  | OpHandleFrame t d s data => snd (handle_frame t d s data self)
  end.

(** The station after the frames [fs] have been handled, one after the
    other. *)
Definition handle_frames (fs : list frame) (self : MstpSimulator) : MstpSimulator :=
  fold_left (fun s '(t, d, src, data) => snd (handle_frame t d src data s)) fs self.

(** The loop of [run], for as many passes as [reads] has entries: each
    pass reads what is waiting on the port ([reads] lists it, pass by
    pass), calls [parse_frame] once, hands a frame that is returned to
    [handle_frame] and sleeps a millisecond.  An exception raised by
    [handle_frame] ends the loop; the result is the receive buffer that is
    left. *)
Fixpoint run (reads : list (list byte)) (rx_buffer : list byte) : M (list byte) :=
  match reads with
  | [] => mret rx_buffer
  | in_waiting :: reads' =>
      (* Process incoming data *)
      let rx_buffer := snd (process_rx in_waiting rx_buffer) in
      (* Try to parse frames *)
      let step := parse_frame rx_buffer in
      match returned step with
      | Some (frame_type, dest, src, data) => handle_frame frame_type dest src data
      | None => mret tt
      end;;
      (* Small delay to prevent CPU spinning *)
      assign (emit (Sleep 1000));;
      run reads' (rx_after step)
  end.

End Simulator.

(** ** mstp_sniffer.py *)
Module Sniffer.

Definition crc8 (data : list byte) : Z :=
  let crc :=
    fold_left (fun crc b => repeat8 (shift_xor 0x8C) (Z.lxor crc (byte_val b)))
              data 0xFF in
  Z.lxor crc 0xFF.

Definition crc16 (data : list byte) : Z :=
  let crc :=
    fold_left (fun crc b => repeat8 (shift_xor 0x8408) (Z.lxor crc (byte_val b)))
              data 0xFFFF in
  Z.lxor crc 0xFFFF.

(** The [state] attribute: ['IDLE'], ['PREAMBLE'], ['HEADER'], ['DATA']. *)
Inductive sniffer_state : Type := IDLE | PREAMBLE | HEADER | DATA.

(** The line built for a decoded frame is the result of the call
    [format_frame(frame_num, frame_type, dst, src, data_len, data, timestamp)];
    it is kept as that call, the wall-clock [timestamp] aside. *)
Inductive output : Type :=
| format_frame (frame_num frame_type dst src data_len : Z) (data : list byte).

(** What verbose mode prints on a CRC mismatch. *)
Inductive crc_message : Type :=
| HeaderCrcMismatch (calc recv : Z)
| DataCrcMismatch.

Record MstpSniffer : Type := mkSniffer {
  verbose : bool;
  buffer : list byte;
  frame_count : Z;
  state : sniffer_state;
  frame_type : Z;
  dst_addr : Z;
  src_addr : Z;
  data_len : Z;
  header_crc : Z;
  data : list byte;
  data_crc : Z;
  printed : list crc_message
}.

Definition PREAMBLE1 : Z := 0x55.
Definition PREAMBLE2 : Z := 0xFF.

(** [MstpSniffer(verbose=...)]. *)
Definition init (verbose : bool) : MstpSniffer :=
  mkSniffer verbose [] 0 IDLE 0 0 0 0 0 [] 0 [].

Definition set_buffer (v : list byte) (s : MstpSniffer) : MstpSniffer :=
  mkSniffer (verbose s) v (frame_count s) (state s) (frame_type s) (dst_addr s)
    (src_addr s) (data_len s) (header_crc s) (data s) (data_crc s) (printed s).
Definition set_frame_count (v : Z) (s : MstpSniffer) : MstpSniffer :=
  mkSniffer (verbose s) (buffer s) v (state s) (frame_type s) (dst_addr s)
    (src_addr s) (data_len s) (header_crc s) (data s) (data_crc s) (printed s).
Definition set_state (v : sniffer_state) (s : MstpSniffer) : MstpSniffer :=
  mkSniffer (verbose s) (buffer s) (frame_count s) v (frame_type s) (dst_addr s)
    (src_addr s) (data_len s) (header_crc s) (data s) (data_crc s) (printed s).
(** The five assignments made from a full header. *)
Definition set_header (t d src len crc : Z) (s : MstpSniffer) : MstpSniffer :=
  mkSniffer (verbose s) (buffer s) (frame_count s) (state s) t d
    src len crc (data s) (data_crc s) (printed s).
Definition set_data (v : list byte) (s : MstpSniffer) : MstpSniffer :=
  mkSniffer (verbose s) (buffer s) (frame_count s) (state s) (frame_type s)
    (dst_addr s) (src_addr s) (data_len s) (header_crc s) v (data_crc s)
    (printed s).
Definition set_data_crc (v : Z) (s : MstpSniffer) : MstpSniffer :=
  mkSniffer (verbose s) (buffer s) (frame_count s) (state s) (frame_type s)
    (dst_addr s) (src_addr s) (data_len s) (header_crc s) (data s) v
    (printed s).
(** [if self.verbose: print(...)]. *)
Definition print_if_verbose (m : crc_message) (s : MstpSniffer) : MstpSniffer :=
  if verbose s then
    mkSniffer (verbose s) (buffer s) (frame_count s) (state s) (frame_type s)
      (dst_addr s) (src_addr s) (data_len s) (header_crc s) (data s)
      (data_crc s) (printed s ++ [m])
  else s.

(** What [process_byte] returns for a complete frame: [(output, hex_data)]. *)
Definition result : Type := output * option (list byte).

Definition _complete_frame (self : MstpSniffer) : option result * MstpSniffer :=
  let self := set_frame_count (frame_count self + 1) self in
  let output :=
    format_frame (frame_count self) (frame_type self) (dst_addr self)
                 (src_addr self) (data_len self) (data self) in
  let hex_data :=
    match data self with
    | [] => None
    | _ :: _ => Some (data self)
    end in
  (* Reset state *)
  let self := set_state IDLE self in
  let self := set_buffer [] self in
  let self := set_data [] self in
  (Some (output, hex_data), self).

Definition process_byte (self : MstpSniffer) (byte : byte)
    : option result * MstpSniffer :=
  let self := set_buffer (buffer self ++ [byte]) self in
  match state self with
  | IDLE =>
      if byte_val byte =? PREAMBLE1
      then (None, set_buffer [byte] (set_state PREAMBLE self))
      else (None, set_buffer [] self)
  | PREAMBLE =>
      if byte_val byte =? PREAMBLE2 then (None, set_state HEADER self)
      else if byte_val byte =? PREAMBLE1 then (None, self) (* Stay in PREAMBLE *)
      else (None, set_buffer [] (set_state IDLE self))
  | HEADER =>
      match buffer self with
      | [_; _; b2; b3; b4; b5; b6; b7] =>
          (* Full header received *)
          let self :=
            set_header (byte_val b2) (byte_val b3) (byte_val b4)
                       (Z.lor (Z.shiftl (byte_val b5) 8) (byte_val b6))
                       (byte_val b7) self in
          (* Verify header CRC *)
          let calc_crc := crc8 (take 5 (drop 2 (buffer self))) in
          if negb (calc_crc =? header_crc self) then
            let self :=
              print_if_verbose (HeaderCrcMismatch calc_crc (header_crc self)) self in
            (None, set_buffer [] (set_state IDLE self))
          else if 0 <? data_len self then
            (None, set_data [] (set_state DATA self))
          else
            (* No data, frame complete *)
            _complete_frame self
      | _ => (None, self)
      end
  | DATA =>
      let self := set_data (data self ++ [byte]) self in
      if Z.of_nat (length (data self)) =? data_len self + 2 then
        (* Data + 2-byte CRC *)
        match rev (data self) with
        | last1 :: last2 :: _ =>
            let self :=
              set_data_crc (Z.lor (Z.shiftl (byte_val last1) 8) (byte_val last2))
                           self in
            let self :=
              set_data (take (length (data self) - 2) (data self)) self in
            (* Verify data CRC *)
            let calc_crc := crc16 (data self) in
            let self :=
              if negb (calc_crc =? data_crc self)
              then print_if_verbose DataCrcMismatch self
              else self in
            _complete_frame self
        | _ => (None, self) (* out of reach: data_len > 0 in this state *)
        end
      else (None, self)
  end.

(** The loop of [main] over the bytes read: every byte goes through
    [process_byte]; the results that are not [None] are printed. *)
Fixpoint process_bytes (self : MstpSniffer) (bytes : list byte)
    : list result * MstpSniffer :=
  match bytes with
  | [] => ([], self)
  | b :: bytes' =>
      let '(r, self) := process_byte self b in
      let '(rs, self) := process_bytes self bytes' in
      (match r with Some x => x :: rs | None => rs end, self)
  end.

(** *** Decoders of the payload *)

(** [data[i]]: an [IndexError] outside the object; a negative [i] counts
    from the end. *)
Definition item (data : list byte) (i : Z) : option Z :=
  let i := if i <? 0 then i + Z.of_nat (length data) else i in
  if i <? 0 then None else byte_val <$> data !! Z.to_nat i.

(** [data[start:stop]] for [0 <= start <= stop]. *)
Definition slice (data : list byte) (start stop : Z) : list byte :=
  take (Z.to_nat (stop - start)) (drop (Z.to_nat start) data).

(** [CONFIRMED_SERVICES.get(service)]. *)
Definition CONFIRMED_SERVICES (service : Z) : option string :=
  match service with
  | 0x00 => Some "AcknowledgeAlarm"
  | 0x01 => Some "COVNotification"
  | 0x02 => Some "EventNotification"
  | 0x03 => Some "GetAlarmSummary"
  | 0x04 => Some "GetEnrollmentSummary"
  | 0x05 => Some "SubscribeCOV"
  | 0x06 => Some "AtomicReadFile"
  | 0x07 => Some "AtomicWriteFile"
  | 0x08 => Some "AddListElement"
  | 0x09 => Some "RemoveListElement"
  | 0x0A => Some "CreateObject"
  | 0x0B => Some "DeleteObject"
  | 0x0C => Some "ReadProperty"
  | 0x0D => Some "ReadPropertyConditional"
  | 0x0E => Some "ReadPropertyMultiple"
  | 0x0F => Some "WriteProperty"
  | 0x10 => Some "WritePropertyMultiple"
  | 0x11 => Some "DeviceCommunicationControl"
  | 0x12 => Some "ConfirmedPrivateTransfer"
  | 0x13 => Some "ConfirmedTextMessage"
  | 0x14 => Some "ReinitializeDevice"
  | 0x15 => Some "VTOpen"
  | 0x16 => Some "VTClose"
  | 0x17 => Some "VTData"
  | 0x18 => Some "Authenticate"
  | 0x19 => Some "RequestKey"
  | 0x1A => Some "ReadRange"
  | 0x1B => Some "LifeSafetyOperation"
  | 0x1C => Some "SubscribeCOVProperty"
  | 0x1D => Some "GetEventInformation"
  | _ => None
  end%string.

(** [UNCONFIRMED_SERVICES.get(service)]. *)
Definition UNCONFIRMED_SERVICES (service : Z) : option string :=
  match service with
  | 0x00 => Some "I-Am"
  | 0x01 => Some "I-Have"
  | 0x02 => Some "COV-Notification"
  | 0x03 => Some "Event-Notification"
  | 0x04 => Some "Private-Transfer"
  | 0x05 => Some "Text-Message"
  | 0x06 => Some "Time-Synchronization"
  | 0x07 => Some "Who-Has"
  | 0x08 => Some "Who-Is"
  | 0x09 => Some "UTC-Time-Synchronization"
  | 0x0A => Some "WriteGroup"
  | _ => None
  end%string.

(** The dictionary [info] that [decode_npdu] returns; the keys that are
    set under a condition are options. *)
Record npdu_info : Type := mkNpduInfo {
  version : Z;
  control : Z;
  network_msg : bool;
  dnet_present : bool;
  snet_present : bool;
  expecting_reply : bool;
  priority : Z;
  dnet : option Z;
  dlen : option Z;
  dadr : option (list byte);
  snet : option Z;
  slen : option Z;
  sadr : option (list byte);
  hop_count : option Z;
  apdu_offset : Z
}.

(** The block of [decode_npdu] for the destination network, which is also
    its block for the source network with the other keys: the network, the
    length of the address, the address and the offset behind them. *)
Definition decode_network (present : bool) (data : list byte) (offset : Z)
    : option (option Z * option Z * option (list byte) * Z) :=
  if present && (offset + 3 <? Z.of_nat (length data)) then
    high ← item data offset;
    low ← item data (offset + 1);
    let net := Z.lor (Z.shiftl high 8) low in
    len ← item data (offset + 2);
    let offset := offset + 3 in
    if (0 <? len) && (offset + len <? Z.of_nat (length data))
    then Some (Some net, Some len, Some (slice data offset (offset + len)), offset + len)
    else Some (Some net, Some len, None, offset)
  else Some (None, None, None, offset).

(** [decode_npdu] returns the pair [(info, None)] or [(None, message)];
    the outer [None] stands for an [IndexError]. *)
Definition decode_npdu (data : list byte) : option (option npdu_info * option string) :=
  if Z.of_nat (length data) <? 2 then Some (None, Some "Too short for NPDU"%string)
  else
    version ← item data 0;
    control ← item data 1;
    if negb (version =? 0x01)
    then Some (None, Some ("Unknown NPDU version: " +:+ pretty version))
    else
      let dnet_present := negb (Z.land control 0x20 =? 0) in
      let snet_present := negb (Z.land control 0x08 =? 0) in
      let offset := 2 in
      (* Destination network *)
      '(dnet, dlen, dadr, offset) ← decode_network dnet_present data offset;
      (* Source network *)
      '(snet, slen, sadr, offset) ← decode_network snet_present data offset;
      (* Hop count *)
      '(hop_count, offset) ←
        (if dnet_present && (offset <? Z.of_nat (length data))
         then hop ← item data offset; Some (Some hop, offset + 1)
         else Some (None, offset));
      Some (Some {| version := version;
                    control := control;
                    network_msg := negb (Z.land control 0x80 =? 0);
                    dnet_present := dnet_present;
                    snet_present := snet_present;
                    expecting_reply := negb (Z.land control 0x04 =? 0);
                    priority := Z.land control 0x03;
                    dnet := dnet; dlen := dlen; dadr := dadr;
                    snet := snet; slen := slen; sadr := sadr;
                    hop_count := hop_count;
                    apdu_offset := offset |},
            None).

(** One branch of [decode_apdu]: the service is read at [index] when the
    APDU has at least [index + 1] bytes. *)
Definition service_text (services : Z -> option string) (kind : string)
    (data : list byte) (index : Z) : option string :=
  if Z.of_nat (length data) <? index + 1 then Some (kind +:+ " (truncated)")
  else
    service ← item data index;
    let service_name := default ("Unknown(" +:+ pretty service +:+ ")") (services service) in
    Some (kind +:+ ": " +:+ service_name).

Definition decode_apdu (data : list byte) : option string :=
  if Z.of_nat (length data) <? 1 then Some "Empty APDU"%string
  else
    first ← item data 0;
    let pdu_type := Z.land (Z.shiftr first 4) 0x0F in
    if pdu_type =? 0x00 then (* Confirmed Request *)
      if Z.of_nat (length data) <? 4 then Some "Confirmed Request (truncated)"%string
      else
        service ← item data 3;
        Some ("Confirmed-REQ: "
              +:+ default ("Unknown(" +:+ pretty service +:+ ")") (CONFIRMED_SERVICES service))
    else if pdu_type =? 0x01 then (* Unconfirmed Request *)
      if Z.of_nat (length data) <? 2 then Some "Unconfirmed Request (truncated)"%string
      else
        service ← item data 1;
        Some ("Unconfirmed-REQ: "
              +:+ default ("Unknown(" +:+ pretty service +:+ ")")
                          (UNCONFIRMED_SERVICES service))
    else if pdu_type =? 0x02 then service_text CONFIRMED_SERVICES "Simple-ACK" data 2
    else if pdu_type =? 0x03 then service_text CONFIRMED_SERVICES "Complex-ACK" data 2
    else if pdu_type =? 0x04 then Some "Segment-ACK"%string
    else if pdu_type =? 0x05 then service_text CONFIRMED_SERVICES "Error" data 2
    else if pdu_type =? 0x06 then Some "Reject"%string
    else if pdu_type =? 0x07 then Some "Abort"%string
    else Some ("Unknown PDU type: " +:+ pretty pdu_type).

End Sniffer.

(** ** mstp_capture.py (the CRC verification tool at the top of the tree) *)
Module MstpCapture.

Definition calc_standard_crc (data : list byte) : Z :=
  let crc :=
    fold_left
      (fun crc b =>
         (* XOR C7..C0 with D7..D0 *)
         let temp := Z.lxor crc (byte_val b) in
         (* Exclusive OR the terms in the table (top down) *)
         let temp :=
           Z.lxor (Z.lxor (Z.lxor (Z.lxor (Z.lxor (Z.lxor (Z.lxor
             temp (Z.shiftl temp 1)) (Z.shiftl temp 2))
             (Z.shiftl temp 3)) (Z.shiftl temp 4)) (Z.shiftl temp 5))
             (Z.shiftl temp 6)) (Z.shiftl temp 7) in
         (* Combine bits shifted out left hand end *)
         Z.lxor (Z.land temp 0xfe) (Z.land (Z.shiftr temp 8) 1))
      data 0xFF in
  Z.land (Z.lnot crc) 0xFF.

(** The binary digits of a positive number, least significant first. *)
Fixpoint pos_bits (p : positive) : list bool :=
  match p with
  | xH => [true]
  | xO p => false :: pos_bits p
  | xI p => true :: pos_bits p
  end.

(** ['{:08b}'.format(n)]: the binary digits of [n], most significant
    first, padded with zeros to eight; a negative [n] gives a string with
    a sign, which [int(..., 2)] does not read once it is reversed
    ([ValueError]). *)
Definition format_08b (n : Z) : option (list bool) :=
  match n with
  | Z0 => Some (repeat false 8)
  | Zpos p =>
      let digits := rev (pos_bits p) in
      Some (repeat false (8 - length digits) ++ digits)
  | Zneg _ => None
  end.

(** [int(digits, 2)]. *)
Definition int_base2 (digits : list bool) : Z :=
  fold_left (fun acc (d : bool) => 2 * acc + (if d then 1 else 0)) digits 0.

(** [int('{:08b}'.format(n)[::-1], 2)]. *)
Definition reverse_bits (n : Z) : option Z :=
  digits ← format_08b n; Some (int_base2 (rev digits)).

(** [if crc & 0x80: crc = ((crc << 1) ^ 0x81) & 0xFF
     else: crc = (crc << 1) & 0xFF]. *)
Definition shift_left_xor (crc : Z) : Z :=
  if negb (Z.land crc 0x80 =? 0)
  then Z.land (Z.lxor (Z.shiftl crc 1) 0x81) 0xFF
  else Z.land (Z.shiftl crc 1) 0xFF.

Definition calc_empirical_crc (data : list byte) : option Z :=
  crc ← fold_left
           (fun crc b =>
              crc ← crc;
              reflected_byte ← reverse_bits (byte_val b);
              Some (repeat8 shift_left_xor (Z.lxor crc reflected_byte)))
           data (Some 0xFF);
  reflected ← reverse_bits crc;
  Some (Z.lxor reflected 0xFF).

End MstpCapture.

(** ** crc16_verify.py *)
Module Crc16Verify.

Definition calculate_data_crc_ccitt (data : list byte) : Z :=
  let crc :=
    fold_left (fun crc b => repeat8 (shift_xor 0x8408) (Z.lxor crc (byte_val b)))
              data 0xFFFF in
  Z.land (Z.lnot crc) 0xFFFF.

Definition check_crc_ccitt_with_crc (data_with_crc : list byte) : Z :=
  fold_left (fun crc b => repeat8 (shift_xor 0x8408) (Z.lxor crc (byte_val b)))
            data_with_crc 0xFFFF.

End Crc16Verify.

(** * Vocabulary of the properties

    The predicates and auxiliary functions in which the properties of the
    station, the framer and the sniffer are stated and proved. *)

Import Simulator.

(** [count] numbers from [start] on. *)
Fixpoint numbers_from (start : Z) (count : nat) : list Z :=
  match count with
  | O => []
  | S count' => start :: numbers_from (start + 1) count'
  end.

(** [n] is the smallest number with property [P]. *)
Definition smallest (n : Z) (P : Z -> Prop) : Prop :=
  P n /\ forall m, P m -> n <= m.

(** The invariant of the data model, in the words of the specification:
    [next_station] is the smallest known master strictly greater than the
    own address or, if there is none, the smallest known master; it is
    [None] when no master is known. *)
Definition next_station_invariant (self : MstpSimulator) : Prop :=
  match next_station self with
  | Some n =>
      smallest n (fun m => m ∈ known_masters self /\ mac self < m) \/
      ((forall m, m ∈ known_masters self -> ~ mac self < m) /\
       smallest n (fun m => m ∈ known_masters self))
  | None => known_masters self = ∅
  end.

(** The invariant reads [mac], [known_masters] and [next_station] only. *)
Definition same_ring (s s' : MstpSimulator) : Prop :=
  mac s' = mac s /\ max_master s' = max_master s /\
  known_masters s' = known_masters s /\ next_station s' = next_station s.

(** A computation that leaves the ring attributes alone. *)
Definition keeps_ring {A : Type} (m : M A) : Prop :=
  forall s, same_ring s (snd (m s)).

(** [m] keeps the property [I] of the station, whether it returns or
    raises. *)
Definition preserves {A : Type} (I : MstpSimulator -> Prop) (m : M A) : Prop :=
  forall s, I s -> I (snd (m s)).

(** The discovery step at the head of [handle_frame]. *)
Definition discovered (frame_type dest src : Z) (self : MstpSimulator)
    : MstpSimulator :=
  let self := discover_master src self in
  if frame_type =? FRAME_TOKEN then discover_master dest self
  else if frame_type =? FRAME_REPLY_TO_POLL then discover_master src self
  else self.

(** The part of [parse_frame] that follows the preamble search, applied to
    the buffer once it starts at the preamble. *)
Definition decode_header (rx_buffer : list byte) : parse_step :=
  match rx_buffer with
  | _ :: _ :: b2 :: b3 :: b4 :: b5 :: b6 :: b7 :: _ =>
      let frame_type := byte_val b2 in
      let dest := byte_val b3 in
      let src := byte_val b4 in
      let data_len := Z.lor (Z.shiftl (byte_val b5) 8) (byte_val b6) in
      let header_crc := byte_val b7 in
      let calc_crc := crc8_header (take 5 (drop 2 rx_buffer)) in
      if negb (calc_crc =? header_crc) then
        ParseStep None (Some (HeaderCrcError calc_crc header_crc))
                  (drop 2 rx_buffer)
      else
        let frame_size := if 0 <? data_len then 8 + data_len + 2 else 8 in
        if Z.of_nat (length rx_buffer) <? frame_size
        then ParseStep None None rx_buffer
        else if 0 <? data_len then
          let data := take (Z.to_nat data_len) (drop 8 rx_buffer) in
          match drop (Z.to_nat (8 + data_len)) rx_buffer with
          | c0 :: c1 :: _ =>
              let data_crc_recv :=
                Z.lor (byte_val c0) (Z.shiftl (byte_val c1) 8) in
              let data_crc_calc := crc16_data data in
              if negb (data_crc_recv =? data_crc_calc) then
                ParseStep None (Some DataCrcError) (drop 2 rx_buffer)
              else
                ParseStep (Some (frame_type, dest, src, Some data)) None
                          (drop (Z.to_nat frame_size) rx_buffer)
          | _ => ParseStep None None rx_buffer
          end
        else
          ParseStep (Some (frame_type, dest, src, None)) None
                    (drop (Z.to_nat frame_size) rx_buffer)
  | _ => ParseStep None None rx_buffer
  end.

(** The length field of a header. *)
Definition length_field (b5 b6 : byte) : Z :=
  Z.lor (Z.shiftl (byte_val b5) 8) (byte_val b6).

(** The test of the search loop: the buffer starts with [55 FF]. *)
Definition at_preamble (buf : list byte) : bool :=
  match buf with
  | b0 :: b1 :: _ => (byte_val b0 =? 0x55) && (byte_val b1 =? 0xFF)
  | _ => false
  end.

(** What [parse_frame] returns for the payload handed to [build_frame]:
    an empty payload comes back as [None]. *)
Definition decoded_payload (data : option (list byte)) : option (list byte) :=
  match data with
  | Some (_ :: _) => data
  | _ => None
  end.

(** [len(data)], 0 for [None]. *)
Definition payload_length (data : option (list byte)) : Z :=
  match data with
  | Some data => Z.of_nat (length data)
  | None => 0
  end.

(** The station with one frame written to the port. *)
Definition sent (frame : list byte) (s : MstpSimulator) : MstpSimulator :=
  set_frames_sent (frames_sent s + 1) (emit SerFlush (emit (SerWrite frame) s)).

(** The addresses a station holds are bytes, as they are when they come
    from decoded frames and a valid configuration. *)
Definition addresses_in_range (self : MstpSimulator) : Prop :=
  0 <= mac self < 256 /\ 0 <= max_master self < 256 /\
  (forall m, m ∈ known_masters self -> 0 <= m < 256) /\
  (forall n, next_station self = Some n -> 0 <= n < 256).

(** The station at the moment [handle_use_token] has counted the token. *)
Definition counted (s : MstpSimulator) : MstpSimulator :=
  set_frame_count 0 (set_token_count (token_count s + 1) s).

(** The frames decoded so far, with the result of one more call in front. *)
Definition with_returned (r : option frame) (frames : list frame) : list frame :=
  match r with
  | Some f => f :: frames
  | None => frames
  end.

(** The frames that the loop decodes from the buffer [rx] when no more
    bytes arrive: as many idle passes as [rx] has bytes. *)
Definition drained (rx : list byte) : list frame :=
  fst (run_rx (repeat [] (length rx)) rx).

(** A frame as [parse_frame] returns it after [build_frame]. *)
Definition decoded (f : frame) : frame :=
  let '(t, d, s, data) := f in (t, d, s, decoded_payload data).

(** The payload of a frame fits the 16-bit length field. *)
Definition fits_length_field (f : frame) : Prop :=
  let '(_, _, _, data) := f in payload_length data <= 65535.

(** The bytes on the wire for [traffic]: in front of each frame, the bytes
    of noise that go with it. *)
Fixpoint transmit (traffic : list (list byte * frame)) : option (list byte) :=
  match traffic with
  | [] => Some []
  | (noise, (t, d, s, data)) :: traffic' =>
      wire ← build_frame t d s data;
      rest ← transmit traffic';
      Some (noise ++ wire ++ rest)
  end.

(** The part of [handle_frame] that follows the discovery step. *)
Definition dispatch (frame_type dest src : Z) (data : option (list byte)) : M unit :=
  mac_ ← attr mac;
  if negb (dest =? mac_) && negb (dest =? 255) then mret tt
  else if frame_type =? FRAME_TOKEN then
    n ← attr tokens_received;
    assign (set_tokens_received (n + 1));;
    assign (set_state USE_TOKEN);;
    handle_use_token
  else if frame_type =? FRAME_POLL_FOR_MASTER then
    n ← attr polls_received;
    assign (set_polls_received (n + 1));;
    assign (emit (Sleep T_REPLY_DELAY));;
    send_frame FRAME_REPLY_TO_POLL src None
  else if frame_type =? FRAME_BACNET_DATA_EXPECTING_REPLY then
    n ← attr data_frames_received;
    assign (set_data_frames_received (n + 1))
  else if frame_type =? FRAME_BACNET_DATA_NOT_EXPECTING_REPLY then
    n ← attr data_frames_received;
    assign (set_data_frames_received (n + 1))
  else if frame_type =? FRAME_TEST_REQUEST then
    assign (emit (Sleep T_REPLY_DELAY));;
    send_frame FRAME_TEST_RESPONSE src data
  else mret tt.

(** The frames written to the port, oldest first. *)
Fixpoint written (effects : list effect) : list (list byte) :=
  match effects with
  | [] => []
  | SerWrite frame :: effects' => frame :: written effects'
  | _ :: effects' => written effects'
  end.

(** Every known master is another station, within [max_master]. *)
Definition masters_valid (self : MstpSimulator) : Prop :=
  forall m, m ∈ known_masters self -> m <> mac self /\ m <= max_master self.

(** The number under which a decoded frame is shown. *)
Definition frame_num (r : Sniffer.result) : Z :=
  let '(Sniffer.format_frame n _ _ _ _ _, _) := r in n.

(** A result of the sniffer whose parts fit: the header fields are bytes,
    the length shown is the length of the payload shown, and the payload
    is handed over when there is one. *)
Definition well_formed (r : Sniffer.result) : Prop :=
  let '(Sniffer.format_frame _ t d s len data, hex_data) := r in
  0 <= t < 256 /\ 0 <= d < 256 /\ 0 <= s < 256 /\
  len = Z.of_nat (length data) /\ len < 65536 /\
  hex_data = if 0 <? len then Some data else None.

(** What holds of the sniffer between two bytes. *)
Definition sniffer_consistent (self : Sniffer.MstpSniffer) : Prop :=
  0 <= Sniffer.frame_type self < 256 /\ 0 <= Sniffer.dst_addr self < 256 /\
  0 <= Sniffer.src_addr self < 256 /\ 0 <= Sniffer.data_len self < 65536 /\
  match Sniffer.state self with
  | Sniffer.DATA =>
      0 < Sniffer.data_len self /\
      Z.of_nat (length (Sniffer.data self)) < Sniffer.data_len self + 2
  | _ => Sniffer.data self = []
  end.

(** * Properties *)

(** ** Bytes *)

Lemma byte_val_range (b : byte) : 0 <= byte_val b < 256.
Proof. unfold byte_val. pose proof (Byte.to_N_bounded b). lia. Qed.

Lemma byte_of_int_val (b : byte) : byte_of_int (byte_val b) = Some b.
Proof.
  unfold byte_of_int. pose proof (byte_val_range b) as Hb.
  destruct (Z.leb_spec 0 (byte_val b)); [|lia].
  destruct (Z.ltb_spec (byte_val b) 256); [|lia].
  simpl. unfold byte_val. rewrite N2Z.id. apply Byte.of_to_N.
Qed.

Lemma byte_of_int_Some (z : Z) (b : byte) : byte_of_int z = Some b -> byte_val b = z.
Proof.
  unfold byte_of_int, byte_val.
  destruct (Z.leb_spec 0 z); [|discriminate].
  destruct (Z.ltb_spec z 256); [|discriminate].
  simpl. intros Hb%Byte.to_of_N. rewrite Hb. lia.
Qed.

Lemma byte_of_int_in_range (z : Z) :
  0 <= z < 256 -> exists b, byte_of_int z = Some b /\ byte_val b = z.
Proof.
  intros Hz. destruct (byte_of_int z) as [b|] eqn:E.
  - exists b. split; [reflexivity | eauto using byte_of_int_Some].
  - exfalso. unfold byte_of_int in E.
    destruct (Z.leb_spec 0 z); [|lia].
    destruct (Z.ltb_spec z 256); [|lia].
    simpl in E. apply Byte.of_N_None_iff in E. lia.
Qed.

Lemma byte_val_inj (a b : byte) : byte_val a = byte_val b -> a = b.
Proof.
  intros H. pose proof (byte_of_int_val a) as Ha. rewrite H, byte_of_int_val in Ha.
  congruence.
Qed.

Lemma bytes_of_ints_vals (l : list byte) : bytes_of_ints (map byte_val l) = Some l.
Proof.
  induction l as [|b l IH]; simpl; [reflexivity|].
  now rewrite byte_of_int_val, IH.
Qed.

(** Masking with [0xFF] or [0xFFFF] leaves a value of that width. *)
Lemma land_0xFF_range (z : Z) : 0 <= Z.land z 0xFF < 256.
Proof. change 0xFF with (Z.ones 8). rewrite Z.land_ones by lia. apply Z.mod_pos_bound. lia. Qed.

Lemma land_0xFFFF_range (z : Z) : 0 <= Z.land z 0xFFFF < 65536.
Proof. change 0xFFFF with (Z.ones 16). rewrite Z.land_ones by lia. apply Z.mod_pos_bound. lia. Qed.

Lemma in_numbers_from (z start : Z) (count : nat) :
  start <= z < start + Z.of_nat count -> In z (numbers_from start count).
Proof.
  revert start. induction count as [|count IH]; intros start Hz; [lia|].
  simpl. destruct (Z.eq_dec start z) as [->|Hne]; [now left|].
  right. apply IH. lia.
Qed.

(** A check that holds on every number below [n], by running it. *)
Lemma forall_below (P : Z -> bool) (n : Z) :
  forallb P (numbers_from 0 (Z.to_nat n)) = true ->
  forall z, 0 <= z < n -> P z = true.
Proof.
  intros H z Hz. rewrite forallb_forall in H. apply H.
  apply in_numbers_from. lia.
Qed.

(** ** The CRC engine *)

Lemma sim_crc8_header_range (data : list byte) : 0 <= Simulator.crc8_header data < 256.
Proof. apply land_0xFF_range. Qed.

Lemma sim_crc16_data_range (data : list byte) : 0 <= Simulator.crc16_data data < 65536.
Proof. apply land_0xFFFF_range. Qed.

Lemma sender_crc8_header_range (data : list byte) : 0 <= TestSender.crc8_header data < 256.
Proof. apply land_0xFF_range. Qed.

(** C9, as the claim has it: the value is not [0x51], with either form of
    the header CRC of [crc_test.py] (the shift register form with [0x8C]
    gives [0xDB], the parallel form [0x62]). *)
Lemma crc8_token_header_is_not_0x51 :
  CrcTest.crc8_header_python CrcTest.token_header = 0xDB /\
  CrcTest.crc8_header_rust_style CrcTest.token_header = 0x62 /\
  CrcTest.crc8_header_python CrcTest.token_header <> 0x51 /\
  CrcTest.crc8_header_rust_style CrcTest.token_header <> 0x51.
Proof.
  split; [vm_compute; reflexivity|]. split; [vm_compute; reflexivity|].
  split; vm_compute; discriminate.
Qed.

(** C9, amended: on the header [00 06 03 00 00] (Token, dest=6, src=3, len=0)
    the header CRC-8 of Annex G.1 for X^8+X^7+1 (initial register [0xFF],
    one's complement output), as computed by [crc8_header_rust_style] and
    by [crc8_header] of the simulator, is [0x62]. *)
Theorem crc8_token_header_value :
  CrcTest.crc8_header_rust_style CrcTest.token_header = 0x62 /\
  Simulator.crc8_header CrcTest.token_header = 0x62.
Proof. split; vm_compute; reflexivity. Qed.

(** C4: the two re-implementations are not the same function.  On the header
    [00 02 06 00 00] (Token, dest=2, src=6), for which [crc_test.py] records
    the CRC [0xBE] seen on the bus, the parallel [crc8_header] of the
    simulator returns [0xBE] and the bitwise [crc8_header] of the test sender
    returns [0xE0]; they differ already on the single byte [00]. *)
Theorem crc8_header_implementations_differ :
  Simulator.crc8_header [x00; x02; x06; x00; x00] = 0xBE /\
  TestSender.crc8_header [x00; x02; x06; x00; x00] = 0xE0 /\
  Simulator.crc8_header [x00] = 0xAA /\
  TestSender.crc8_header [x00] = 0xCA.
Proof. repeat split; vm_compute; reflexivity. Qed.

Lemma lxor_below (n a b : Z) :
  0 <= a < 2 ^ n -> 0 <= b < 2 ^ n -> 0 <= Z.lxor a b < 2 ^ n.
Proof.
  intros Ha Hb. split; [apply Z.lxor_nonneg; lia|].
  destruct (Z.eq_dec (Z.lxor a b) 0) as [->|Hne]; [lia|].
  assert (0 < n) as Hn.
  { destruct (Z.lt_ge_cases 0 n) as [|Hle]; [assumption|]. exfalso.
    destruct (Z.eq_dec n 0) as [->|]; [|rewrite Z.pow_neg_r in Ha; lia].
    change (2 ^ 0) with 1 in *. assert (a = 0) by lia. assert (b = 0) by lia.
    subst. now apply Hne. }
  assert (0 < Z.lxor a b) as Hpos by (pose proof (proj2 (Z.lxor_nonneg a b)); lia).
  apply Z.log2_lt_pow2; [exact Hpos|].
  pose proof (Z.log2_lxor a b ltac:(lia) ltac:(lia)) as Hlog.
  assert (Z.log2 a < n) as Hla.
  { destruct (Z.eq_dec a 0) as [->|]; [exact Hn|]. apply Z.log2_lt_pow2; lia. }
  assert (Z.log2 b < n) as Hlb.
  { destruct (Z.eq_dec b 0) as [->|]; [exact Hn|]. apply Z.log2_lt_pow2; lia. }
  lia.
Qed.

Lemma lxor_byte_8 (c : Z) (b : byte) : 0 <= c < 256 -> 0 <= Z.lxor c (byte_val b) < 256.
Proof. intros Hc. apply (lxor_below 8); [exact Hc | apply byte_val_range]. Qed.

Lemma lxor_byte_16 (c : Z) (b : byte) :
  0 <= c < 65536 -> 0 <= Z.lxor c (byte_val b) < 65536.
Proof.
  intros Hc. apply (lxor_below 16); [exact Hc|].
  pose proof (byte_val_range b). change (2 ^ 16) with 65536. lia.
Qed.

(** A register that stays below [bound] under every step stays so over
    a whole message. *)
Lemma fold_left_below {A : Type} (step : Z -> A -> Z) (bound : Z) (l : list A) (c : Z) :
  (forall c a, 0 <= c < bound -> 0 <= step c a < bound) ->
  0 <= c < bound -> 0 <= fold_left step l c < bound.
Proof.
  intros Hstep. revert c. induction l as [|a l IH]; intros c Hc; simpl; [exact Hc|].
  apply IH, Hstep, Hc.
Qed.

(** Two step functions that agree on registers below [bound], one of them
    keeping the register below [bound], give the same register. *)
Lemma fold_left_agree {A : Type} (step step' : Z -> A -> Z) (bound : Z)
    (l : list A) (c : Z) :
  (forall c a, 0 <= c < bound -> 0 <= step c a < bound) ->
  (forall c a, 0 <= c < bound -> step' c a = step c a) ->
  0 <= c < bound -> fold_left step' l c = fold_left step l c.
Proof.
  intros Hstep Hagree. revert c. induction l as [|a l IH]; intros c Hc; simpl; [reflexivity|].
  rewrite Hagree by exact Hc. apply IH, Hstep, Hc.
Qed.

Lemma shift_register_8C_below (c : Z) :
  0 <= c < 256 -> 0 <= repeat8 (shift_xor 0x8C) c < 256.
Proof.
  intros Hc.
  pose proof (forall_below
                (fun c => (0 <=? repeat8 (shift_xor 0x8C) c)
                          && (repeat8 (shift_xor 0x8C) c <? 256))
                256 ltac:(vm_compute; reflexivity) c Hc) as H.
  apply andb_prop in H as [H1 H2]. apply Z.leb_le in H1. apply Z.ltb_lt in H2. lia.
Qed.

Lemma shift_register_8408_below (c : Z) :
  0 <= c < 65536 -> 0 <= repeat8 (shift_xor 0x8408) c < 65536.
Proof.
  intros Hc.
  pose proof (forall_below
                (fun c => (0 <=? repeat8 (shift_xor 0x8408) c)
                          && (repeat8 (shift_xor 0x8408) c <? 65536))
                65536 ltac:(vm_compute; reflexivity) c Hc) as H.
  apply andb_prop in H as [H1 H2]. apply Z.leb_le in H1. apply Z.ltb_lt in H2. lia.
Qed.

Lemma register_8C_below (data : list byte) :
  0 <= fold_left (fun crc b => repeat8 (shift_xor 0x8C) (Z.lxor crc (byte_val b)))
                 data 0xFF < 256.
Proof.
  apply fold_left_below; [|lia].
  intros c b Hc. apply shift_register_8C_below, lxor_byte_8, Hc.
Qed.

Lemma register_8408_below (data : list byte) :
  0 <= fold_left (fun crc b => repeat8 (shift_xor 0x8408) (Z.lxor crc (byte_val b)))
                 data 0xFFFF < 65536.
Proof.
  apply fold_left_below; [|lia].
  intros c b Hc. apply shift_register_8408_below, lxor_byte_16, Hc.
Qed.

Lemma complement_8 (c : Z) : 0 <= c < 256 -> Z.lxor c 0xFF = Z.land (Z.lnot c) 0xFF.
Proof.
  intros Hc. apply Z.eqb_eq.
  apply (forall_below (fun c => Z.lxor c 0xFF =? Z.land (Z.lnot c) 0xFF) 256);
    [vm_compute; reflexivity | exact Hc].
Qed.

Lemma complement_16 (c : Z) :
  0 <= c < 65536 -> Z.lxor c 0xFFFF = Z.land (Z.lnot c) 0xFFFF.
Proof.
  intros Hc. apply Z.eqb_eq.
  apply (forall_below (fun c => Z.lxor c 0xFFFF =? Z.land (Z.lnot c) 0xFFFF) 65536);
    [vm_compute; reflexivity | exact Hc].
Qed.

Lemma sender_crc16_data_range (data : list byte) :
  0 <= TestSender.crc16_data data < 65536.
Proof. apply land_0xFFFF_range. Qed.

Lemma sniffer_crc8_eq (data : list byte) : Sniffer.crc8 data = TestSender.crc8_header data.
Proof.
  unfold Sniffer.crc8, TestSender.crc8_header. cbv zeta.
  apply complement_8, register_8C_below.
Qed.

Lemma sniffer_crc16_eq (data : list byte) :
  Sniffer.crc16 data = TestSender.crc16_data data.
Proof.
  unfold Sniffer.crc16, TestSender.crc16_data. cbv zeta.
  apply complement_16, register_8408_below.
Qed.

(** X1: the sniffer's CRC functions, which complement the register with
    [crc ^ 0xFF] and [crc ^ 0xFFFF], return on every byte sequence what the
    functions of the test sender (and of crc_test.py and the simulator)
    return with [(~crc) & 0xFF] and [(~crc) & 0xFFFF]. *)
Theorem sniffer_crc_is_sender_crc (data : list byte) :
  Sniffer.crc8 data = TestSender.crc8_header data /\
  Sniffer.crc8 data = CrcTest.crc8_header_python data /\
  Sniffer.crc16 data = TestSender.crc16_data data /\
  Sniffer.crc16 data = Simulator.crc16_data data.
Proof.
  unfold Sniffer.crc8, TestSender.crc8_header, CrcTest.crc8_header_python,
    Sniffer.crc16, TestSender.crc16_data, Simulator.crc16_data.
  cbv zeta.
  rewrite (complement_8 _ (register_8C_below data)).
  rewrite (complement_16 _ (register_8408_below data)).
  repeat split.
Qed.

(** Closes an equation between two expressions in [x], known to lie below
    [n], by running both sides on every value. *)
Ltac check_all_below x Hx n :=
  apply Z.eqb_eq; revert x Hx;
  refine (forall_below _ n _); vm_compute; reflexivity.

Lemma crc8_round_below (c : Z) (b : byte) : 0 <= Simulator.crc8_round c b < 256.
Proof. apply land_0xFF_range. Qed.

(** One round of the parallel form, whichever way its intermediate values
    are masked. *)
Lemma crc8_header_rust_style_eq (data : list byte) :
  CrcTest.crc8_header_rust_style data = Simulator.crc8_header data.
Proof.
  unfold CrcTest.crc8_header_rust_style, Simulator.crc8_header. cbv zeta.
  f_equal; f_equal.
  apply (fold_left_agree Simulator.crc8_round _ 256);
    [intros; apply crc8_round_below | | lia].
  intros c b Hc; unfold Simulator.crc8_round.
  pose proof (lxor_byte_8 c b Hc) as Hx.
  generalize dependent (Z.lxor c (byte_val b)); intros x Hx.
  check_all_below x Hx 256.
Qed.

Lemma calc_standard_crc_eq (data : list byte) :
  MstpCapture.calc_standard_crc data = Simulator.crc8_header data.
Proof.
  unfold MstpCapture.calc_standard_crc, Simulator.crc8_header. cbv zeta.
  f_equal; f_equal.
  apply (fold_left_agree Simulator.crc8_round _ 256);
    [intros; apply crc8_round_below | | lia].
  intros c b Hc; unfold Simulator.crc8_round.
  pose proof (lxor_byte_8 c b Hc) as Hx.
  generalize dependent (Z.lxor c (byte_val b)); intros x Hx.
  check_all_below x Hx 256.
Qed.

(** X2: the three copies of the parallel form of the header CRC
    ([crc8_header_rust_style] of crc_test.py, [calc_standard_crc] of
    mstp_capture.py and [crc8_header] of the simulator) return the same
    value on every byte sequence, although they mask the intermediate
    values differently. *)
Theorem parallel_crc8_forms_agree (data : list byte) :
  CrcTest.crc8_header_rust_style data = Simulator.crc8_header data /\
  MstpCapture.calc_standard_crc data = Simulator.crc8_header data.
Proof. split; [apply crc8_header_rust_style_eq | apply calc_standard_crc_eq]. Qed.

(** *** The bit-reversed form *)

(** The check that holds for every pair of numbers below [n], by running
    it. *)
Lemma forall_below_2 (P : Z -> Z -> bool) (n : Z) :
  forallb (fun x => forallb (P x) (numbers_from 0 (Z.to_nat n)))
          (numbers_from 0 (Z.to_nat n)) = true ->
  forall x y, 0 <= x < n -> 0 <= y < n -> P x y = true.
Proof.
  intros H x y Hx Hy. rewrite forallb_forall in H.
  assert (In x (numbers_from 0 (Z.to_nat n))) as Hin by (apply in_numbers_from; lia).
  specialize (H x Hin). rewrite forallb_forall in H.
  apply H, in_numbers_from. lia.
Qed.

(** The register of [calc_empirical_crc] is the register of the parallel
    form with its eight bits in reverse order. *)
Lemma empirical_round (c : Z) (b : byte) :
  0 <= c < 256 ->
  exists rc rb rr,
    MstpCapture.reverse_bits c = Some rc /\
    MstpCapture.reverse_bits (byte_val b) = Some rb /\
    MstpCapture.reverse_bits (Simulator.crc8_round c b) = Some rr /\
    repeat8 MstpCapture.shift_left_xor (Z.lxor rc rb) = rr /\
    MstpCapture.reverse_bits rc = Some c.
Proof.
  intros Hc. pose proof (byte_val_range b) as Hb.
  unfold Simulator.crc8_round.
  generalize dependent (byte_val b). intros y Hy.
  pose proof
    (forall_below_2
       (fun c y =>
          match MstpCapture.reverse_bits c, MstpCapture.reverse_bits y,
                MstpCapture.reverse_bits
                  (let temp := Z.land (Z.lxor c y) 0xFF in
                   let temp :=
                     Z.land
                       (Z.lxor (Z.lxor (Z.lxor (Z.lxor (Z.lxor (Z.lxor (Z.lxor
                          temp (Z.shiftl temp 1)) (Z.shiftl temp 2)) (Z.shiftl temp 3))
                          (Z.shiftl temp 4)) (Z.shiftl temp 5)) (Z.shiftl temp 6))
                          (Z.shiftl temp 7))
                       0xFFFF in
                   Z.land (Z.lxor (Z.land temp 0xFE) (Z.land (Z.shiftr temp 8) 1)) 0xFF)
          with
          | Some rc, Some rb, Some rr =>
              (repeat8 MstpCapture.shift_left_xor (Z.lxor rc rb) =? rr)
              && match MstpCapture.reverse_bits rc with
                 | Some c' => c' =? c
                 | None => false
                 end
          | _, _, _ => false
          end)
       256 ltac:(vm_compute; reflexivity) c y Hc Hy) as H.
  cbv beta zeta in H. cbv zeta.
  destruct (MstpCapture.reverse_bits c) as [rc|]; [|cbv beta iota in H; discriminate H].
  destruct (MstpCapture.reverse_bits y) as [rb|]; [|cbv beta iota in H; discriminate H].
  destruct (MstpCapture.reverse_bits _) as [rr|]; [|cbv beta iota in H; discriminate H].
  apply andb_prop in H as [H1 H2]. apply Z.eqb_eq in H1.
  destruct (MstpCapture.reverse_bits rc) as [c'|] eqn:Hback;
    [|cbv beta iota in H2; discriminate H2].
  apply Z.eqb_eq in H2. subst c'.
  exists rc, rb, rr. repeat split; assumption || reflexivity.
Qed.

Lemma empirical_register (data : list byte) (c rc : Z) :
  0 <= c < 256 -> MstpCapture.reverse_bits c = Some rc ->
  exists rc',
    fold_left
      (fun crc b =>
         crc ← crc;
         reflected_byte ← MstpCapture.reverse_bits (byte_val b);
         Some (repeat8 MstpCapture.shift_left_xor (Z.lxor crc reflected_byte)))
      data (Some rc) = Some rc' /\
    MstpCapture.reverse_bits rc' = Some (fold_left Simulator.crc8_round data c).
Proof.
  revert c rc. induction data as [|b data IH]; intros c rc Hc Hrc.
  - exists rc. split; [reflexivity|].
    destruct (empirical_round c x00 Hc) as (rc0 & rb & rr & Hrc0 & _ & _ & _ & Hback).
    cbn [fold_left]. congruence.
  - destruct (empirical_round c b Hc) as (rc0 & rb & rr & Hrc0 & Hrb & Hrr & Hstep & _).
    assert (rc0 = rc) as -> by congruence.
    cbn [fold_left mbind option_bind]. rewrite Hrb. cbn [mbind option_bind]. rewrite Hstep.
    apply IH; [apply crc8_round_below | exact Hrr].
Qed.

(** X3: [calc_empirical_crc], which reverses the bits of every byte, shifts
    the register to the left with the constant 0x81 and reverses the bits
    of the result, never raises on bytes and returns the value of
    [calc_standard_crc] (and of the simulator's [crc8_header]) on every
    byte sequence; so a received CRC that is not the standard one is not
    the empirical one either. *)
Theorem empirical_crc_is_standard_crc (data : list byte) :
  MstpCapture.calc_empirical_crc data = Some (MstpCapture.calc_standard_crc data) /\
  MstpCapture.calc_empirical_crc data = Some (Simulator.crc8_header data).
Proof.
  assert (MstpCapture.calc_empirical_crc data = Some (Simulator.crc8_header data)) as H.
  { unfold MstpCapture.calc_empirical_crc.
    destruct (empirical_register data 0xFF 0xFF) as (rc' & -> & Hrc');
      [lia | vm_compute; reflexivity |].
    cbn [mbind option_bind]. rewrite Hrc'. cbn [mbind option_bind]. f_equal.
    unfold Simulator.crc8_header. cbv zeta.
    apply complement_8, fold_left_below; [|lia].
    intros; apply crc8_round_below. }
  split; [|exact H].
  rewrite H. f_equal. symmetry. apply calc_standard_crc_eq.
Qed.

(** *** A changed byte changes the CRC *)

(** The round depends on the register and the byte through their
    exclusive or. *)
Lemma crc8_round_lxor (c : Z) (b : byte) :
  Simulator.crc8_round c b = Simulator.crc8_round (Z.lxor c (byte_val b)) x00.
Proof.
  unfold Simulator.crc8_round. change (byte_val x00) with 0. now rewrite Z.lxor_0_r.
Qed.

Lemma lxor_cancel_r (a b c : Z) : Z.lxor a c = Z.lxor b c -> a = b.
Proof.
  intros H. apply (f_equal (fun z => Z.lxor z c)) in H.
  now rewrite !Z.lxor_assoc, Z.lxor_nilpotent, !Z.lxor_0_r in H.
Qed.

Lemma lxor_cancel_l (a b c : Z) : Z.lxor c a = Z.lxor c b -> a = b.
Proof. rewrite !(Z.lxor_comm c). apply lxor_cancel_r. Qed.

Lemma crc8_round_injective (c c' : Z) (b : byte) :
  0 <= c < 256 -> 0 <= c' < 256 ->
  Simulator.crc8_round c b = Simulator.crc8_round c' b -> c = c'.
Proof.
  intros Hc Hc' Heq. rewrite (crc8_round_lxor c), (crc8_round_lxor c') in Heq.
  apply (lxor_cancel_r _ _ (byte_val b)), Z.eqb_eq.
  pose proof
    (forall_below_2
       (fun x x' =>
          implb (Simulator.crc8_round x x00 =? Simulator.crc8_round x' x00) (x =? x'))
       256 ltac:(vm_compute; reflexivity) _ _ (lxor_byte_8 c b Hc) (lxor_byte_8 c' b Hc'))
    as H.
  cbv beta in H. now rewrite Heq, Z.eqb_refl in H.
Qed.

Lemma shift_register_8408_injective (c c' : Z) :
  0 <= c < 65536 -> 0 <= c' < 65536 ->
  repeat8 (shift_xor 0x8408) c = repeat8 (shift_xor 0x8408) c' -> c = c'.
Proof.
  intros Hc Hc' Heq.
  pose (back := Nat.iter 8 (fun x => if x <? 0x8000 then 2 * x
                                      else 2 * Z.lxor x 0x8408 + 1)).
  assert (forall c, 0 <= c < 65536 -> back (repeat8 (shift_xor 0x8408) c) = c) as Hback.
  { intros r Hr. subst back. check_all_below r Hr 65536. }
  rewrite <- (Hback c Hc), <- (Hback c' Hc'), Heq. reflexivity.
Qed.

(** A register step that is one-to-one in the register keeps two
    registers apart over the rest of the message. *)
Lemma fold_left_apart {A : Type} (step : Z -> A -> Z) (bound : Z) (l : list A)
    (c c' : Z) :
  (forall c a, 0 <= c < bound -> 0 <= step c a < bound) ->
  (forall c c' a, 0 <= c < bound -> 0 <= c' < bound -> step c a = step c' a -> c = c') ->
  0 <= c < bound -> 0 <= c' < bound -> c <> c' ->
  fold_left step l c <> fold_left step l c'.
Proof.
  intros Hstep Hinj. revert c c'.
  induction l as [|a l IH]; intros c c' Hc Hc' Hne; simpl; [exact Hne|].
  apply IH; [apply Hstep, Hc | apply Hstep, Hc' |].
  intros Heq. apply Hne. eapply Hinj; eauto.
Qed.

(** In a header, a changed byte changes the header CRC. *)
Lemma crc8_header_changed_byte (pre post : list byte) (a b : byte) :
  a <> b ->
  Simulator.crc8_header (pre ++ a :: post) <> Simulator.crc8_header (pre ++ b :: post).
Proof.
  intros Hab. unfold Simulator.crc8_header. cbv zeta.
  rewrite !fold_left_app. cbn [fold_left].
  assert (0 <= fold_left Simulator.crc8_round pre 0xFF < 256) as Hpre
    by (apply fold_left_below; [intros; apply crc8_round_below | lia]).
  generalize dependent (fold_left Simulator.crc8_round pre 0xFF). intros r Hr.
  assert (Simulator.crc8_round r a <> Simulator.crc8_round r b) as Hround.
  { intros Heq. apply Hab, byte_val_inj.
    rewrite (crc8_round_lxor r a), (crc8_round_lxor r b) in Heq.
    apply crc8_round_injective in Heq; [|apply lxor_byte_8, Hr..].
    now apply lxor_cancel_l in Heq. }
  intros Heq.
  assert (forall l c, 0 <= c < 256 -> 0 <= fold_left Simulator.crc8_round l c < 256) as Hfold
    by (intros; apply fold_left_below; [intros; apply crc8_round_below | assumption]).
  rewrite <- !complement_8 in Heq by (apply Hfold, crc8_round_below).
  apply lxor_cancel_r in Heq. revert Heq.
  apply (fold_left_apart Simulator.crc8_round 256);
    [intros; apply crc8_round_below | apply crc8_round_injective
    | apply crc8_round_below.. | exact Hround].
Qed.

(** In a payload, a changed byte changes the data CRC. *)
Lemma crc16_data_changed_byte (pre post : list byte) (a b : byte) :
  a <> b ->
  Simulator.crc16_data (pre ++ a :: post) <> Simulator.crc16_data (pre ++ b :: post).
Proof.
  intros Hab. unfold Simulator.crc16_data. cbv zeta.
  set (step := fun crc b => repeat8 (shift_xor 0x8408) (Z.lxor crc (byte_val b))).
  assert (forall c a, 0 <= c < 65536 -> 0 <= step c a < 65536) as Hstep
    by (intros; subst step; cbv beta; apply shift_register_8408_below, lxor_byte_16;
        assumption).
  assert (forall c c' a, 0 <= c < 65536 -> 0 <= c' < 65536 ->
                         step c a = step c' a -> c = c') as Hinj.
  { intros c c' x Hc Hc' Heq. subst step. cbv beta in Heq.
    apply shift_register_8408_injective in Heq; [|apply lxor_byte_16; assumption..].
    now apply lxor_cancel_r in Heq. }
  assert (forall l c, 0 <= c < 65536 -> 0 <= fold_left step l c < 65536) as Hfold
    by (intros; apply fold_left_below; assumption).
  rewrite !fold_left_app. cbn [fold_left].
  assert (0 <= fold_left step pre 0xFFFF < 65536) as Hpre by (apply Hfold; lia).
  generalize dependent (fold_left step pre 0xFFFF). intros r Hr.
  intros Heq.
  rewrite <- !complement_16 in Heq by (apply Hfold, Hstep, Hr).
  apply lxor_cancel_r in Heq. revert Heq.
  apply (fold_left_apart step 65536); [exact Hstep | exact Hinj | apply Hstep, Hr.. |].
  subst step. cbv beta. intros Heq.
  apply shift_register_8408_injective in Heq; [|apply lxor_byte_16; assumption..].
  apply lxor_cancel_l in Heq. now apply Hab, byte_val_inj.
Qed.

(** ** The encoders *)

(** The CRC functions are used through their values and ranges from here
    on. *)
#[local] Arguments byte_val : simpl never.
#[local] Arguments byte_of_int : simpl never.
#[local] Opaque TestSender.crc8_header TestSender.crc16_data.
#[local] Opaque Simulator.crc8_header Simulator.crc16_data.
#[local] Opaque Sniffer.crc8 Sniffer.crc16.

(** The checks at [Qed] compare terms by running them, so a step that
    leaves a CRC of unknown bytes to be compared with something else is
    made by rewriting, not by [simpl]. *)
Lemma bind_Some {A B : Type} (a : A) (f : A -> option B) : Some a ≫= f = f a.
Proof. reflexivity. Qed.

Lemma bytes_of_ints_header (t d s lh ll : byte) :
  bytes_of_ints [byte_val t; byte_val d; byte_val s; byte_val lh; byte_val ll]
  = Some [t; d; s; lh; ll].
Proof. exact (bytes_of_ints_vals [t; d; s; lh; ll]). Qed.

Lemma bytes_of_ints_one (z : Z) :
  0 <= z < 256 -> exists c, bytes_of_ints [z] = Some [c] /\ byte_val c = z.
Proof.
  intros Hz. destruct (byte_of_int_in_range z Hz) as (c & Hc & Hv).
  exists c. cbn [bytes_of_ints]. rewrite Hc. auto.
Qed.

(** [build_frame] with no payload, or an empty one: the 8-byte frame. *)
Lemma build_frame_no_data (t d s : byte) (data : option (list byte)) :
  data = None \/ data = Some [] ->
  exists c,
    byte_val c = Simulator.crc8_header [t; d; s; x00; x00] /\
    Simulator.build_frame (byte_val t) (byte_val d) (byte_val s) data
    = Some [x55; xff; t; d; s; x00; x00; c].
Proof.
  intros Hdata.
  destruct (bytes_of_ints_one _ (sim_crc8_header_range [t; d; s; x00; x00]))
    as (c & Hc & Hv).
  exists c. split; [exact Hv|].
  assert (Simulator.build_frame (byte_val t) (byte_val d) (byte_val s) None
          = Some [x55; xff; t; d; s; x00; x00; c]) as Hnone.
  { unfold Simulator.build_frame.
    change 0x00 with (byte_val x00).
    rewrite bytes_of_ints_header, bind_Some, Hc, bind_Some. reflexivity. }
  destruct Hdata as [-> | ->]; exact Hnone.
Qed.

(** C10: [build_mstp_frame] of the test sender tells an absent payload from
    an empty one: with [None] it returns the 8-byte frame (preamble, header
    with length 0, header CRC), with the empty byte sequence the same 8 bytes
    followed by the 2-byte data CRC of the empty payload ([00 00]), 10 bytes
    in all; [build_frame] of the simulator returns its 8-byte frame in both
    cases. *)
Theorem build_mstp_frame_absent_vs_empty (t d s : byte) :
  exists c c' : byte,
    byte_val c = TestSender.crc8_header [t; d; s; x00; x00] /\
    byte_val c' = Simulator.crc8_header [t; d; s; x00; x00] /\
    pack_le_u16 (TestSender.crc16_data []) = Some [x00; x00] /\
    TestSender.build_mstp_frame (byte_val t) (byte_val d) (byte_val s) None
    = Some [x55; xff; t; d; s; x00; x00; c] /\
    TestSender.build_mstp_frame (byte_val t) (byte_val d) (byte_val s) (Some [])
    = Some [x55; xff; t; d; s; x00; x00; c; x00; x00] /\
    Simulator.build_frame (byte_val t) (byte_val d) (byte_val s) None
    = Some [x55; xff; t; d; s; x00; x00; c'] /\
    Simulator.build_frame (byte_val t) (byte_val d) (byte_val s) (Some [])
    = Some [x55; xff; t; d; s; x00; x00; c'].
Proof.
  destruct (bytes_of_ints_one _ (sender_crc8_header_range [t; d; s; x00; x00]))
    as (c & Hc & Hv).
  destruct (build_frame_no_data t d s None) as (c' & Hv' & Hnone); [auto|].
  destruct (build_frame_no_data t d s (Some [])) as (c'' & Hv'' & Hempty); [auto|].
  assert (c'' = c') as -> by (apply byte_val_inj; congruence).
  assert (pack_le_u16 (TestSender.crc16_data []) = Some [x00; x00]) as Hpack
    by (vm_compute; reflexivity).
  exists c, c'. repeat split; try assumption.
  - unfold TestSender.build_mstp_frame.
    change 0x00 with (byte_val x00).
    rewrite bytes_of_ints_header, bind_Some, Hc, bind_Some. reflexivity.
  - unfold TestSender.build_mstp_frame.
    change (Z.land (Z.shiftr (Z.of_nat (length (@nil byte))) 8) 0xFF) with (byte_val x00).
    change (Z.land (Z.of_nat (length (@nil byte))) 0xFF) with (byte_val x00).
    rewrite bytes_of_ints_header, bind_Some, Hc, bind_Some, Hpack, bind_Some.
    reflexivity.
Qed.

(** ** The master station *)


(** *** Succession order *)

Lemma sorted_StronglySorted (X : gset Z) : StronglySorted Z.le (sorted X).
Proof. apply StronglySorted_merge_sort; apply _. Qed.

Lemma elem_of_sorted (X : gset Z) (x : Z) : x ∈ sorted X <-> x ∈ X.
Proof. unfold sorted. rewrite merge_sort_Permutation. apply elem_of_elements. Qed.

(** The loop [for m in masters: if m > self.mac] on a sorted list stops at
    the smallest element above [own]. *)
Lemma find_above_sorted (own : Z) (l : list Z) :
  StronglySorted Z.le l ->
  match find (fun m => own <? m) l with
  | Some n => n ∈ l /\ own < n /\ forall y, y ∈ l -> own < y -> n <= y
  | None => forall y, y ∈ l -> ~ own < y
  end.
Proof.
  induction 1 as [|a l Hl IH Ha]; simpl.
  - intros y Hy. inversion Hy.
  - destruct (Z.ltb_spec own a) as [Hlt|Hge].
    + split; [left|]. split; [assumption|].
      intros y Hy _. apply elem_of_cons in Hy as [->|Hy]; [lia|].
      rewrite Forall_forall in Ha. now apply Ha.
    + destruct (find (fun m => own <? m) l) as [n|].
      * destruct IH as (Hn & Hown & Hmin). split; [now right|].
        split; [assumption|].
        intros y Hy Hlt. apply elem_of_cons in Hy as [->|Hy]; [lia|]. auto.
      * intros y Hy. apply elem_of_cons in Hy as [->|Hy]; [lia|]. auto.
Qed.

Lemma head_sorted (l : list Z) :
  StronglySorted Z.le l ->
  match head l with
  | Some n => n ∈ l /\ forall y, y ∈ l -> n <= y
  | None => l = []
  end.
Proof.
  destruct 1 as [|a l Hl Ha]; simpl; [reflexivity|].
  split; [left|].
  intros y Hy. apply elem_of_cons in Hy as [->|Hy]; [lia|].
  rewrite Forall_forall in Ha. now apply Ha.
Qed.

(** [_update_next_station] establishes the invariant, whatever
    [next_station] was. *)
Lemma update_next_station_invariant (self : MstpSimulator) :
  next_station_invariant (_update_next_station self).
Proof.
  unfold _update_next_station, next_station_invariant.
  destruct (decide (known_masters self = ∅)) as [Hempty|Hne]; simpl; [assumption|].
  pose proof (find_above_sorted (mac self) _ (sorted_StronglySorted (known_masters self)))
    as Hfind.
  pose proof (head_sorted _ (sorted_StronglySorted (known_masters self))) as Hhead.
  destruct (find _ (sorted (known_masters self))) as [n|]; simpl.
  - destruct Hfind as (Hn & Hown & Hmin). left. split.
    + split; [now apply elem_of_sorted|assumption].
    + intros m [Hm Hlt]. apply Hmin; [now apply elem_of_sorted|assumption].
  - destruct (head (sorted (known_masters self))) as [n|]; simpl.
    + destruct Hhead as (Hn & Hmin). right. split.
      * intros m Hm. apply Hfind. now apply elem_of_sorted.
      * split; [now apply elem_of_sorted|].
        intros m Hm. apply Hmin. now apply elem_of_sorted.
    + exfalso. apply Hne. apply set_eq. intros x.
      rewrite <- elem_of_sorted, Hhead. set_solver.
Qed.

Lemma same_ring_refl (s : MstpSimulator) : same_ring s s.
Proof. repeat split. Qed.

Lemma same_ring_trans (s1 s2 s3 : MstpSimulator) :
  same_ring s1 s2 -> same_ring s2 s3 -> same_ring s1 s3.
Proof. unfold same_ring. intuition congruence. Qed.

Lemma same_ring_invariant (s s' : MstpSimulator) :
  same_ring s s' -> next_station_invariant s -> next_station_invariant s'.
Proof.
  unfold same_ring, next_station_invariant.
  intros (-> & _ & -> & ->). auto.
Qed.

Lemma keeps_ring_ret {A : Type} (a : A) : keeps_ring (mret a).
Proof. intros s. apply same_ring_refl. Qed.

Lemma keeps_ring_raise {A : Type} (e : exn) : keeps_ring (@raise A e).
Proof. intros s. apply same_ring_refl. Qed.

Lemma keeps_ring_attr {A : Type} (f : MstpSimulator -> A) : keeps_ring (attr f).
Proof. intros s. apply same_ring_refl. Qed.

Lemma keeps_ring_or_raise {A : Type} (e : exn) (o : option A) :
  keeps_ring (or_raise e o).
Proof. destruct o; [apply keeps_ring_ret | apply keeps_ring_raise]. Qed.

Lemma keeps_ring_assign (f : MstpSimulator -> MstpSimulator) :
  (forall s, same_ring s (f s)) -> keeps_ring (assign f).
Proof. intros Hf s. apply Hf. Qed.

Lemma keeps_ring_bind {A B : Type} (m : M A) (k : A -> M B) :
  keeps_ring m -> (forall a, keeps_ring (k a)) -> keeps_ring (m ≫= k).
Proof.
  intros Hm Hk s. unfold mbind, M_bind.
  specialize (Hm s). destruct (m s) as [[a|e] s1]; simpl in *.
  - eapply same_ring_trans; [exact Hm | apply Hk].
  - exact Hm.
Qed.

Create HintDb station.
#[local] Hint Resolve keeps_ring_ret keeps_ring_raise keeps_ring_attr
  keeps_ring_or_raise same_ring_refl : station.

(** Splits a computation at its binds and closes the parts that are reads,
    raises and assignments outside the ring attributes. *)
Ltac keeps_ring_steps :=
  repeat match goal with
    | |- keeps_ring (mbind _ _) => apply keeps_ring_bind; [|intros ?]
    | |- keeps_ring (assign _) => apply keeps_ring_assign; intros ?; repeat split
    | |- keeps_ring (if _ then _ else _) => case_match
    | |- keeps_ring _ => solve [auto with station]
    end.

Lemma send_frame_keeps_ring (t d : Z) (data : option (list byte)) :
  keeps_ring (send_frame t d data).
Proof. unfold send_frame. keeps_ring_steps. Qed.

Lemma handle_use_token_keeps_ring : keeps_ring handle_use_token.
Proof.
  unfold handle_use_token. keeps_ring_steps.
  case_match; keeps_ring_steps; apply send_frame_keeps_ring.
Qed.

(** *** The invariant under the operations *)

Lemma preserves_bind {A B : Type} (I : MstpSimulator -> Prop)
    (m : M A) (k : A -> M B) :
  preserves I m -> (forall a, preserves I (k a)) -> preserves I (m ≫= k).
Proof.
  intros Hm Hk s Hs. unfold mbind, M_bind.
  specialize (Hm s Hs). destruct (m s) as [[a|e] s1]; simpl in *.
  - now apply Hk.
  - exact Hm.
Qed.

Lemma keeps_ring_preserves {A : Type} (m : M A) :
  keeps_ring m -> preserves next_station_invariant m.
Proof. intros Hm s Hs. eapply same_ring_invariant; [apply Hm | exact Hs]. Qed.

Lemma discover_master_invariant (m : Z) (self : MstpSimulator) :
  next_station_invariant self -> next_station_invariant (discover_master m self).
Proof.
  intros Hself. unfold discover_master.
  case_match; [apply update_next_station_invariant | exact Hself].
Qed.

Lemma handle_frame_invariant (t d s : Z) (data : option (list byte)) :
  preserves next_station_invariant (handle_frame t d s data).
Proof.
  unfold handle_frame.
  apply preserves_bind; [intros s0; apply discover_master_invariant|intros _].
  apply preserves_bind; [|intros _].
  { repeat case_match;
      solve [ intros s0; apply discover_master_invariant
            | apply keeps_ring_preserves; auto with station ]. }
  apply keeps_ring_preserves.
  keeps_ring_steps;
    solve [ apply handle_use_token_keeps_ring | apply send_frame_keeps_ring ].
Qed.

Lemma perform_invariant (op : operation) (self : MstpSimulator) :
  next_station_invariant self -> next_station_invariant (perform op self).
Proof.
  destruct op; simpl.
  - apply discover_master_invariant.
  - intros _. apply update_next_station_invariant.
  - apply keeps_ring_preserves, send_frame_keeps_ring.
  - apply keeps_ring_preserves, handle_use_token_keeps_ring.
  - apply handle_frame_invariant.
Qed.

Lemma invariant_None_iff_empty (self : MstpSimulator) :
  next_station_invariant self ->
  (next_station self = None <-> known_masters self = ∅).
Proof.
  unfold next_station_invariant. destruct (next_station self) as [n|].
  - intros [[[Hn _] _] | [_ [Hn _]]]; split; try discriminate;
      intros Hempty; rewrite Hempty in Hn; set_solver.
  - intros ->. split; reflexivity.
Qed.

(** C3: after every sequence of operations on a freshly made station
    (frames handled, masters recorded, tokens used, frames sent),
    [next_station] is the smallest address in [known_masters] strictly
    greater than the own address or, if there is none, the smallest address
    in [known_masters]; and it is [None] if and only if [known_masters] is
    empty. *)
Theorem next_station_invariant_always
    (mac_address max_master : Z) (ops : list operation) :
  let self := fold_left (fun s op => perform op s) ops (init mac_address max_master) in
  next_station_invariant self /\
  (next_station self = None <-> known_masters self = ∅).
Proof.
  cbv zeta.
  assert (next_station_invariant
            (fold_left (fun s op => perform op s) ops (init mac_address max_master)))
    as Hinv.
  { assert (next_station_invariant (init mac_address max_master)) as Hinit
      by reflexivity.
    revert Hinit. generalize (init mac_address max_master).
    induction ops as [|op ops IH]; intros s Hs; simpl; [exact Hs|].
    apply IH. now apply perform_invariant. }
  split; [exact Hinv | now apply invariant_None_iff_empty].
Qed.

(** The same for the frames handled by the loop of [run]. *)
Lemma handle_frames_invariant (fs : list frame) (self : MstpSimulator) :
  next_station_invariant self -> next_station_invariant (handle_frames fs self).
Proof.
  unfold handle_frames. revert self.
  induction fs as [|[[[t d] s] data] fs IH]; intros self Hself; simpl; [exact Hself|].
  apply IH. now apply handle_frame_invariant.
Qed.

(** *** Master discovery *)

Lemma update_next_station_same (self : MstpSimulator) :
  mac (_update_next_station self) = mac self /\
  max_master (_update_next_station self) = max_master self /\
  known_masters (_update_next_station self) = known_masters self /\
  state (_update_next_station self) = state self /\
  effects (_update_next_station self) = effects self /\
  frames_sent (_update_next_station self) = frames_sent self.
Proof. unfold _update_next_station. repeat case_match; repeat split. Qed.

Lemma discover_master_same (m : Z) (self : MstpSimulator) :
  mac (discover_master m self) = mac self /\
  max_master (discover_master m self) = max_master self /\
  state (discover_master m self) = state self /\
  effects (discover_master m self) = effects self /\
  frames_sent (discover_master m self) = frames_sent self.
Proof.
  unfold discover_master. case_match; [|repeat split].
  destruct (update_next_station_same
              (set_known_masters ({[m]} ∪ known_masters self) self))
    as (-> & -> & _ & -> & -> & ->).
  repeat split.
Qed.

(** An address that is not the own one, is within [max_master] and is not
    yet known is added, and [next_station] recomputed. *)
Lemma discover_master_new (m : Z) (self : MstpSimulator) :
  m <> mac self -> m <= max_master self -> m ∉ known_masters self ->
  discover_master m self
  = _update_next_station (set_known_masters ({[m]} ∪ known_masters self) self).
Proof.
  intros Hmac Hmax Hnew. unfold discover_master.
  rewrite (proj2 (Z.eqb_neq _ _) Hmac), (proj2 (Z.leb_le _ _) Hmax).
  rewrite bool_decide_eq_false_2 by assumption. reflexivity.
Qed.


Lemma discovered_mac (t d src : Z) (self : MstpSimulator) :
  mac (discovered t d src self) = mac self.
Proof.
  unfold discovered.
  repeat case_match; repeat rewrite (proj1 (discover_master_same _ _)); reflexivity.
Qed.

(** A frame for another station only goes through the discovery step. *)
Lemma handle_frame_not_for_us (t d src : Z) (data : option (list byte))
    (self : MstpSimulator) :
  d <> mac self -> d <> 255 ->
  handle_frame t d src data self = (Done tt, discovered t d src self).
Proof.
  intros Hmac Hbroadcast.
  pose proof (discovered_mac t d src self) as Hsame.
  unfold handle_frame, discovered in *. unfold mbind, M_bind, assign, attr, mret, M_ret.
  destruct (t =? FRAME_TOKEN); [|destruct (t =? FRAME_REPLY_TO_POLL)];
    rewrite Hsame, (proj2 (Z.eqb_neq _ _) Hmac), (proj2 (Z.eqb_neq _ _) Hbroadcast);
    reflexivity.
Qed.

(** C8: a Token frame with destination 5 and source 2, handled by a station
    with own address 3 that knows no master (and admits addresses up to 5 at
    least: [max_master] is 127 unless set otherwise), leaves
    [known_masters = {2, 5}] and [next_station = 5]. *)
Theorem token_5_from_2_at_station_3 (self : MstpSimulator) (data : option (list byte)) :
  mac self = 3 -> known_masters self = ∅ -> 5 <= max_master self ->
  let self' := snd (handle_frame FRAME_TOKEN 5 2 data self) in
  known_masters self' = {[2; 5]} /\ next_station self' = Some 5.
Proof.
  intros Hmac Hknown Hmax. cbv zeta.
  rewrite handle_frame_not_for_us by lia.
  unfold discovered. change (FRAME_TOKEN =? FRAME_TOKEN) with true. cbv iota.
  assert (2 ∉ known_masters self) as Hnew2
    by (rewrite Hknown; apply not_elem_of_empty).
  rewrite (discover_master_new 2) by (assumption || lia).
  destruct (update_next_station_same
              (set_known_masters ({[2]} ∪ known_masters self) self))
    as (Hmac1 & Hmax1 & Hknown1 & _).
  assert (5 ∉ ({[2]} ∪ known_masters self : gset Z)) as Hnew5.
  { rewrite Hknown.
    intros [H5%elem_of_singleton | H5%elem_of_empty]%elem_of_union;
      [discriminate | exact H5]. }
  rewrite (discover_master_new 5);
    [| rewrite Hmac1; simpl; lia | rewrite Hmax1; simpl; lia
     | rewrite Hknown1; exact Hnew5].
  rewrite Hknown1. simpl snd.
  destruct self as [m mm st tc fc km ns tr pr dr fs ef]. simpl in *. subst m km.
  split; vm_compute; reflexivity.
Qed.

(** The station of the specification's example: address 3, fresh. *)
Lemma token_5_from_2_at_station_3_witness :
  let self' := snd (handle_frame FRAME_TOKEN 5 2 None (init 3 127)) in
  known_masters self' = {[2; 5]} /\ next_station self' = Some 5.
Proof.
  apply (token_5_from_2_at_station_3 (init 3 127) None);
    [reflexivity | reflexivity | vm_compute; discriminate].
Defined.

(** ** The framer *)

(** *** [parse_frame] past the preamble search *)

Lemma parse_frame_unfold (rx_buffer : list byte) :
  parse_frame rx_buffer =
  if Z.of_nat (length rx_buffer) <? 8 then ParseStep None None rx_buffer else
  match find_preamble rx_buffer 0 with
  | None => ParseStep None None (drop (length rx_buffer - 1) rx_buffer)
  | Some preamble_pos => decode_header (drop preamble_pos rx_buffer)
  end.
Proof.
  unfold parse_frame.
  destruct (Z.ltb_spec (Z.of_nat (length rx_buffer)) 8) as [Hshort|Hlong]; [reflexivity|].
  destruct (find_preamble rx_buffer 0) as [[|p]|].
  - reflexivity.
  - reflexivity.
  - destruct (Z.ltb_spec 1 (Z.of_nat (length rx_buffer))); [reflexivity|lia].
Qed.

Lemma length_field_nonneg (b5 b6 : byte) : 0 <= length_field b5 b6.
Proof.
  unfold length_field. pose proof (byte_val_range b5). pose proof (byte_val_range b6).
  apply Z.lor_nonneg. split; [apply Z.shiftl_nonneg|]; lia.
Qed.

(** The four ways [decode_header] ends on a buffer with a full header. *)
Lemma decode_header_eq (p0 p1 b2 b3 b4 b5 b6 b7 : byte) (rest : list byte) :
  let buf := p0 :: p1 :: b2 :: b3 :: b4 :: b5 :: b6 :: b7 :: rest in
  let data_len := length_field b5 b6 in
  let calc_crc := crc8_header [b2; b3; b4; b5; b6] in
  decode_header buf =
  if negb (calc_crc =? byte_val b7) then
    ParseStep None (Some (HeaderCrcError calc_crc (byte_val b7)))
              (b2 :: b3 :: b4 :: b5 :: b6 :: b7 :: rest)
  else if 0 <? data_len then
    if Z.of_nat (length rest) <? data_len + 2 then ParseStep None None buf
    else
      match drop (Z.to_nat data_len) rest with
      | c0 :: c1 :: rest' =>
          if negb (Z.lor (byte_val c0) (Z.shiftl (byte_val c1) 8)
                   =? crc16_data (take (Z.to_nat data_len) rest))
          then ParseStep None (Some DataCrcError)
                         (b2 :: b3 :: b4 :: b5 :: b6 :: b7 :: rest)
          else ParseStep (Some (byte_val b2, byte_val b3, byte_val b4,
                                Some (take (Z.to_nat data_len) rest)))
                         None rest'
      | _ => ParseStep None None buf
      end
  else ParseStep (Some (byte_val b2, byte_val b3, byte_val b4, None)) None rest.
Proof.
  cbv zeta. unfold decode_header.
  change (take 5 (drop 2 (p0 :: p1 :: b2 :: b3 :: b4 :: b5 :: b6 :: b7 :: rest)))
    with [b2; b3; b4; b5; b6].
  change (drop 2 (p0 :: p1 :: b2 :: b3 :: b4 :: b5 :: b6 :: b7 :: rest))
    with (b2 :: b3 :: b4 :: b5 :: b6 :: b7 :: rest).
  change (drop 8 (p0 :: p1 :: b2 :: b3 :: b4 :: b5 :: b6 :: b7 :: rest)) with rest.
  fold (length_field b5 b6).
  pose proof (length_field_nonneg b5 b6) as Hlen.
  generalize dependent (length_field b5 b6). intros data_len Hlen.
  destruct (negb (crc8_header [b2; b3; b4; b5; b6] =? byte_val b7)); [reflexivity|].
  change (length (p0 :: p1 :: b2 :: b3 :: b4 :: b5 :: b6 :: b7 :: rest))
    with (8 + length rest)%nat.
  destruct (Z.ltb_spec 0 data_len) as [Hpos|Hzero].
  - replace (Z.to_nat (8 + data_len + 2)) with (8 + (Z.to_nat data_len + 2))%nat by lia.
    replace (Z.to_nat (8 + data_len)) with (8 + Z.to_nat data_len)%nat by lia.
    change (drop (8 + Z.to_nat data_len)
                 (p0 :: p1 :: b2 :: b3 :: b4 :: b5 :: b6 :: b7 :: rest))
      with (drop (Z.to_nat data_len) rest).
    change (drop (8 + (Z.to_nat data_len + 2))
                 (p0 :: p1 :: b2 :: b3 :: b4 :: b5 :: b6 :: b7 :: rest))
      with (drop (Z.to_nat data_len + 2) rest).
    destruct (Z.ltb_spec (Z.of_nat (8 + length rest)) (8 + data_len + 2));
      destruct (Z.ltb_spec (Z.of_nat (length rest)) (data_len + 2)); try lia;
      [reflexivity|].
    rewrite <- drop_drop.
    destruct (drop (Z.to_nat data_len) rest) as [|c0 [|c1 rest']]; try reflexivity.
  - destruct (Z.ltb_spec (Z.of_nat (8 + length rest)) 8); [lia|]. reflexivity.
Qed.

(** *** The preamble search *)

Lemma find_preamble_cons (b : byte) (buf : list byte) (i : nat) :
  find_preamble (b :: buf) i
  = if at_preamble (b :: buf) then Some i else find_preamble buf (S i).
Proof. destruct buf; reflexivity. Qed.

Lemma at_preamble_length (buf : list byte) :
  at_preamble buf = true -> (2 <= length buf)%nat.
Proof. destruct buf as [|b0 [|b1 buf]]; simpl; try discriminate. lia. Qed.

Lemma at_preamble_55_FF (rest : list byte) : at_preamble (x55 :: xff :: rest) = true.
Proof. reflexivity. Qed.

(** With the preamble at its head and a full header, the buffer goes
    straight to the header. *)
Lemma parse_frame_at_preamble (buf : list byte) :
  at_preamble buf = true -> (8 <= length buf)%nat ->
  parse_frame buf = decode_header buf.
Proof.
  intros Hpre Hlen. rewrite parse_frame_unfold.
  destruct (Z.ltb_spec (Z.of_nat (length buf)) 8); [lia|].
  destruct buf as [|b buf]; [discriminate|].
  rewrite find_preamble_cons, Hpre. reflexivity.
Qed.

(** *** Encoding and decoding of the 16-bit fields *)

Lemma length_field_encode (n : Z) :
  0 <= n < 65536 ->
  exists lh ll : byte,
    byte_of_int (Z.land (Z.shiftr n 8) 0xFF) = Some lh /\
    byte_of_int (Z.land n 0xFF) = Some ll /\
    length_field lh ll = n.
Proof.
  intros Hn.
  destruct (byte_of_int_in_range _ (land_0xFF_range (Z.shiftr n 8))) as (lh & Hlh & Vlh).
  destruct (byte_of_int_in_range _ (land_0xFF_range n)) as (ll & Hll & Vll).
  exists lh, ll. repeat split; try assumption.
  unfold length_field. rewrite Vlh, Vll.
  apply Z.eqb_eq.
  apply (forall_below
           (fun z => Z.lor (Z.shiftl (Z.land (Z.shiftr z 8) 0xFF) 8) (Z.land z 0xFF) =? z)
           65536); [vm_compute; reflexivity | lia].
Qed.

Lemma pack_le_u16_decode (v : Z) :
  0 <= v < 65536 ->
  exists c0 c1 : byte,
    pack_le_u16 v = Some [c0; c1] /\
    Z.lor (byte_val c0) (Z.shiftl (byte_val c1) 8) = v.
Proof.
  intros Hv.
  destruct (byte_of_int_in_range _ (land_0xFF_range v)) as (c0 & Hc0 & V0).
  assert (0 <= Z.shiftr v 8 < 256) as Hhigh.
  { rewrite Z.shiftr_div_pow2 by lia. change (2 ^ 8) with 256.
    split; [apply Z.div_pos; lia | apply Z.div_lt_upper_bound; lia]. }
  destruct (byte_of_int_in_range _ Hhigh) as (c1 & Hc1 & V1).
  exists c0, c1. split.
  - unfold pack_le_u16.
    destruct (Z.leb_spec 0 v); [|lia]. destruct (Z.ltb_spec v 65536); [|lia].
    cbn [andb bytes_of_ints]. rewrite Hc0, Hc1. reflexivity.
  - rewrite V0, V1. apply Z.eqb_eq.
    apply (forall_below
             (fun z => Z.lor (Z.land z 0xFF) (Z.shiftl (Z.shiftr z 8) 8) =? z)
             65536); [vm_compute; reflexivity | lia].
Qed.

(** *** Frames on the wire *)

(** A control frame (length field 0) at the head of the buffer. *)
Lemma parse_frame_no_data (b2 b3 b4 b5 b6 b7 : byte) (rest : list byte) :
  byte_val b7 = crc8_header [b2; b3; b4; b5; b6] ->
  length_field b5 b6 = 0 ->
  parse_frame (x55 :: xff :: b2 :: b3 :: b4 :: b5 :: b6 :: b7 :: rest)
  = ParseStep (Some (byte_val b2, byte_val b3, byte_val b4, None)) None rest.
Proof.
  intros Hcrc Hlen.
  rewrite parse_frame_at_preamble by (reflexivity || (simpl; lia)).
  pose proof (decode_header_eq x55 xff b2 b3 b4 b5 b6 b7 rest) as Heq.
  cbv zeta in Heq. rewrite Heq, <- Hcrc, Z.eqb_refl, Hlen. reflexivity.
Qed.

(** A data frame at the head of the buffer, header CRC valid: the data CRC
    decides between a decoded frame and a data CRC error. *)
Lemma parse_frame_data (b2 b3 b4 b5 b6 b7 : byte) (data : list byte)
    (c0 c1 : byte) (rest : list byte) :
  byte_val b7 = crc8_header [b2; b3; b4; b5; b6] ->
  length_field b5 b6 = Z.of_nat (length data) ->
  data <> [] ->
  parse_frame (x55 :: xff :: b2 :: b3 :: b4 :: b5 :: b6 :: b7 :: data ++ c0 :: c1 :: rest)
  = if negb (Z.lor (byte_val c0) (Z.shiftl (byte_val c1) 8) =? crc16_data data)
    then ParseStep None (Some DataCrcError)
                   (b2 :: b3 :: b4 :: b5 :: b6 :: b7 :: data ++ c0 :: c1 :: rest)
    else ParseStep (Some (byte_val b2, byte_val b3, byte_val b4, Some data)) None rest.
Proof.
  intros Hcrc Hlen Hdata.
  rewrite parse_frame_at_preamble by (reflexivity || (simpl; lia)).
  pose proof (decode_header_eq x55 xff b2 b3 b4 b5 b6 b7 (data ++ c0 :: c1 :: rest))
    as Heq.
  cbv zeta in Heq. rewrite Heq, <- Hcrc, Z.eqb_refl, Hlen. clear Heq.
  assert (0 < length data)%nat as Hpos by (destruct data; [congruence | simpl; lia]).
  destruct (Z.ltb_spec 0 (Z.of_nat (length data))); [|lia].
  rewrite length_app. cbn [length negb].
  destruct (Z.ltb_spec (Z.of_nat (length data + S (S (length rest))))
                       (Z.of_nat (length data) + 2)); [lia|].
  rewrite Nat2Z.id, drop_app_length, take_app_length. reflexivity.
Qed.

(** With nothing waiting and an empty buffer the loop decodes nothing. *)
Lemma run_rx_idle_empty (n : nat) : run_rx (repeat [] n) [] = ([], []).
Proof. induction n as [|n IH]; simpl; [reflexivity|]. now rewrite IH. Qed.

(** [build_frame] succeeds on bytes and a payload that fits the length
    field, and [parse_frame] decodes its result. *)
Lemma build_frame_parse_frame (t d s : byte) (data : option (list byte)) :
  payload_length data <= 65535 ->
  exists wire,
    build_frame (byte_val t) (byte_val d) (byte_val s) data = Some wire /\
    wire <> [] /\
    parse_frame wire
    = ParseStep (Some (byte_val t, byte_val d, byte_val s, decoded_payload data))
                None [].
Proof.
  intros Hlen.
  destruct data as [[|a data]|].
  - destruct (build_frame_no_data t d s (Some [])) as (c & Hc & Hbuild); [auto|].
    eexists. split; [exact Hbuild|]. split; [discriminate|].
    now apply parse_frame_no_data.
  - unfold payload_length in Hlen.
    assert (a :: data <> []) as Hne by discriminate.
    change (decoded_payload (Some (a :: data))) with (Some (a :: data)).
    generalize dependent (a :: data). intros payload Hlen Hne.
    destruct (length_field_encode (Z.of_nat (length payload)))
      as (lh & ll & Hlh & Hll & Hfield); [lia|].
    destruct (bytes_of_ints_one _ (sim_crc8_header_range [t; d; s; lh; ll]))
      as (hc & Hhc & Vhc).
    destruct (pack_le_u16_decode _ (sim_crc16_data_range payload))
      as (c0 & c1 & Hpack & Vpack).
    exists (x55 :: xff :: t :: d :: s :: lh :: ll :: hc :: payload ++ [c0; c1]).
    split; [|split; [discriminate|]].
    + unfold build_frame. destruct payload as [|a' payload']; [congruence|].
      cbv zeta.
      cbn [bytes_of_ints]. rewrite !byte_of_int_val, Hlh, Hll, bind_Some.
      fold (bytes_of_ints [crc8_header [t; d; s; lh; ll]]).
      rewrite Hhc, bind_Some, Hpack, bind_Some. reflexivity.
    + rewrite parse_frame_data by auto.
      rewrite Vpack, Z.eqb_refl. reflexivity.
  - destruct (build_frame_no_data t d s None) as (c & Hc & Hbuild); [auto|].
    eexists. split; [exact Hbuild|]. split; [discriminate|].
    now apply parse_frame_no_data.
Qed.

(** C5, as the claim has it: an empty payload does not come back.  The frame
    built for [(0, 1, 2, b"")] is decoded as [(0, 1, 2, None)]. *)
Lemma roundtrip_empty_payload_comes_back_absent :
  build_frame 0 1 2 (Some []) = Some [x55; xff; x00; x01; x02; x00; x00; x40] /\
  returned (parse_frame [x55; xff; x00; x01; x02; x00; x00; x40])
  = Some (0, 1, 2, None) /\
  returned (parse_frame [x55; xff; x00; x01; x02; x00; x00; x40])
  <> Some (0, 1, 2, Some []).
Proof.
  split; [vm_compute; reflexivity|].
  split; [vm_compute; reflexivity | vm_compute; discriminate].
Qed.

(** C5, amended: for every frame type, destination and source (bytes) and
    every payload that is absent, empty or non-empty of length at most
    65535, [build_frame] succeeds and feeding its bytes to the framer yields
    exactly one decoded frame and no CRC error report: a first
    [parse_frame] returns [(type, dest, src, payload')], logs nothing and
    leaves the buffer empty, and the receive loop decodes this frame and
    nothing more however long it goes on.  [payload'] is the original
    payload if that is absent or non-empty, and [None] if it is the empty
    byte sequence. *)
Theorem build_frame_roundtrip (t d s : byte) (data : option (list byte)) (n : nat) :
  payload_length data <= 65535 ->
  exists wire,
    build_frame (byte_val t) (byte_val d) (byte_val s) data = Some wire /\
    parse_frame wire
    = ParseStep (Some (byte_val t, byte_val d, byte_val s, decoded_payload data))
                None [] /\
    run_rx (wire :: repeat [] n) []
    = ([(byte_val t, byte_val d, byte_val s, decoded_payload data)], []) /\
    (data <> Some [] -> decoded_payload data = data).
Proof.
  intros Hlen.
  destruct (build_frame_parse_frame t d s data Hlen) as (wire & Hbuild & Hne & Hparse).
  exists wire. repeat split; try assumption.
  - cbn [run_rx]. unfold process_rx.
    destruct (Z.ltb_spec 0 (Z.of_nat (length wire))) as [_|Hempty];
      [|destruct wire; [congruence | simpl in Hempty; lia]].
    cbn [snd app]. rewrite Hparse. cbn [rx_after returned].
    rewrite run_rx_idle_empty. reflexivity.
  - intros Hdata. destruct data as [[|a data]|]; [congruence | reflexivity | reflexivity].
Qed.

Lemma build_frame_roundtrip_witness :
  payload_length (Some [x01; x02]) <= 65535 /\
  exists wire,
    build_frame (byte_val x05) (byte_val x06) (byte_val x03) (Some [x01; x02])
    = Some wire /\
    parse_frame wire
    = ParseStep (Some (byte_val x05, byte_val x06, byte_val x03,
                       decoded_payload (Some [x01; x02]))) None [] /\
    run_rx (wire :: repeat [] 3) []
    = ([(byte_val x05, byte_val x06, byte_val x03,
         decoded_payload (Some [x01; x02]))], []) /\
    (Some [x01; x02] <> Some [] -> decoded_payload (Some [x01; x02]) = Some [x01; x02]).
Proof.
  assert (payload_length (Some [x01; x02]) <= 65535) as Hlen
    by (vm_compute; discriminate).
  split; [exact Hlen|].
  exact (build_frame_roundtrip x05 x06 x03 (Some [x01; x02]) 3 Hlen).
Defined.

(** ** The sniffer *)

Lemma sniffer_process_bytes_app (self : Sniffer.MstpSniffer) (l1 l2 : list byte) :
  Sniffer.process_bytes self (l1 ++ l2)
  = (fst (Sniffer.process_bytes self l1)
       ++ fst (Sniffer.process_bytes (snd (Sniffer.process_bytes self l1)) l2),
     snd (Sniffer.process_bytes (snd (Sniffer.process_bytes self l1)) l2)).
Proof.
  revert self. induction l1 as [|b l1 IH]; intros self.
  - cbn [app Sniffer.process_bytes fst snd].
    now destruct (Sniffer.process_bytes self l2).
  - cbn [app Sniffer.process_bytes].
    destruct (Sniffer.process_byte self b) as [r self1]. rewrite IH.
    destruct (Sniffer.process_bytes self1 l1) as [rs self2].
    cbn [fst snd].
    destruct (Sniffer.process_bytes self2 l2) as [rs' self3].
    cbn [fst snd]. now destruct r.
Qed.

Lemma sniffer_process_bytes_chain (self self1 self2 : Sniffer.MstpSniffer)
    (l1 l2 : list byte) (r1 r2 : list Sniffer.result) :
  Sniffer.process_bytes self l1 = (r1, self1) ->
  Sniffer.process_bytes self1 l2 = (r2, self2) ->
  Sniffer.process_bytes self (l1 ++ l2) = (r1 ++ r2, self2).
Proof.
  intros H1 H2. rewrite sniffer_process_bytes_app, H1. cbn [fst snd].
  now rewrite H2.
Qed.

(** From a fresh sniffer, the preamble and the first five header bytes are
    collected in [buffer], the state is [HEADER], nothing is emitted. *)
Lemma sniffer_header_bytes (v : bool) (t d s lh ll : byte) :
  Sniffer.process_bytes (Sniffer.init v) [x55; xff; t; d; s; lh; ll]
  = ([], Sniffer.mkSniffer v [x55; xff; t; d; s; lh; ll] 0 Sniffer.HEADER
                           0 0 0 0 0 [] 0 []).
Proof. reflexivity. Qed.

(** The byte that completes the header: a header CRC mismatch clears the
    buffer (printed in verbose mode only); otherwise the payload is awaited
    or, with length 0, the frame is complete. *)
Lemma sniffer_header_crc_byte (v : bool) (t d s lh ll hc : byte) :
  Sniffer.process_byte
    (Sniffer.mkSniffer v [x55; xff; t; d; s; lh; ll] 0 Sniffer.HEADER
                       0 0 0 0 0 [] 0 []) hc
  = if negb (Sniffer.crc8 [t; d; s; lh; ll] =? byte_val hc) then
      (None,
       Sniffer.mkSniffer v [] 0 Sniffer.IDLE (byte_val t) (byte_val d) (byte_val s)
         (length_field lh ll) (byte_val hc) [] 0
         (if v
          then [Sniffer.HeaderCrcMismatch (Sniffer.crc8 [t; d; s; lh; ll]) (byte_val hc)]
          else []))
    else if 0 <? length_field lh ll then
      (None,
       Sniffer.mkSniffer v [x55; xff; t; d; s; lh; ll; hc] 0 Sniffer.DATA
         (byte_val t) (byte_val d) (byte_val s) (length_field lh ll) (byte_val hc)
         [] 0 [])
    else
      (Some (Sniffer.format_frame 1 (byte_val t) (byte_val d) (byte_val s)
                                  (length_field lh ll) [], None),
       Sniffer.mkSniffer v [] 1 Sniffer.IDLE (byte_val t) (byte_val d) (byte_val s)
         (length_field lh ll) (byte_val hc) [] 0 []).
Proof.
  unfold Sniffer.process_byte.
  cbn [Sniffer.state Sniffer.buffer Sniffer.set_buffer Sniffer.set_header
       Sniffer.header_crc Sniffer.data_len app take drop].
  fold (length_field lh ll).
  destruct (negb (Sniffer.crc8 [t; d; s; lh; ll] =? byte_val hc)).
  - destruct v; reflexivity.
  - destruct (0 <? length_field lh ll); reflexivity.
Qed.

(** From a fresh sniffer, a header with a valid CRC and a length above 0
    leads to the [DATA] state, and nothing is emitted. *)
Lemma sniffer_header (v : bool) (t d s lh ll hc : byte) :
  Sniffer.crc8 [t; d; s; lh; ll] = byte_val hc ->
  0 < length_field lh ll ->
  Sniffer.process_bytes (Sniffer.init v) [x55; xff; t; d; s; lh; ll; hc]
  = ([], Sniffer.mkSniffer v [x55; xff; t; d; s; lh; ll; hc] 0 Sniffer.DATA
         (byte_val t) (byte_val d) (byte_val s) (length_field lh ll) (byte_val hc)
         [] 0 []).
Proof.
  intros Hcrc Hlen.
  change [x55; xff; t; d; s; lh; ll; hc] with ([x55; xff; t; d; s; lh; ll] ++ [hc]).
  rewrite sniffer_process_bytes_app, sniffer_header_bytes.
  cbn [fst snd app Sniffer.process_bytes].
  rewrite sniffer_header_crc_byte.
  rewrite Hcrc. rewrite Z.eqb_refl. rewrite (proj2 (Z.ltb_lt _ _) Hlen).
  reflexivity.
Qed.

(** In the [DATA] state the bytes that do not complete the frame are
    stored. *)
Lemma sniffer_data_bytes (v : bool) (buf : list byte) (fc t d s len hc : Z)
    (acc : list byte) (dc : Z) (pr : list Sniffer.crc_message) (more : list byte) :
  Z.of_nat (length acc + length more) < len + 2 ->
  Sniffer.process_bytes
    (Sniffer.mkSniffer v buf fc Sniffer.DATA t d s len hc acc dc pr) more
  = ([], Sniffer.mkSniffer v (buf ++ more) fc Sniffer.DATA t d s len hc
                           (acc ++ more) dc pr).
Proof.
  revert buf acc. induction more as [|b more IH]; intros buf acc Hlen.
  - now rewrite !app_nil_r.
  - cbn [Sniffer.process_bytes]. unfold Sniffer.process_byte. simpl.
    rewrite length_app. cbn [length] in *.
    destruct (Z.eqb_spec (Z.of_nat (length acc + 1)) (len + 2)); [lia|].
    unfold Sniffer.set_data, Sniffer.set_buffer. simpl.
    rewrite IH by (rewrite length_app; cbn [length]; lia).
    now rewrite <- !app_assoc.
Qed.

(** The byte that completes a data frame. *)
Lemma sniffer_data_last (v : bool) (buf : list byte) (fc t d s hc : Z)
    (payload : list byte) (c0 c1 : byte) (dc : Z) (pr : list Sniffer.crc_message) :
  payload <> [] ->
  Sniffer.process_byte
    (Sniffer.mkSniffer v buf fc Sniffer.DATA t d s (Z.of_nat (length payload)) hc
                       (payload ++ [c0]) dc pr) c1
  = (Some (Sniffer.format_frame (fc + 1) t d s (Z.of_nat (length payload)) payload,
           Some payload),
     Sniffer.mkSniffer v [] (fc + 1) Sniffer.IDLE t d s (Z.of_nat (length payload)) hc
       [] (Z.lor (Z.shiftl (byte_val c1) 8) (byte_val c0))
       (if negb (Sniffer.crc16 payload
                 =? Z.lor (Z.shiftl (byte_val c1) 8) (byte_val c0)) && v
        then pr ++ [Sniffer.DataCrcMismatch] else pr)).
Proof.
  intros Hne. unfold Sniffer.process_byte. simpl.
  rewrite !length_app. simpl.
  destruct (Z.eqb_spec (Z.of_nat (length payload + 1 + 1)) (Z.of_nat (length payload) + 2));
    [|lia].
  rewrite <- app_assoc. simpl. rewrite rev_app_distr. simpl.
  replace (length payload + 1 + 1 - 2)%nat with (length payload) by lia.
  rewrite take_app_length.
  destruct payload as [|p payload]; [congruence|].
  destruct (negb _); [destruct v|]; reflexivity.
Qed.

(** An idle sniffer, whatever it holds, collects the preamble and the first
    five header bytes in [buffer]; the state is [HEADER], nothing is
    emitted. *)
Lemma sniffer_idle_header_bytes (v : bool) (buf : list byte) (fc ft da sa dl hcr : Z)
    (dat : list byte) (dc : Z) (pr : list Sniffer.crc_message) (t d s lh ll : byte) :
  Sniffer.process_bytes
    (Sniffer.mkSniffer v buf fc Sniffer.IDLE ft da sa dl hcr dat dc pr)
    [x55; xff; t; d; s; lh; ll]
  = ([], Sniffer.mkSniffer v [x55; xff; t; d; s; lh; ll] fc Sniffer.HEADER
                           ft da sa dl hcr dat dc pr).
Proof. reflexivity. Qed.

(** The byte that completes a header, in any sniffer that holds seven bytes
    in the [HEADER] state: a header CRC mismatch clears the buffer (printed
    in verbose mode only); otherwise the payload is awaited or, with length
    0, the frame is complete. *)
Lemma sniffer_header_step (v : bool) (p0 p1 t d s lh ll hc : byte)
    (fc ft da sa dl hcr : Z) (dat : list byte) (dc : Z)
    (pr : list Sniffer.crc_message) :
  Sniffer.process_byte
    (Sniffer.mkSniffer v [p0; p1; t; d; s; lh; ll] fc Sniffer.HEADER
                       ft da sa dl hcr dat dc pr) hc
  = if negb (Sniffer.crc8 [t; d; s; lh; ll] =? byte_val hc) then
      (None,
       Sniffer.mkSniffer v [] fc Sniffer.IDLE (byte_val t) (byte_val d) (byte_val s)
         (length_field lh ll) (byte_val hc) dat dc
         (if v
          then pr ++ [Sniffer.HeaderCrcMismatch (Sniffer.crc8 [t; d; s; lh; ll])
                                                (byte_val hc)]
          else pr))
    else if 0 <? length_field lh ll then
      (None,
       Sniffer.mkSniffer v [p0; p1; t; d; s; lh; ll; hc] fc Sniffer.DATA
         (byte_val t) (byte_val d) (byte_val s) (length_field lh ll) (byte_val hc)
         [] dc pr)
    else
      Sniffer._complete_frame
        (Sniffer.mkSniffer v [p0; p1; t; d; s; lh; ll; hc] fc Sniffer.HEADER
           (byte_val t) (byte_val d) (byte_val s) (length_field lh ll) (byte_val hc)
           dat dc pr).
Proof.
  unfold Sniffer.process_byte.
  cbn [Sniffer.state Sniffer.buffer Sniffer.set_buffer Sniffer.set_header
       Sniffer.header_crc Sniffer.data_len app take drop].
  fold (length_field lh ll).
  destruct (negb (Sniffer.crc8 [t; d; s; lh; ll] =? byte_val hc)).
  - destruct v; reflexivity.
  - destruct (0 <? length_field lh ll); reflexivity.
Qed.


(** From an idle sniffer, a whole data frame with a valid header CRC:
    nothing is emitted before the last byte; at the last byte the frame is
    emitted under the next number, whatever the two CRC bytes are, and a
    mismatch is printed in verbose mode only. *)
Lemma sniffer_idle_data_frame (v : bool) (buf : list byte) (fc ft da sa dl hcr : Z)
    (dat : list byte) (dc : Z) (pr : list Sniffer.crc_message)
    (t d s lh ll hc : byte) (payload : list byte) (c0 c1 : byte) :
  Sniffer.crc8 [t; d; s; lh; ll] = byte_val hc ->
  length_field lh ll = Z.of_nat (length payload) ->
  payload <> [] ->
  Sniffer.process_bytes
    (Sniffer.mkSniffer v buf fc Sniffer.IDLE ft da sa dl hcr dat dc pr)
    ([x55; xff; t; d; s; lh; ll; hc] ++ payload ++ [c0])
  = ([], Sniffer.mkSniffer v ([x55; xff; t; d; s; lh; ll; hc] ++ payload ++ [c0]) fc
           Sniffer.DATA (byte_val t) (byte_val d) (byte_val s)
           (Z.of_nat (length payload)) (byte_val hc) (payload ++ [c0]) dc pr) /\
  Sniffer.process_bytes
    (Sniffer.mkSniffer v buf fc Sniffer.IDLE ft da sa dl hcr dat dc pr)
    (([x55; xff; t; d; s; lh; ll; hc] ++ payload ++ [c0]) ++ [c1])
  = ([(Sniffer.format_frame (fc + 1) (byte_val t) (byte_val d) (byte_val s)
                            (Z.of_nat (length payload)) payload,
       Some payload)],
     Sniffer.mkSniffer v [] (fc + 1) Sniffer.IDLE (byte_val t) (byte_val d) (byte_val s)
       (Z.of_nat (length payload)) (byte_val hc) []
       (Z.lor (Z.shiftl (byte_val c1) 8) (byte_val c0))
       (if negb (Sniffer.crc16 payload
                 =? Z.lor (Z.shiftl (byte_val c1) 8) (byte_val c0)) && v
        then pr ++ [Sniffer.DataCrcMismatch] else pr)).
Proof.
  intros Hcrc Hlen Hne.
  assert (0 < length_field lh ll) as Hpos
    by (destruct payload; [congruence | rewrite Hlen; simpl; lia]).
  assert (Sniffer.process_bytes
            (Sniffer.mkSniffer v buf fc Sniffer.IDLE ft da sa dl hcr dat dc pr)
            ([x55; xff; t; d; s; lh; ll; hc] ++ payload ++ [c0])
          = ([] ++ [],
             Sniffer.mkSniffer v ([x55; xff; t; d; s; lh; ll; hc] ++ payload ++ [c0]) fc
               Sniffer.DATA (byte_val t) (byte_val d) (byte_val s)
               (Z.of_nat (length payload)) (byte_val hc) ([] ++ payload ++ [c0]) dc pr))
    as Hdata.
  { eapply sniffer_process_bytes_chain.
    - change [x55; xff; t; d; s; lh; ll; hc] with ([x55; xff; t; d; s; lh; ll] ++ [hc]).
      eapply (sniffer_process_bytes_chain _ _ _ _ _ [] []);
        [apply sniffer_idle_header_bytes|].
      cbn [Sniffer.process_bytes].
      rewrite sniffer_header_step, Hcrc, Z.eqb_refl, (proj2 (Z.ltb_lt _ _) Hpos), Hlen.
      reflexivity.
    - apply sniffer_data_bytes. rewrite length_app. cbn [length]. lia. }
  cbn [app] in Hdata. split; [exact Hdata|].
  eapply (sniffer_process_bytes_chain _ _ _ _ _ []); [exact Hdata|].
  cbn [Sniffer.process_bytes]. rewrite sniffer_data_last by exact Hne. reflexivity.
Qed.

(** ** CRC errors *)

(** The search finds the first place where the buffer reads [55 FF]. *)
Lemma find_preamble_Some (buf : list byte) (i k : nat) :
  find_preamble buf i = Some k ->
  exists j, k = (i + j)%nat /\ at_preamble (drop j buf) = true /\
            forall j', (j' < j)%nat -> at_preamble (drop j' buf) = false.
Proof.
  revert i. induction buf as [|b buf IH]; intros i; [discriminate|].
  rewrite find_preamble_cons.
  destruct (at_preamble (b :: buf)) eqn:Hhere.
  - intros [= <-]. exists 0%nat. repeat split; [lia | assumption | lia].
  - intros Hfind. destruct (IH _ Hfind) as (j & -> & Hj & Hbefore).
    exists (S j). repeat split; [lia | assumption |].
    intros [|j'] Hlt; [assumption | apply Hbefore; lia].
Qed.

Lemma find_preamble_None (buf : list byte) (i : nat) :
  find_preamble buf i = None -> forall j, at_preamble (drop j buf) = false.
Proof.
  revert i. induction buf as [|b buf IH]; intros i Hfind j.
  - now destruct j.
  - rewrite find_preamble_cons in Hfind.
    destruct (at_preamble (b :: buf)) eqn:Hhere; [discriminate|].
    destruct j; [assumption | now apply (IH (S i))].
Qed.

Lemma at_preamble_inv (buf : list byte) :
  at_preamble buf = true -> exists rest, buf = x55 :: xff :: rest.
Proof.
  destruct buf as [|b0 [|b1 rest]]; try discriminate. simpl.
  intros [H0 H1]%andb_prop. exists rest.
  apply Z.eqb_eq in H0, H1.
  rewrite (byte_val_inj b0 x55 H0), (byte_val_inj b1 xff H1). reflexivity.
Qed.

(** A frame that [parse_frame] returns sits behind a preamble, and its
    header CRC byte is the one recomputed from its header. *)
Lemma parse_frame_returned_header (buf : list byte) (t d s : Z)
    (data : option (list byte)) :
  returned (parse_frame buf) = Some (t, d, s, data) ->
  exists (k : nat) (c2 c3 c4 c5 c6 c7 : byte) (rest : list byte),
    drop k buf = x55 :: xff :: c2 :: c3 :: c4 :: c5 :: c6 :: c7 :: rest /\
    t = byte_val c2 /\ d = byte_val c3 /\ s = byte_val c4 /\
    byte_val c7 = crc8_header [c2; c3; c4; c5; c6].
Proof.
  rewrite parse_frame_unfold.
  destruct (Z.of_nat (length buf) <? 8); [discriminate|].
  destruct (find_preamble buf 0) as [k|] eqn:Hfind; [|discriminate].
  destruct (find_preamble_Some _ _ _ Hfind) as (j & -> & Hat & _).
  simpl. destruct (at_preamble_inv _ Hat) as (rest & Hdrop). rewrite Hdrop.
  destruct rest as [|c2 [|c3 [|c4 [|c5 [|c6 [|c7 rest]]]]]]; try discriminate.
  pose proof (decode_header_eq x55 xff c2 c3 c4 c5 c6 c7 rest) as Heq.
  cbv zeta in Heq. rewrite Heq. clear Heq.
  destruct (Z.eqb_spec (crc8_header [c2; c3; c4; c5; c6]) (byte_val c7)) as [Hcrc|Hcrc];
    [|discriminate].
  intros Hret. exists j, c2, c3, c4, c5, c6, c7, rest.
  split; [exact Hdrop|].
  cbn [negb] in Hret.
  destruct (0 <? length_field c5 c6).
  - destruct (Z.of_nat (length rest) <? length_field c5 c6 + 2); [discriminate|].
    destruct (drop (Z.to_nat (length_field c5 c6)) rest) as [|c0 [|c1 rest']];
      try discriminate.
    destruct (negb _); [discriminate|].
    injection Hret as <- <- <- _. auto.
  - injection Hret as <- <- <- _. auto.
Qed.

(** C1, as the claim has it: a frame with a valid header and a wrong data
    CRC is not emitted by [parse_frame]; the sniffer emits it, and emits
    the very same value as for the right data CRC. *)
Lemma data_crc_error_frame_not_flagged :
  crc8_header [x05; x06; x03; x00; x02] = byte_val x05 /\
  crc16_data [x01; x02] <> Z.lor (byte_val x8d) (Z.shiftl (byte_val x36) 8) /\
  parse_frame [x55; xff; x05; x06; x03; x00; x02; x05; x01; x02; x8d; x36]
  = ParseStep None (Some DataCrcError)
              [x05; x06; x03; x00; x02; x05; x01; x02; x8d; x36] /\
  Sniffer.crc8 [x05; x06; x03; x00; x02] = byte_val xb5 /\
  Sniffer.crc16 [x01; x02] <> Z.lor (Z.shiftl (byte_val x36) 8) (byte_val x8d) /\
  fst (Sniffer.process_bytes (Sniffer.init false)
         [x55; xff; x05; x06; x03; x00; x02; xb5; x01; x02; x8d; x36])
  = fst (Sniffer.process_bytes (Sniffer.init false)
           [x55; xff; x05; x06; x03; x00; x02; xb5; x01; x02; x8d; x35]).
Proof.
  split; [vm_compute; reflexivity|].
  split; [vm_compute; discriminate|].
  split; [vm_compute; reflexivity|].
  split; [vm_compute; reflexivity|].
  split; [vm_compute; discriminate | vm_compute; reflexivity].
Qed.

(** C1, amended: for a received frame whose header validates and whose
    payload fails the data CRC-16 check, [parse_frame] of the simulator
    returns no frame: it logs a data CRC error and discards the two
    preamble bytes only.  The sniffer, for a header valid under its own
    CRC-8, emits the frame: any sniffer that is [IDLE] when the preamble
    starts, whatever it has shown or printed before, emits nothing up to
    the last but one byte of the frame and at the last byte emits the frame
    (next frame number, type, destination, source, length, payload), and is
    [IDLE] again with an empty buffer; and in the [DATA] state, however it
    was reached, the byte that completes payload and CRC emits the frame
    whose header the sniffer holds.  The value emitted is the same whatever
    the two data CRC bytes are, so it carries no validity flag; a mismatch
    leaves one message, printed in verbose mode only. *)
Theorem data_crc_error_handling (t d s lh ll hc hc' : byte)
    (payload : list byte) (c0 c1 : byte) (rest : list byte) :
  byte_val hc = crc8_header [t; d; s; lh; ll] ->
  Sniffer.crc8 [t; d; s; lh; ll] = byte_val hc' ->
  length_field lh ll = Z.of_nat (length payload) ->
  payload <> [] ->
  Z.lor (byte_val c0) (Z.shiftl (byte_val c1) 8) <> crc16_data payload ->
  parse_frame (x55 :: xff :: t :: d :: s :: lh :: ll :: hc :: payload ++ c0 :: c1 :: rest)
  = ParseStep None (Some DataCrcError)
              (t :: d :: s :: lh :: ll :: hc :: payload ++ c0 :: c1 :: rest) /\
  (forall (self : Sniffer.MstpSniffer) (c0' c1' : byte),
     Sniffer.state self = Sniffer.IDLE ->
     let header := [x55; xff; t; d; s; lh; ll; hc'] in
     let after := snd (Sniffer.process_bytes self (header ++ payload ++ [c0'; c1'])) in
     fst (Sniffer.process_bytes self (header ++ payload ++ [c0'])) = [] /\
     fst (Sniffer.process_bytes self (header ++ payload ++ [c0'; c1']))
     = [(Sniffer.format_frame (Sniffer.frame_count self + 1)
                              (byte_val t) (byte_val d) (byte_val s)
                              (Z.of_nat (length payload)) payload,
         Some payload)] /\
     Sniffer.state after = Sniffer.IDLE /\ Sniffer.buffer after = [] /\
     Sniffer.frame_count after = Sniffer.frame_count self + 1 /\
     Sniffer.printed after
     = Sniffer.printed self
       ++ (if Sniffer.verbose self
              && negb (Sniffer.crc16 payload
                       =? Z.lor (Z.shiftl (byte_val c1') 8) (byte_val c0'))
           then [Sniffer.DataCrcMismatch] else [])) /\
  (forall (self : Sniffer.MstpSniffer) (received : list byte) (c0' c1' : byte),
     Sniffer.state self = Sniffer.DATA ->
     Sniffer.data self = received ++ [c0'] ->
     Sniffer.data_len self = Z.of_nat (length received) ->
     received <> [] ->
     let after := snd (Sniffer.process_byte self c1') in
     fst (Sniffer.process_byte self c1')
     = Some (Sniffer.format_frame (Sniffer.frame_count self + 1)
                                  (Sniffer.frame_type self) (Sniffer.dst_addr self)
                                  (Sniffer.src_addr self) (Sniffer.data_len self)
                                  received,
             Some received) /\
     Sniffer.state after = Sniffer.IDLE /\ Sniffer.buffer after = [] /\
     Sniffer.frame_count after = Sniffer.frame_count self + 1 /\
     Sniffer.printed after
     = Sniffer.printed self
       ++ (if Sniffer.verbose self
              && negb (Sniffer.crc16 received
                       =? Z.lor (Z.shiftl (byte_val c1') 8) (byte_val c0'))
           then [Sniffer.DataCrcMismatch] else [])).
Proof.
  intros Hsim Hsniff Hlen Hne Hcrc. split; [|split].
  - rewrite parse_frame_data by assumption.
    rewrite (proj2 (Z.eqb_neq _ _) Hcrc). reflexivity.
  - intros self c0' c1' Hidle. cbv zeta.
    destruct self as [v buf fc st ft da sa dl hcr dat dc pr].
    cbn [Sniffer.state] in Hidle. subst st.
    destruct (sniffer_idle_data_frame v buf fc ft da sa dl hcr dat dc pr
                t d s lh ll hc' payload c0' c1' Hsniff Hlen Hne) as [Hfirst Hlast].
    replace ([x55; xff; t; d; s; lh; ll; hc'] ++ payload ++ [c0'; c1'])
      with (([x55; xff; t; d; s; lh; ll; hc'] ++ payload ++ [c0']) ++ [c1'])
      by (now rewrite <- !app_assoc).
    rewrite Hfirst, Hlast.
    cbn [fst snd Sniffer.state Sniffer.buffer Sniffer.frame_count Sniffer.printed
         Sniffer.verbose].
    repeat (split; [reflexivity|]).
    destruct v; destruct (negb _); cbn [andb]; now rewrite ?app_nil_r.
  - intros self received c0' c1' Hdata Hacc Hlen' Hne'. cbv zeta.
    destruct self as [v buf fc st ft da sa dl hcr dat dc pr].
    cbn [Sniffer.state Sniffer.data Sniffer.data_len] in Hdata, Hacc, Hlen'.
    subst st dat dl.
    rewrite sniffer_data_last by exact Hne'.
    cbn [fst snd Sniffer.state Sniffer.buffer Sniffer.frame_count Sniffer.printed
         Sniffer.verbose Sniffer.frame_type Sniffer.dst_addr Sniffer.src_addr
         Sniffer.data_len].
    repeat (split; [reflexivity|]).
    destruct v; destruct (negb _); cbn [andb]; now rewrite ?app_nil_r.
Qed.

(** A data frame with a wrong data CRC, at a sniffer in verbose mode that
    has shown frames before. *)
Lemma data_crc_error_handling_witness :
  byte_val x05 = crc8_header [x05; x06; x03; x00; x02] /\
  Sniffer.crc8 [x05; x06; x03; x00; x02] = byte_val xb5 /\
  length_field x00 x02 = Z.of_nat (length [x01; x02]) /\
  [x01; x02] <> [] /\
  Z.lor (byte_val x8d) (Z.shiftl (byte_val x36) 8) <> crc16_data [x01; x02] /\
  parse_frame (x55 :: xff :: x05 :: x06 :: x03 :: x00 :: x02 :: x05
                   :: [x01; x02] ++ x8d :: x36 :: [])
  = ParseStep None (Some DataCrcError)
              (x05 :: x06 :: x03 :: x00 :: x02 :: x05 :: [x01; x02] ++ x8d :: x36 :: []) /\
  fst (Sniffer.process_bytes
         (Sniffer.mkSniffer true [] 7 Sniffer.IDLE 0 6 3 0 0x62 [] 0 [])
         ([x55; xff; x05; x06; x03; x00; x02; xb5] ++ [x01; x02] ++ [x8d; x36]))
  = [(Sniffer.format_frame 8 5 6 3 2 [x01; x02], Some [x01; x02])].
Proof.
  assert (byte_val x05 = crc8_header [x05; x06; x03; x00; x02]) as Hsim
    by (vm_compute; reflexivity).
  assert (Sniffer.crc8 [x05; x06; x03; x00; x02] = byte_val xb5) as Hsniff
    by (vm_compute; reflexivity).
  assert (length_field x00 x02 = Z.of_nat (length [x01; x02])) as Hlen
    by (vm_compute; reflexivity).
  assert ([x01; x02] <> ([] : list byte)) as Hne by discriminate.
  assert (Z.lor (byte_val x8d) (Z.shiftl (byte_val x36) 8) <> crc16_data [x01; x02])
    as Hcrc by (vm_compute; discriminate).
  repeat (split; [assumption|]).
  destruct (data_crc_error_handling x05 x06 x03 x00 x02 x05 xb5
              [x01; x02] x8d x36 [] Hsim Hsniff Hlen Hne Hcrc)
    as (Hparse & Hsniffer & _).
  split; [exact Hparse|].
  exact (proj1 (proj2 (Hsniffer (Sniffer.mkSniffer true [] 7 Sniffer.IDLE 0 6 3 0 0x62 [] 0 [])
                                x8d x36 eq_refl))).
Defined.

(** ** Using the token *)

Lemma run_bind {A B : Type} (m : M A) (k : A -> M B) (s : MstpSimulator) :
  (m ≫= k) s
  = match m s with
    | (Done a, s') => k a s'
    | (Raised e, s') => (Raised e, s')
    end.
Proof. reflexivity. Qed.

Lemma run_assign (f : MstpSimulator -> MstpSimulator) (s : MstpSimulator) :
  assign f s = (Done tt, f s).
Proof. reflexivity. Qed.

Lemma run_attr {A : Type} (f : MstpSimulator -> A) (s : MstpSimulator) :
  attr f s = (Done (f s), s).
Proof. reflexivity. Qed.

Lemma run_ret {A : Type} (a : A) (s : MstpSimulator) :
  (mret a : M A) s = (Done a, s).
Proof. reflexivity. Qed.

(** Runs the reads and assignments at the head of a computation. *)
Ltac run_steps :=
  repeat first
    [ rewrite run_bind | rewrite run_assign | rewrite run_attr | rewrite run_ret
    | progress cbv beta iota ].

Lemma send_frame_built (t dest : Z) (data : option (list byte)) (frame : list byte)
    (s : MstpSimulator) :
  build_frame t dest (mac s) data = Some frame ->
  send_frame t dest data s = (Done tt, sent frame s).
Proof.
  intros Hbuild. unfold send_frame. run_steps.
  rewrite Hbuild. cbn [or_raise]. run_steps. reflexivity.
Qed.

(** A control frame to [dest] can be built from addresses that are bytes,
    and it is decoded as such. *)
Lemma control_frame (t dest src : Z) :
  0 <= t < 256 -> 0 <= dest < 256 -> 0 <= src < 256 ->
  exists frame,
    build_frame t dest src None = Some frame /\
    parse_frame frame = ParseStep (Some (t, dest, src, None)) None [].
Proof.
  intros Ht Hd Hs.
  destruct (byte_of_int_in_range t Ht) as (bt & _ & <-).
  destruct (byte_of_int_in_range dest Hd) as (bd & _ & <-).
  destruct (byte_of_int_in_range src Hs) as (bs & _ & <-).
  destruct (build_frame_parse_frame bt bd bs None) as (frame & Hbuild & _ & Hparse);
    [simpl; lia|].
  exists frame. auto.
Qed.

Lemma handle_use_token_known (s : MstpSimulator) (n : Z) (frame : list byte) :
  next_station s = Some n ->
  build_frame FRAME_TOKEN n (mac s) None = Some frame ->
  handle_use_token s = (Done tt, set_state IDLE (sent frame (counted s))).
Proof.
  intros Hnext Hbuild. unfold handle_use_token. run_steps.
  change (next_station (set_frame_count 0 (set_token_count (token_count s + 1) s)))
    with (next_station s).
  rewrite Hnext.
  rewrite (send_frame_built FRAME_TOKEN n None frame) by exact Hbuild.
  run_steps. reflexivity.
Qed.

Lemma handle_use_token_unknown (s : MstpSimulator) (frame : list byte) :
  next_station s = None ->
  max_master s + 1 <> 0 ->
  build_frame FRAME_POLL_FOR_MASTER ((mac s + 1) `mod` (max_master s + 1)) (mac s) None
  = Some frame ->
  handle_use_token s
  = (Done tt, set_state IDLE (emit (Sleep T_USAGE_TIMEOUT) (sent frame (counted s)))).
Proof.
  intros Hnext Hmax Hbuild. unfold handle_use_token. run_steps.
  change (next_station (set_frame_count 0 (set_token_count (token_count s + 1) s)))
    with (next_station s).
  rewrite Hnext. run_steps.
  change (max_master (set_frame_count 0 (set_token_count (token_count s + 1) s)))
    with (max_master s).
  change (mac (set_frame_count 0 (set_token_count (token_count s + 1) s)))
    with (mac s).
  rewrite (proj2 (Z.eqb_neq _ _) Hmax). run_steps.
  rewrite (send_frame_built FRAME_POLL_FOR_MASTER _ None frame) by exact Hbuild.
  run_steps. reflexivity.
Qed.



Lemma invariant_next_known (s : MstpSimulator) (n : Z) :
  next_station_invariant s -> next_station s = Some n -> n ∈ known_masters s.
Proof.
  unfold next_station_invariant. intros Hinv Hnext. rewrite Hnext in Hinv.
  destruct Hinv as [[[Hn _] _] | [_ [Hn _]]]; exact Hn.
Qed.

(** Recording a byte address keeps the addresses bytes. *)
Lemma discover_master_in_range (m : Z) (self : MstpSimulator) :
  0 <= m < 256 -> addresses_in_range self ->
  addresses_in_range (discover_master m self).
Proof.
  intros Hm (Hmac & Hmax & Hknown & Hnext).
  unfold discover_master.
  case_match; [|exact (conj Hmac (conj Hmax (conj Hknown Hnext)))].
  pose proof (update_next_station_invariant
                (set_known_masters ({[m]} ∪ known_masters self) self)) as Hinv.
  destruct (update_next_station_same
              (set_known_masters ({[m]} ∪ known_masters self) self))
    as (Emac & Emax & Eknown & _).
  assert (forall x, x ∈ ({[m]} ∪ known_masters self : gset Z) -> 0 <= x < 256) as Hall.
  { intros x [->%elem_of_singleton | Hx]%elem_of_union; auto. }
  unfold addresses_in_range. rewrite Emac, Emax, Eknown.
  split; [exact Hmac|]. split; [exact Hmax|]. split; [exact Hall|].
  intros n Hn. apply Hall.
  pose proof (invariant_next_known _ _ Hinv Hn) as Hin.
  rewrite Eknown in Hin. exact Hin.
Qed.



(** ** Chunking *)

Lemma run_rx_cons (chunk : list byte) (reads : list (list byte)) (rx : list byte) :
  run_rx (chunk :: reads) rx
  = (with_returned (returned (parse_frame (rx ++ chunk)))
                   (fst (run_rx reads (rx_after (parse_frame (rx ++ chunk))))),
     snd (run_rx reads (rx_after (parse_frame (rx ++ chunk))))).
Proof.
  cbn [run_rx]. unfold process_rx.
  assert ((if 0 <? Z.of_nat (length chunk) then (true, rx ++ chunk) else (false, rx)).2
          = rx ++ chunk) as ->.
  { destruct chunk; [now rewrite app_nil_r | reflexivity]. }
  destruct (run_rx reads (rx_after (parse_frame (rx ++ chunk)))) as [frames rx'].
  now destruct (returned (parse_frame (rx ++ chunk))).
Qed.

Lemma run_rx_idle (n : nat) (rx : list byte) :
  run_rx (repeat [] (S n)) rx
  = (with_returned (returned (parse_frame rx))
                   (fst (run_rx (repeat [] n) (rx_after (parse_frame rx)))),
     snd (run_rx (repeat [] n) (rx_after (parse_frame rx)))).
Proof. cbn [repeat]. now rewrite run_rx_cons, app_nil_r. Qed.

(** *** Every call waits or consumes *)

Lemma decode_header_short (buf : list byte) :
  (length buf < 8)%nat -> decode_header buf = ParseStep None None buf.
Proof.
  intros Hlen.
  destruct buf as [|? [|? [|? [|? [|? [|? [|? [|? ?]]]]]]]]; try reflexivity.
  simpl in Hlen. lia.
Qed.

(** [decode_header] either waits (nothing returned, buffer untouched) or
    takes bytes off the buffer. *)
Lemma decode_header_waits_or_consumes (buf : list byte) :
  (returned (decode_header buf) = None /\ rx_after (decode_header buf) = buf) \/
  (length (rx_after (decode_header buf)) < length buf)%nat.
Proof.
  destruct (Nat.lt_ge_cases (length buf) 8) as [Hshort|Hlong].
  { left. now rewrite decode_header_short. }
  destruct buf as [|p0 [|p1 [|b2 [|b3 [|b4 [|b5 [|b6 [|b7 rest]]]]]]]];
    try (simpl in Hlong; lia).
  pose proof (decode_header_eq p0 p1 b2 b3 b4 b5 b6 b7 rest) as Heq.
  cbv zeta in Heq. rewrite Heq. clear Heq.
  destruct (negb (crc8_header [b2; b3; b4; b5; b6] =? byte_val b7)).
  { right. simpl. lia. }
  pose proof (length_field_nonneg b5 b6) as Hfield.
  generalize dependent (length_field b5 b6). intros len Hfield.
  destruct (0 <? len).
  - destruct (Z.of_nat (length rest) <? len + 2); [left; split; reflexivity|].
    pose proof (length_drop rest (Z.to_nat len)) as Hdrop.
    destruct (drop (Z.to_nat len) rest) as [|c0 [|c1 rest']];
      [left; split; reflexivity | left; split; reflexivity |].
    destruct (negb _); right; simpl in *; lia.
  - right. simpl. lia.
Qed.

Lemma parse_frame_waits_or_consumes (rx : list byte) :
  (returned (parse_frame rx) = None /\ rx_after (parse_frame rx) = rx) \/
  (length (rx_after (parse_frame rx)) < length rx)%nat.
Proof.
  rewrite parse_frame_unfold.
  destruct (Z.ltb_spec (Z.of_nat (length rx)) 8) as [Hshort|Hlong];
    [left; split; reflexivity|].
  destruct (find_preamble rx 0) as [k|] eqn:Hfind.
  - destruct (decode_header_waits_or_consumes (drop k rx)) as [[Hnone Hsame]|Hless].
    + destruct k as [|k]; [left; split; assumption|].
      right. rewrite Hsame, length_drop. lia.
    + right. rewrite length_drop in Hless. lia.
  - right. cbn [rx_after]. rewrite length_drop. lia.
Qed.

Lemma parse_frame_length (rx : list byte) :
  (length (rx_after (parse_frame rx)) <= length rx)%nat.
Proof.
  destruct (parse_frame_waits_or_consumes rx) as [[_ ->]|Hless]; lia.
Qed.

(** *** Draining the buffer *)

(** Once a call waits, all later calls with no new bytes wait. *)
Lemma run_rx_idle_waiting (n : nat) (rx : list byte) :
  returned (parse_frame rx) = None -> rx_after (parse_frame rx) = rx ->
  run_rx (repeat [] n) rx = ([], rx).
Proof.
  intros Hnone Hsame. induction n as [|n IH]; [reflexivity|].
  rewrite run_rx_idle, Hnone, Hsame, IH. reflexivity.
Qed.

(** As many idle passes as the buffer has bytes are enough. *)
Lemma run_rx_idle_enough (n : nat) (rx : list byte) :
  (length rx <= n)%nat -> fst (run_rx (repeat [] n) rx) = drained rx.
Proof.
  unfold drained. remember (length rx) as len eqn:Hlen.
  revert rx n Hlen.
  induction len as [len IH] using lt_wf_ind. intros rx n Hlen Hn.
  destruct (parse_frame_waits_or_consumes rx) as [[Hnone Hsame]|Hless].
  { now rewrite !run_rx_idle_waiting. }
  destruct n as [|n]; [lia|]. destruct len as [|len]; [lia|].
  rewrite !run_rx_idle. cbn [fst]. f_equal.
  rewrite (IH (length (rx_after (parse_frame rx)))) by lia.
  symmetry. apply (IH (length (rx_after (parse_frame rx)))); lia.
Qed.

Lemma drained_step (rx : list byte) :
  drained rx
  = with_returned (returned (parse_frame rx)) (drained (rx_after (parse_frame rx))).
Proof.
  destruct (parse_frame_waits_or_consumes rx) as [[Hnone Hsame]|Hless].
  { now rewrite Hnone, Hsame. }
  unfold drained at 1. destruct (length rx) as [|len] eqn:Hlen; [lia|].
  rewrite run_rx_idle. cbn [fst]. f_equal.
  apply run_rx_idle_enough. lia.
Qed.

Lemma drained_waiting (rx : list byte) :
  returned (parse_frame rx) = None -> rx_after (parse_frame rx) = rx ->
  drained rx = [].
Proof. intros Hnone Hsame. unfold drained. now rewrite run_rx_idle_waiting. Qed.

Lemma drained_short (rx : list byte) : (length rx < 8)%nat -> drained rx = [].
Proof.
  intros Hlen. apply drained_waiting; rewrite parse_frame_unfold;
    destruct (Z.ltb_spec (Z.of_nat (length rx)) 8); (reflexivity || lia).
Qed.

(** *** Bytes in front of the preamble *)

Lemma find_preamble_first (buf : list byte) (k : nat) :
  at_preamble (drop k buf) = true ->
  (forall j, (j < k)%nat -> at_preamble (drop j buf) = false) ->
  find_preamble buf 0 = Some k.
Proof.
  intros Hat Hbefore.
  destruct (find_preamble buf 0) as [k'|] eqn:Hfind.
  - destruct (find_preamble_Some _ _ _ Hfind) as (j & -> & Hj & Hbefore').
    simpl. f_equal.
    destruct (Nat.lt_trichotomy j k) as [Hlt|[->|Hgt]]; [|reflexivity|].
    + rewrite (Hbefore j Hlt) in Hj. discriminate.
    + rewrite (Hbefore' k Hgt) in Hat. discriminate.
  - rewrite (find_preamble_None _ _ Hfind k) in Hat. discriminate.
Qed.

(** The test looks at two bytes: what follows them does not matter. *)
Lemma at_preamble_app (buf more : list byte) :
  (2 <= length buf)%nat -> at_preamble (buf ++ more) = at_preamble buf.
Proof. destruct buf as [|b0 [|b1 buf]]; simpl; (lia || reflexivity). Qed.

Lemma at_preamble_drop_app (buf more : list byte) (j : nat) :
  (j + 2 <= length buf)%nat ->
  at_preamble (drop j (buf ++ more)) = at_preamble (drop j buf).
Proof.
  intros Hj. rewrite drop_app_le by lia.
  apply at_preamble_app. rewrite length_drop. lia.
Qed.

(** Bytes in which no preamble starts do not change what is decoded. *)
Lemma drained_noise (noise rx : list byte) :
  (forall j, (j < length noise)%nat -> at_preamble (drop j (noise ++ rx)) = false) ->
  drained (noise ++ rx) = drained rx.
Proof.
  intros Hnoise.
  assert (forall j, at_preamble (drop (length noise + j) (noise ++ rx))
                    = at_preamble (drop j rx)) as Hshift.
  { intros j. rewrite drop_app_ge by lia. f_equal. f_equal. lia. }
  destruct (Nat.lt_ge_cases (length (noise ++ rx)) 8) as [Hshort|Hlong].
  { rewrite length_app in Hshort. rewrite !drained_short; [reflexivity | lia |].
    rewrite length_app. lia. }
  rewrite (drained_step (noise ++ rx)), parse_frame_unfold.
  destruct (Z.ltb_spec (Z.of_nat (length (noise ++ rx))) 8); [lia|].
  destruct (find_preamble (noise ++ rx) 0) as [k|] eqn:Hfind.
  - destruct (find_preamble_Some _ _ _ Hfind) as (j & -> & Hat & Hbefore).
    simpl in *.
    assert (length noise <= j)%nat as Hj.
    { destruct (Nat.le_gt_cases (length noise) j) as [|Hlt]; [assumption|].
      rewrite (Hnoise j Hlt) in Hat. discriminate. }
    replace j with (length noise + (j - length noise))%nat in Hat |- * by lia.
    rewrite Hshift in Hat. rewrite drop_app_ge by lia.
    replace (length noise + (j - length noise) - length noise)%nat
      with (j - length noise)%nat by lia.
    destruct (Nat.lt_ge_cases (length rx) 8) as [Hrx|Hrx].
    + rewrite decode_header_short by (rewrite length_drop; lia).
      cbn [returned rx_after with_returned].
      rewrite !drained_short; [reflexivity | lia | rewrite length_drop; lia].
    + rewrite (drained_step rx), parse_frame_unfold.
      destruct (Z.ltb_spec (Z.of_nat (length rx)) 8); [lia|].
      rewrite (find_preamble_first rx (j - length noise)); [reflexivity | exact Hat |].
      intros j' Hj'. rewrite <- Hshift. apply Hbefore. lia.
  - cbn [returned rx_after with_returned].
    rewrite drained_short by (rewrite length_drop; lia).
    destruct (Nat.lt_ge_cases (length rx) 8) as [Hrx|Hrx].
    + now rewrite drained_short.
    + rewrite (drained_step rx), parse_frame_unfold.
      destruct (Z.ltb_spec (Z.of_nat (length rx)) 8); [lia|].
      destruct (find_preamble rx 0) as [k|] eqn:Hfind'.
      * destruct (find_preamble_Some _ _ _ Hfind') as (j & -> & Hat & _).
        rewrite <- Hshift, (find_preamble_None _ _ Hfind) in Hat. discriminate.
      * cbn [returned rx_after with_returned].
        symmetry. apply drained_short. rewrite length_drop. lia.
Qed.

(** *** Bytes behind a decision *)

(** What [decode_header] does to a buffer it does not wait on, it does
    whatever follows the buffer. *)
Lemma decode_header_app (buf more : list byte) :
  (returned (decode_header buf) = None /\ rx_after (decode_header buf) = buf) \/
  ((8 <= length buf)%nat /\
   returned (decode_header (buf ++ more)) = returned (decode_header buf) /\
   rx_after (decode_header (buf ++ more)) = rx_after (decode_header buf) ++ more).
Proof.
  destruct (Nat.lt_ge_cases (length buf) 8) as [Hshort|Hlong].
  { left. now rewrite decode_header_short. }
  destruct buf as [|p0 [|p1 [|b2 [|b3 [|b4 [|b5 [|b6 [|b7 rest]]]]]]]];
    try (simpl in Hlong; lia).
  cbn [app].
  pose proof (decode_header_eq p0 p1 b2 b3 b4 b5 b6 b7 rest) as Heq.
  pose proof (decode_header_eq p0 p1 b2 b3 b4 b5 b6 b7 (rest ++ more)) as Heq'.
  cbv zeta in Heq, Heq'. rewrite Heq, Heq'. clear Heq Heq'.
  destruct (negb (crc8_header [b2; b3; b4; b5; b6] =? byte_val b7)).
  { right. split; [exact Hlong|]. split; reflexivity. }
  pose proof (length_field_nonneg b5 b6) as Hfield.
  generalize dependent (length_field b5 b6). intros len Hfield.
  destruct (0 <? len).
  - destruct (Z.ltb_spec (Z.of_nat (length rest)) (len + 2)) as [Hwait|Hfull];
      [left; split; reflexivity|].
    rewrite length_app.
    destruct (Z.ltb_spec (Z.of_nat (length rest + length more)) (len + 2)); [lia|].
    rewrite drop_app_le, take_app_le by lia.
    destruct (drop (Z.to_nat len) rest) as [|c0 [|c1 rest']];
      [left; split; reflexivity | left; split; reflexivity |].
    cbn [app].
    destruct (negb _); right; (split; [exact Hlong|]); split; reflexivity.
  - right. split; [exact Hlong|]. split; reflexivity.
Qed.

(** What one call of [parse_frame] does to the buffer can be moved in
    front of the bytes that arrive later. *)
Lemma drained_app_step (rx more : list byte) :
  drained (rx ++ more)
  = with_returned (returned (parse_frame rx))
                  (drained (rx_after (parse_frame rx) ++ more)).
Proof.
  rewrite (parse_frame_unfold rx).
  destruct (Z.ltb_spec (Z.of_nat (length rx)) 8) as [Hshort|Hlong]; [reflexivity|].
  destruct (find_preamble rx 0) as [k|] eqn:Hfind.
  - destruct (find_preamble_Some _ _ _ Hfind) as (j & -> & Hat & Hbefore).
    simpl in *.
    pose proof (at_preamble_length _ Hat) as Hlen. rewrite length_drop in Hlen.
    rewrite <- (take_drop j rx) at 1. rewrite <- app_assoc.
    rewrite drained_noise.
    2:{ rewrite length_take_le by lia. intros j' Hj'.
        rewrite app_assoc, take_drop, at_preamble_drop_app by lia.
        now apply Hbefore. }
    destruct (decode_header_app (drop j rx) more)
      as [[Hnone Hsame]|(Hfull & Hret & Hafter)].
    + now rewrite Hnone, Hsame.
    + rewrite <- Hret, <- Hafter, (drained_step (drop j rx ++ more)).
      rewrite parse_frame_at_preamble; [reflexivity | |].
      * now rewrite at_preamble_app by (rewrite length_drop; lia).
      * rewrite length_app. lia.
  - cbn [returned rx_after with_returned].
    rewrite <- (take_drop (length rx - 1) rx) at 1. rewrite <- app_assoc.
    apply drained_noise.
    rewrite length_take_le by lia. intros j Hj.
    rewrite app_assoc, take_drop, at_preamble_drop_app by lia.
    apply (find_preamble_None _ _ Hfind).
Qed.

(** The loop over [reads], followed by enough idle passes, decodes what
    is decoded from the buffer with all the bytes read appended to it. *)
Lemma run_rx_drained (reads : list (list byte)) (rx : list byte) (n : nat) :
  (length (rx ++ concat reads) <= n)%nat ->
  fst (run_rx (reads ++ repeat [] n) rx) = drained (rx ++ concat reads).
Proof.
  revert rx. induction reads as [|chunk reads IH]; intros rx Hn.
  - cbn [app concat] in *. rewrite app_nil_r in *. now apply run_rx_idle_enough.
  - cbn [app concat] in *. rewrite run_rx_cons. cbn [fst].
    rewrite app_assoc, drained_app_step. f_equal.
    apply IH.
    pose proof (parse_frame_length (rx ++ chunk)).
    rewrite !length_app in *. lia.
Qed.

(** C6, as the claim has it: the loop calls [parse_frame] once per pass,
    so the frames decoded by the time the last read has been processed do
    depend on how the stream is split.  Of two Token frames read at once,
    the pass that reads them decodes the first only; read one after the
    other, both are decoded; one idle pass more decodes the second. *)
Example one_frame_per_pass :
  let token := [x55; xff; x00; x06; x03; x00; x00; x62] in
  concat [token ++ token] = concat [token; token] /\
  fst (run_rx [token ++ token] []) = [(0, 6, 3, None)] /\
  fst (run_rx [token; token] []) = [(0, 6, 3, None); (0, 6, 3, None)] /\
  fst (run_rx ([token ++ token] ++ repeat [] 1) [])
  = [(0, 6, 3, None); (0, 6, 3, None)].
Proof. cbv zeta. repeat split; vm_compute; reflexivity. Qed.

(** C6, amended: once the loop has been left idle long enough, the frames
    decoded do not depend on how the byte stream is split into reads.  For
    every stream and every way [chunks] of cutting it into successive reads
    (empty reads allowed), the loop of [run] fed with these reads, and left
    idle afterwards for at least as many passes as the stream has bytes,
    decodes the same frames in the same order as when it is fed the whole
    stream at once and left idle as long; so it does when fed one byte at a
    time. *)
Theorem chunking_does_not_matter (stream : list byte) (chunks : list (list byte))
    (n : nat) :
  concat chunks = stream ->
  (length stream <= n)%nat ->
  fst (run_rx (chunks ++ repeat [] n) [])
  = fst (run_rx ([stream] ++ repeat [] n) []) /\
  fst (run_rx (map (fun b => [b]) stream ++ repeat [] n) [])
  = fst (run_rx ([stream] ++ repeat [] n) []).
Proof.
  intros Hchunks Hn.
  assert (concat (map (fun b : byte => [b]) stream) = stream) as Hbytes.
  { clear. induction stream as [|b stream IH]; [reflexivity|].
    cbn [map concat app]. f_equal. exact IH. }
  rewrite !run_rx_drained.
  - cbn [concat app]. rewrite app_nil_r, Hchunks, Hbytes. split; reflexivity.
  - cbn [app]. rewrite Hbytes. exact Hn.
  - cbn [concat app]. rewrite app_nil_r. exact Hn.
  - cbn [app]. rewrite Hchunks. exact Hn.
Qed.

(** A data frame with some noise in front, cut into five reads (one of
    them empty), against the same bytes read at once. *)
Lemma chunking_does_not_matter_witness :
  let stream := [x00; x55; x55; xff; x05; x06; x03; x00; x02; x05; x01; x02; x8d; x35] in
  let chunks := [[x00; x55]; [x55; xff; x05; x06]; []; [x03; x00; x02; x05; x01];
                 [x02; x8d; x35]] in
  concat chunks = stream /\
  (length stream <= 14)%nat /\
  fst (run_rx (chunks ++ repeat [] 14) []) = [(5, 6, 3, Some [x01; x02])] /\
  fst (run_rx (chunks ++ repeat [] 14) [])
  = fst (run_rx ([stream] ++ repeat [] 14) []) /\
  fst (run_rx (map (fun b => [b]) stream ++ repeat [] 14) [])
  = fst (run_rx ([stream] ++ repeat [] 14) []).
Proof.
  cbv zeta.
  split; [reflexivity|]. split; [simpl; lia|]. split; [vm_compute; reflexivity|].
  apply (chunking_does_not_matter
           [x00; x55; x55; xff; x05; x06; x03; x00; x02; x05; x01; x02; x8d; x35]
           [[x00; x55]; [x55; xff; x05; x06]; []; [x03; x00; x02; x05; x01];
            [x02; x8d; x35]]
           14);
    [reflexivity | simpl; lia].
Defined.

(** *** The CRC of a message with its CRC appended *)

Lemma pack_le_u16_bytes (v : Z) (packed : list byte) :
  pack_le_u16 v = Some packed ->
  exists c0 c1, packed = [c0; c1] /\
    byte_val c0 = Z.land v 0xFF /\ byte_val c1 = Z.shiftr v 8.
Proof.
  unfold pack_le_u16. destruct ((0 <=? v) && (v <? 65536)); [|discriminate].
  cbn [bytes_of_ints].
  destruct (byte_of_int (Z.land v 0xFF)) as [c0|] eqn:H0; [|discriminate].
  destruct (byte_of_int (Z.shiftr v 8)) as [c1|] eqn:H1; [|discriminate].
  intros [= <-]. exists c0, c1. eauto using byte_of_int_Some.
Qed.

(** X4: the good-CRC constant.  For every message, the data CRC of
    [calculate_data_crc_ccitt] fits [struct.pack('<H', ...)], and
    [check_crc_ccitt_with_crc] of the message followed by these two bytes
    is 0xF0B8. *)
Theorem crc16_of_message_with_crc (data : list byte) :
  exists packed,
    pack_le_u16 (Crc16Verify.calculate_data_crc_ccitt data) = Some packed /\
    Crc16Verify.check_crc_ccitt_with_crc (data ++ packed) = 0xF0B8.
Proof.
  unfold Crc16Verify.calculate_data_crc_ccitt, Crc16Verify.check_crc_ccitt_with_crc.
  cbv zeta. pose proof (register_8408_below data) as Hreg.
  destruct (pack_le_u16_decode _ (land_0xFFFF_range
              (Z.lnot (fold_left (fun crc b => repeat8 (shift_xor 0x8408)
                                                  (Z.lxor crc (byte_val b)))
                                 data 0xFFFF))))
    as (c0 & c1 & Hpack & _).
  exists [c0; c1]. split; [exact Hpack|].
  destruct (pack_le_u16_bytes _ _ Hpack) as (c0' & c1' & [= <- <-] & H0 & H1).
  rewrite fold_left_app. cbn [fold_left]. rewrite H0, H1.
  generalize dependent (fold_left (fun crc b => repeat8 (shift_xor 0x8408)
                                                   (Z.lxor crc (byte_val b)))
                                  data 0xFFFF).
  intros r Hr _ _ _. check_all_below r Hr 65536.
Qed.

(** The two bytes of a 16-bit field, from the field. *)
Lemma length_field_bytes (hi lo : byte) :
  Z.land (Z.shiftr (length_field hi lo) 8) 0xFF = byte_val hi /\
  Z.land (length_field hi lo) 0xFF = byte_val lo /\
  Z.shiftr (length_field hi lo) 8 = byte_val hi /\
  0 <= length_field hi lo < 65536.
Proof.
  unfold length_field.
  pose proof
    (forall_below_2
       (fun x y =>
          let v := Z.lor (Z.shiftl x 8) y in
          (Z.land (Z.shiftr v 8) 0xFF =? x) && (Z.land v 0xFF =? y)
          && (Z.shiftr v 8 =? x) && (0 <=? v) && (v <? 65536))
       256 ltac:(vm_compute; reflexivity) _ _ (byte_val_range hi) (byte_val_range lo))
    as H.
  cbv beta zeta in H.
  repeat (apply andb_prop in H as [H ?]).
  repeat match goal with
         | H : (_ =? _) = true |- _ => apply Z.eqb_eq in H
         | H : (_ <=? _) = true |- _ => apply Z.leb_le in H
         | H : (_ <? _) = true |- _ => apply Z.ltb_lt in H
         end.
  auto.
Qed.

Lemma length_field_injective (hi lo hi' lo' : byte) :
  length_field hi lo = length_field hi' lo' -> hi = hi' /\ lo = lo'.
Proof.
  intros Heq.
  destruct (length_field_bytes hi lo) as (Hhi & Hlo & _).
  destruct (length_field_bytes hi' lo') as (Hhi' & Hlo' & _).
  rewrite Heq in Hhi, Hlo. split; apply byte_val_inj; congruence.
Qed.

(** The frame that [build_frame] returns for a payload that is not empty,
    in full. *)
Lemma build_frame_data_wire (t d s : byte) (payload : list byte) :
  payload <> [] ->
  exists lh ll hc c0 c1 : byte,
    build_frame (byte_val t) (byte_val d) (byte_val s) (Some payload)
    = Some (x55 :: xff :: t :: d :: s :: lh :: ll :: hc :: payload ++ [c0; c1]) /\
    byte_val lh = Z.land (Z.shiftr (Z.of_nat (length payload)) 8) 0xFF /\
    byte_val ll = Z.land (Z.of_nat (length payload)) 0xFF /\
    byte_val hc = crc8_header [t; d; s; lh; ll] /\
    Z.lor (byte_val c0) (Z.shiftl (byte_val c1) 8) = crc16_data payload.
Proof.
  intros Hne.
  destruct (byte_of_int_in_range _
              (land_0xFF_range (Z.shiftr (Z.of_nat (length payload)) 8)))
    as (lh & Hlh & Vlh).
  destruct (byte_of_int_in_range _ (land_0xFF_range (Z.of_nat (length payload))))
    as (ll & Hll & Vll).
  destruct (bytes_of_ints_one _ (sim_crc8_header_range [t; d; s; lh; ll]))
    as (hc & Hhc & Vhc).
  destruct (pack_le_u16_decode _ (sim_crc16_data_range payload))
    as (c0 & c1 & Hpack & Vpack).
  exists lh, ll, hc, c0, c1. repeat split; try assumption.
  unfold build_frame. destruct payload as [|a payload]; [congruence|].
  cbv zeta. cbn [bytes_of_ints]. rewrite !byte_of_int_val, Hlh, Hll, bind_Some.
  fold (bytes_of_ints [crc8_header [t; d; s; lh; ll]]).
  rewrite Hhc, bind_Some, Hpack, bind_Some. reflexivity.
Qed.

(** [bytes([frame_type, dest, src, ...])] raises when one of the three is
    not in [range(256)]. *)
Lemma build_frame_not_bytes (t d s : Z) (data : option (list byte)) :
  ~ (0 <= t < 256 /\ 0 <= d < 256 /\ 0 <= s < 256) ->
  build_frame t d s data = None.
Proof.
  intros Hrange.
  assert (forall hi lo, bytes_of_ints [t; d; s; hi; lo] = None) as Hheader.
  { intros hi lo. cbn [bytes_of_ints].
    destruct (byte_of_int t) as [bt|] eqn:Et; [|reflexivity].
    destruct (byte_of_int d) as [bd|] eqn:Ed; [|reflexivity].
    destruct (byte_of_int s) as [bs|] eqn:Es;
      [|destruct (byte_of_int hi); reflexivity].
    apply byte_of_int_Some in Et, Ed, Es.
    pose proof (byte_val_range bt). pose proof (byte_val_range bd).
    pose proof (byte_val_range bs). lia. }
  unfold build_frame. destruct data as [[|a data]|]; cbv zeta; now rewrite Hheader.
Qed.

Lemma build_frame_Some_bytes (t d s : Z) (data : option (list byte)) (wire : list byte) :
  build_frame t d s data = Some wire ->
  exists bt bd bs : byte, t = byte_val bt /\ d = byte_val bd /\ s = byte_val bs.
Proof.
  intros Hbuild.
  destruct (decide (0 <= t < 256 /\ 0 <= d < 256 /\ 0 <= s < 256)) as [(Ht & Hd & Hs)|Hno];
    [|rewrite build_frame_not_bytes in Hbuild by exact Hno; discriminate].
  destruct (byte_of_int_in_range t Ht) as (bt & _ & <-).
  destruct (byte_of_int_in_range d Hd) as (bd & _ & <-).
  destruct (byte_of_int_in_range s Hs) as (bs & _ & <-).
  exists bt, bd, bs. auto.
Qed.

(** X5: [build_frame] raises exactly when the frame type, the destination
    or the source is not a byte (whatever the payload, also one too long for
    the length field).  What it builds starts with the preamble 55 FF and
    has 8 bytes without payload and [8 + len(data) + 2] bytes with one. *)
Theorem build_frame_raises_or_builds (t d s : Z) (data : option (list byte)) :
  match build_frame t d s data with
  | None => ~ (0 <= t < 256 /\ 0 <= d < 256 /\ 0 <= s < 256)
  | Some wire =>
      (0 <= t < 256 /\ 0 <= d < 256 /\ 0 <= s < 256) /\
      take 2 wire = [x55; xff] /\
      Z.of_nat (length wire)
      = if 0 <? payload_length data then 8 + payload_length data + 2 else 8
  end.
Proof.
  destruct (decide (0 <= t < 256 /\ 0 <= d < 256 /\ 0 <= s < 256)) as [(Ht & Hd & Hs)|Hno];
    [|now rewrite build_frame_not_bytes].
  destruct (byte_of_int_in_range t Ht) as (bt & _ & <-).
  destruct (byte_of_int_in_range d Hd) as (bd & _ & <-).
  destruct (byte_of_int_in_range s Hs) as (bs & _ & <-).
  destruct data as [[|a data]|].
  - destruct (build_frame_no_data bt bd bs (Some [])) as (c & _ & ->); [auto|].
    repeat split; lia || reflexivity.
  - destruct (build_frame_data_wire bt bd bs (a :: data)) as (lh & ll & hc & c0 & c1 & -> & _);
      [discriminate|].
    split; [lia|]. split; [reflexivity|].
    unfold payload_length.
    destruct (Z.ltb_spec 0 (Z.of_nat (length (a :: data)))) as [_|Hlen];
      [|simpl in Hlen; lia].
    cbn [length]. rewrite length_app. cbn [length]. lia.
  - destruct (build_frame_no_data bt bd bs None) as (c & _ & ->); [auto|].
    repeat split; lia || reflexivity.
Qed.

(** *** What is decoded was encoded *)

(** The frame that [build_frame] returns for the header fields and the
    payload that [parse_frame] reads from the wire. *)
Lemma build_frame_of_wire (c2 c3 c4 c5 c6 c7 : byte) (payload : list byte) (c0 c1 : byte) :
  byte_val c7 = crc8_header [c2; c3; c4; c5; c6] ->
  length_field c5 c6 = Z.of_nat (length payload) ->
  payload <> [] ->
  Z.lor (byte_val c0) (Z.shiftl (byte_val c1) 8) = crc16_data payload ->
  build_frame (byte_val c2) (byte_val c3) (byte_val c4) (Some payload)
  = Some (x55 :: xff :: c2 :: c3 :: c4 :: c5 :: c6 :: c7 :: payload ++ [c0; c1]).
Proof.
  intros Hcrc Hlen Hne Hdata.
  destruct (build_frame_data_wire c2 c3 c4 payload Hne)
    as (lh & ll & hc & d0 & d1 & -> & Hlh & Hll & Hhc & Hd).
  destruct (length_field_bytes c5 c6) as (Hhi & Hlo & _).
  rewrite Hlen in Hhi, Hlo.
  assert (lh = c5) as -> by (apply byte_val_inj; congruence).
  assert (ll = c6) as -> by (apply byte_val_inj; congruence).
  assert (hc = c7) as -> by (apply byte_val_inj; congruence).
  rewrite <- Hdata, (Z.lor_comm (byte_val d0)), (Z.lor_comm (byte_val c0)) in Hd.
  apply length_field_injective in Hd as [-> ->]. reflexivity.
Qed.

(** X6: [parse_frame] returns nothing but frames of [build_frame].  When
    it returns [(t, d, s, data)], the buffer holds, behind [k] skipped bytes
    none of which starts a preamble, exactly the bytes that [build_frame]
    builds for [(t, d, s, data)], followed by what is left in the buffer;
    nothing is logged, and [data] is [None] or a non-empty payload of at
    most 65535 bytes. *)
Theorem parse_frame_returns_what_was_built (buf : list byte) (t d s : Z)
    (data : option (list byte)) :
  returned (parse_frame buf) = Some (t, d, s, data) ->
  exists (k : nat) (wire : list byte),
    build_frame t d s data = Some wire /\
    drop k buf = wire ++ rx_after (parse_frame buf) /\
    (forall j, (j < k)%nat -> at_preamble (drop j buf) = false) /\
    logged (parse_frame buf) = None /\
    data <> Some [] /\ payload_length data <= 65535.
Proof.
  rewrite parse_frame_unfold.
  destruct (Z.of_nat (length buf) <? 8); [discriminate|].
  destruct (find_preamble buf 0) as [k|] eqn:Hfind; [|discriminate].
  destruct (find_preamble_Some _ _ _ Hfind) as (j & -> & Hat & Hbefore).
  cbn [Nat.add]. destruct (at_preamble_inv _ Hat) as (rest & Hdrop). rewrite Hdrop.
  destruct rest as [|c2 [|c3 [|c4 [|c5 [|c6 [|c7 rest]]]]]]; try discriminate.
  pose proof (decode_header_eq x55 xff c2 c3 c4 c5 c6 c7 rest) as Heq.
  cbv zeta in Heq. rewrite Heq. clear Heq.
  destruct (Z.eqb_spec (crc8_header [c2; c3; c4; c5; c6]) (byte_val c7)) as [Hcrc|Hcrc];
    [|discriminate].
  cbn [negb].
  destruct (length_field_bytes c5 c6) as (_ & _ & _ & Hrange).
  destruct (Z.ltb_spec 0 (length_field c5 c6)) as [Hpos|Hzero].
  - destruct (Z.ltb_spec (Z.of_nat (length rest)) (length_field c5 c6 + 2))
      as [|Hfull]; [discriminate|].
    destruct (drop (Z.to_nat (length_field c5 c6)) rest) as [|c0 [|c1 rest']] eqn:Htail;
      try discriminate.
    destruct (Z.eqb_spec (Z.lor (byte_val c0) (Z.shiftl (byte_val c1) 8))
                (crc16_data (take (Z.to_nat (length_field c5 c6)) rest)))
      as [Hdata|Hdata]; [|discriminate].
    cbn [negb returned rx_after logged]. intros [= <- <- <- <-].
    assert (length (take (Z.to_nat (length_field c5 c6)) rest)
            = Z.to_nat (length_field c5 c6)) as Hlen
      by (rewrite length_take; lia).
    exists j. eexists. split; [|split; [|split; [|split; [|split]]]].
    + apply (build_frame_of_wire c2 c3 c4 c5 c6 c7 _ c0 c1);
        [congruence | rewrite Hlen; lia | | exact Hdata].
      intros Hnil. rewrite Hnil in Hlen. simpl in Hlen. lia.
    + rewrite Hdrop. cbn [app]. rewrite <- app_assoc. cbn [app].
      rewrite <- Htail, take_drop. reflexivity.
    + exact Hbefore.
    + reflexivity.
    + intros [= Hnil]. rewrite Hnil in Hlen. simpl in Hlen. lia.
    + unfold payload_length. rewrite Hlen. lia.
  - cbn [returned rx_after logged]. intros [= <- <- <- <-].
    destruct (build_frame_no_data c2 c3 c4 None) as (c & Hc & Hbuild); [auto|].
    assert (length_field c5 c6 = 0) as Hlen by lia.
    destruct (length_field_injective c5 c6 x00 x00) as [-> ->]; [rewrite Hlen; reflexivity|].
    assert (c = c7) as -> by (apply byte_val_inj; congruence).
    exists j. eexists. split; [exact Hbuild|].
    split; [exact Hdrop|]. split; [exact Hbefore|]. split; [reflexivity|].
    split; [discriminate | simpl; lia].
Qed.

Lemma parse_frame_returns_what_was_built_witness :
  returned (parse_frame [x00; x55; x55; xff; x05; x06; x03; x00; x02; x05; x01; x02; x8d; x35; x07])
  = Some (5, 6, 3, Some [x01; x02]) /\
  exists (k : nat) (wire : list byte),
    build_frame 5 6 3 (Some [x01; x02]) = Some wire /\
    drop k [x00; x55; x55; xff; x05; x06; x03; x00; x02; x05; x01; x02; x8d; x35; x07]
    = wire ++ [x07].
Proof.
  assert (returned (parse_frame [x00; x55; x55; xff; x05; x06; x03; x00; x02; x05;
                                 x01; x02; x8d; x35; x07])
          = Some (5, 6, 3, Some [x01; x02])) as Hret by (vm_compute; reflexivity).
  split; [exact Hret|].
  destruct (parse_frame_returns_what_was_built _ _ _ _ _ Hret)
    as (k & wire & Hbuild & Hdrop & _).
  exists k, wire. split; [exact Hbuild|].
  rewrite Hdrop. f_equal; vm_compute; reflexivity.
Defined.

(** *** Frames in a stream *)

(** No preamble starts in bytes that are free of [0x55]. *)
Lemma quiet_no_preamble (noise rx : list byte) (j : nat) :
  x55 ∉ noise -> (j < length noise)%nat ->
  at_preamble (drop j (noise ++ rx)) = false.
Proof.
  intros Hquiet Hj.
  destruct (lookup_lt_is_Some_2 noise j Hj) as [b Hb].
  rewrite <- (take_drop_middle noise j b Hb), <- app_assoc, drop_app_length'
    by (rewrite length_take; lia).
  cbn [app].
  assert (byte_val b <> 0x55) as Hne.
  { intros Heq. apply Hquiet. apply (byte_val_inj b x55) in Heq. subst b.
    eapply list_elem_of_lookup_2, Hb. }
  unfold at_preamble.
  destruct (drop (S j) noise ++ rx); [reflexivity|].
  now rewrite (proj2 (Z.eqb_neq _ _) Hne).
Qed.

Lemma drained_quiet (noise rx : list byte) :
  x55 ∉ noise -> drained (noise ++ rx) = drained rx.
Proof. intros Hquiet. apply drained_noise. intros j Hj. now apply quiet_no_preamble. Qed.

(** A frame at the head of the buffer is decoded, and what follows it is
    decoded next. *)
Lemma drained_frame (t d s : Z) (data : option (list byte)) (wire rest : list byte) :
  build_frame t d s data = Some wire -> payload_length data <= 65535 ->
  drained (wire ++ rest) = (t, d, s, decoded_payload data) :: drained rest.
Proof.
  intros Hbuild Hlen.
  destruct (build_frame_Some_bytes _ _ _ _ _ Hbuild) as (bt & bd & bs & -> & -> & ->).
  destruct (build_frame_parse_frame bt bd bs data Hlen) as (wire' & Hbuild' & _ & Hparse).
  assert (wire' = wire) as -> by congruence.
  rewrite drained_app_step, Hparse. reflexivity.
Qed.

(** Traffic on the wire is decoded frame by frame. *)
Lemma drained_traffic (traffic : list (list byte * frame)) (stream tail : list byte) :
  Forall (fun item => (x55 ∉ fst item) /\ fits_length_field (snd item)) traffic ->
  x55 ∉ tail ->
  transmit traffic = Some stream ->
  drained (stream ++ tail) = map (fun item => decoded (snd item)) traffic.
Proof.
  intros Htraffic Htail. revert stream.
  induction Htraffic as [|[noise [[[t d] s] data]] traffic [Hquiet Hfits] _ IH];
    intros stream Hstream.
  - injection Hstream as <-. cbn [app map].
    rewrite <- (app_nil_r tail), drained_quiet by exact Htail.
    apply drained_short. simpl. lia.
  - cbn [transmit] in Hstream.
    destruct (build_frame t d s data) as [wire|] eqn:Hbuild; [|discriminate].
    destruct (transmit traffic) as [rest|]; [|discriminate].
    rewrite !bind_Some in Hstream. injection Hstream as <-.
    cbn [fst snd] in *. rewrite <- !app_assoc, drained_quiet by exact Hquiet.
    rewrite (drained_frame t d s data) by assumption.
    cbn [map decoded snd]. f_equal. now apply IH.
Qed.

(** X7: frames between noise.  When the bytes received are frames of
    [build_frame] (payloads within the length field), each preceded by
    noise without the byte 0x55, and followed by such noise, then the loop
    of [run], fed these bytes in any reads and left idle for as many passes
    as there are bytes, decodes exactly these frames, in order. *)
Theorem traffic_is_decoded_in_order (traffic : list (list byte * frame))
    (stream tail : list byte) (chunks : list (list byte)) (n : nat) :
  Forall (fun item => (x55 ∉ fst item) /\ fits_length_field (snd item)) traffic ->
  x55 ∉ tail ->
  transmit traffic = Some stream ->
  concat chunks = stream ++ tail ->
  (length (stream ++ tail) <= n)%nat ->
  fst (run_rx (chunks ++ repeat [] n) []) = map (fun item => decoded (snd item)) traffic.
Proof.
  intros Htraffic Htail Hstream Hchunks Hn.
  rewrite run_rx_drained by (cbn [app]; rewrite Hchunks; exact Hn).
  cbn [app]. rewrite Hchunks. now apply drained_traffic.
Qed.

Lemma traffic_is_decoded_in_order_witness :
  let traffic :=
    [([x00; x17], (0, 6, 3, None));
     ([], (5, 6, 3, Some [x01; x02]));
     ([xff; xff; x00], (6, 255, 3, Some []))] in
  let stream :=
    [x00; x17; x55; xff; x00; x06; x03; x00; x00; x62;
     x55; xff; x05; x06; x03; x00; x02; x05; x01; x02; x8d; x35;
     xff; xff; x00; x55; xff; x06; xff; x03; x00; x00; x4f] in
  let chunks :=
    [[x00; x17; x55]; [xff; x00; x06; x03; x00; x00; x62; x55; xff; x05; x06; x03];
     []; [x00; x02; x05; x01; x02; x8d; x35; xff; xff; x00; x55; xff; x06; xff];
     [x03; x00; x00; x4f; x01]] in
  transmit traffic = Some stream /\
  fst (run_rx (chunks ++ repeat [] 34) [])
  = [(0, 6, 3, None); (5, 6, 3, Some [x01; x02]); (6, 255, 3, None)].
Proof.
  cbv zeta.
  assert (transmit [([x00; x17], (0, 6, 3, None));
                    ([], (5, 6, 3, Some [x01; x02]));
                    ([xff; xff; x00], (6, 255, 3, Some []))]
          = Some [x00; x17; x55; xff; x00; x06; x03; x00; x00; x62;
                  x55; xff; x05; x06; x03; x00; x02; x05; x01; x02; x8d; x35;
                  xff; xff; x00; x55; xff; x06; xff; x03; x00; x00; x4f]) as Hstream
    by (vm_compute; reflexivity).
  split; [exact Hstream|].
  apply (traffic_is_decoded_in_order _ _ [x01] _ 34 ) with (3 := Hstream).
  - repeat constructor; cbn [fst snd fits_length_field payload_length length];
      try lia; intros Hin; repeat (apply elem_of_cons in Hin as [Hin|Hin]; [discriminate|]);
      now apply elem_of_nil in Hin.
  - intros Hin. repeat (apply elem_of_cons in Hin as [Hin|Hin]; [discriminate|]).
    now apply elem_of_nil in Hin.
  - reflexivity.
  - simpl. lia.
Defined.

(** *** Resynchronisation *)






(** X8: after a header CRC error the framer finds the next frame.  When
    the six bytes behind a preamble fail the header CRC and none of them is
    0x55, [parse_frame] logs the header CRC error, and the frames decoded
    from the bytes that follow are those decoded from these bytes alone. *)
Theorem resync_after_header_crc_error (b2 b3 b4 b5 b6 b7 : byte) (rest : list byte)
    (n : nat) :
  crc8_header [b2; b3; b4; b5; b6] <> byte_val b7 ->
  x55 ∉ [b2; b3; b4; b5; b6; b7] ->
  (8 + length rest <= n)%nat ->
  let damaged := x55 :: xff :: b2 :: b3 :: b4 :: b5 :: b6 :: b7 :: rest in
  logged (parse_frame damaged)
  = Some (HeaderCrcError (crc8_header [b2; b3; b4; b5; b6]) (byte_val b7)) /\
  fst (run_rx ([damaged] ++ repeat [] n) []) = fst (run_rx ([rest] ++ repeat [] n) []).
Proof.
  intros Hcrc Hquiet Hn. cbv zeta.
  assert (parse_frame (x55 :: xff :: b2 :: b3 :: b4 :: b5 :: b6 :: b7 :: rest)
          = ParseStep None
              (Some (HeaderCrcError (crc8_header [b2; b3; b4; b5; b6]) (byte_val b7)))
              (b2 :: b3 :: b4 :: b5 :: b6 :: b7 :: rest)) as Hparse.
  { rewrite parse_frame_at_preamble by (reflexivity || (simpl; lia)).
    pose proof (decode_header_eq x55 xff b2 b3 b4 b5 b6 b7 rest) as Heq.
    cbv zeta in Heq. rewrite Heq, (proj2 (Z.eqb_neq _ _) Hcrc). reflexivity. }
  split; [now rewrite Hparse|].
  rewrite !run_rx_drained by (cbn [app concat length]; rewrite ?app_nil_r; simpl; lia).
  cbn [app concat]. rewrite !app_nil_r.
  rewrite drained_step, Hparse. cbn [returned rx_after with_returned].
  apply (drained_quiet [b2; b3; b4; b5; b6; b7] rest Hquiet).
Qed.

(** *** A corrupted byte *)

(** A changed byte among the six header bytes gives a header CRC error. *)
Lemma damaged_header_rejected (h0 h1 h2 h3 h4 hc : byte) (i : nat) (b b' : byte)
    (tail : list byte) :
  byte_val hc = crc8_header [h0; h1; h2; h3; h4] ->
  [h0; h1; h2; h3; h4; hc] !! i = Some b -> b' <> b ->
  exists calc recv,
    parse_frame (x55 :: xff :: <[i:=b']> [h0; h1; h2; h3; h4; hc] ++ tail)
    = ParseStep None (Some (HeaderCrcError calc recv))
                (<[i:=b']> [h0; h1; h2; h3; h4; hc] ++ tail).
Proof.
  intros Hcrc Hi Hne.
  assert (forall g0 g1 g2 g3 g4 gc : byte,
            crc8_header [g0; g1; g2; g3; g4] <> byte_val gc ->
            exists calc recv,
              parse_frame (x55 :: xff :: [g0; g1; g2; g3; g4; gc] ++ tail)
              = ParseStep None (Some (HeaderCrcError calc recv))
                          ([g0; g1; g2; g3; g4; gc] ++ tail)) as Hreject.
  { intros g0 g1 g2 g3 g4 gc Hbad. cbn [app].
    rewrite parse_frame_at_preamble by (reflexivity || (simpl; lia)).
    pose proof (decode_header_eq x55 xff g0 g1 g2 g3 g4 gc tail) as Heq.
    cbv zeta in Heq. rewrite Heq, (proj2 (Z.eqb_neq _ _) Hbad). eauto. }
  destruct i as [|[|[|[|[|[|i]]]]]]; cbn in Hi; try discriminate;
    injection Hi as <-; apply Hreject.
  - rewrite Hcrc. apply (crc8_header_changed_byte [] [h1; h2; h3; h4]), Hne.
  - rewrite Hcrc. apply (crc8_header_changed_byte [h0] [h2; h3; h4]), Hne.
  - rewrite Hcrc. apply (crc8_header_changed_byte [h0; h1] [h3; h4]), Hne.
  - rewrite Hcrc. apply (crc8_header_changed_byte [h0; h1; h2] [h4]), Hne.
  - rewrite Hcrc. apply (crc8_header_changed_byte [h0; h1; h2; h3] []), Hne.
  - rewrite <- Hcrc. intros Heq. apply Hne. symmetry. now apply byte_val_inj.
Qed.

Lemma data_crc_bytes_injective (c0 c1 d0 d1 : byte) :
  Z.lor (byte_val c0) (Z.shiftl (byte_val c1) 8)
  = Z.lor (byte_val d0) (Z.shiftl (byte_val d1) 8) ->
  c0 = d0 /\ c1 = d1.
Proof.
  rewrite (Z.lor_comm (byte_val c0)), (Z.lor_comm (byte_val d0)).
  intros [? ?]%length_field_injective. auto.
Qed.

(** A changed byte in the payload or in the data CRC gives a data CRC
    error. *)
Lemma damaged_payload_rejected (t d s lh ll hc : byte) (payload : list byte)
    (c0 c1 : byte) (i : nat) (b b' : byte) (rest : list byte) :
  byte_val hc = crc8_header [t; d; s; lh; ll] ->
  length_field lh ll = Z.of_nat (length payload) ->
  payload <> [] ->
  Z.lor (byte_val c0) (Z.shiftl (byte_val c1) 8) = crc16_data payload ->
  (payload ++ [c0; c1]) !! i = Some b -> b' <> b ->
  parse_frame (x55 :: xff :: t :: d :: s :: lh :: ll :: hc
                   :: <[i:=b']> (payload ++ [c0; c1]) ++ rest)
  = ParseStep None (Some DataCrcError)
              (t :: d :: s :: lh :: ll :: hc :: <[i:=b']> (payload ++ [c0; c1]) ++ rest).
Proof.
  intros Hcrc Hlen Hne Hdata Hi Hb.
  assert (forall payload' d0 d1,
            length payload' = length payload ->
            Z.lor (byte_val d0) (Z.shiftl (byte_val d1) 8) <> crc16_data payload' ->
            parse_frame (x55 :: xff :: t :: d :: s :: lh :: ll :: hc
                             :: (payload' ++ [d0; d1]) ++ rest)
            = ParseStep None (Some DataCrcError)
                        (t :: d :: s :: lh :: ll :: hc :: (payload' ++ [d0; d1]) ++ rest))
    as Hreject.
  { intros payload' d0 d1 Hsame Hbad. rewrite <- app_assoc. cbn [app].
    rewrite parse_frame_data;
      [| exact Hcrc | now rewrite Hsame
       | intros ->; destruct payload; [congruence | discriminate Hsame] ].
    now rewrite (proj2 (Z.eqb_neq _ _) Hbad). }
  apply lookup_app_Some in Hi as [Hi | [Hge Hi]].
  - (* a byte of the payload *)
    pose proof (lookup_lt_Some _ _ _ Hi) as Hlt.
    rewrite insert_app_l by exact Hlt.
    apply Hreject; [apply length_insert|].
    rewrite Hdata, insert_take_drop by exact Hlt.
    rewrite <- (take_drop_middle payload i b Hi) at 1.
    apply not_eq_sym, crc16_data_changed_byte, Hb.
  - (* a byte of the data CRC *)
    replace i with (length payload + (i - length payload))%nat by lia.
    rewrite insert_app_r.
    destruct (i - length payload)%nat as [|[|k]]; cbn in Hi; try discriminate;
      injection Hi as <-; cbn [insert list_insert]; apply Hreject; try reflexivity;
      rewrite <- Hdata; intros [? ?]%data_crc_bytes_injective; congruence.
Qed.

(** X9: error detection.  A frame of [build_frame] (payload within the
    length field) in which one byte behind the preamble (header, payload or
    either CRC) was replaced by another is not returned by [parse_frame]: a
    header or data CRC error is logged and the two preamble bytes are
    dropped. *)
Theorem corrupted_frame_is_rejected (t d s : Z) (data : option (list byte))
    (wire rest : list byte) (i : nat) (b b' : byte) :
  build_frame t d s data = Some wire ->
  payload_length data <= 65535 ->
  (2 <= i)%nat -> wire !! i = Some b -> b' <> b ->
  let damaged := <[i:=b']> wire ++ rest in
  returned (parse_frame damaged) = None /\
  (logged (parse_frame damaged) = Some DataCrcError \/
   exists calc recv, logged (parse_frame damaged) = Some (HeaderCrcError calc recv)) /\
  rx_after (parse_frame damaged) = drop 2 damaged.
Proof.
  intros Hbuild Hfits Hi Hlookup Hb. cbv zeta.
  destruct (build_frame_Some_bytes _ _ _ _ _ Hbuild) as (bt & bd & bs & -> & -> & ->).
  destruct i as [|[|i]]; try lia. clear Hi.
  assert (forall h0 h1 h2 h3 h4 hc tail,
            byte_val hc = crc8_header [h0; h1; h2; h3; h4] ->
            (i < 6)%nat ->
            (x55 :: xff :: [h0; h1; h2; h3; h4; hc] ++ tail) !! S (S i) = Some b ->
            let damaged :=
              <[S (S i):=b']> (x55 :: xff :: [h0; h1; h2; h3; h4; hc] ++ tail) ++ rest in
            returned (parse_frame damaged) = None /\
            (logged (parse_frame damaged) = Some DataCrcError \/
             exists calc recv,
               logged (parse_frame damaged) = Some (HeaderCrcError calc recv)) /\
            rx_after (parse_frame damaged) = drop 2 damaged) as Hheader.
  { intros h0 h1 h2 h3 h4 hc tail Hcrc Hlt Hl. cbv zeta.
    change (([h0; h1; h2; h3; h4; hc] ++ tail) !! i = Some b) in Hl.
    rewrite lookup_app_l in Hl by (simpl; lia).
    change (<[S (S i):=b']> (x55 :: xff :: [h0; h1; h2; h3; h4; hc] ++ tail))
      with (x55 :: xff :: <[i:=b']> ([h0; h1; h2; h3; h4; hc] ++ tail)).
    rewrite insert_app_l by (simpl; lia).
    cbn [app]. rewrite <- app_assoc.
    destruct (damaged_header_rejected h0 h1 h2 h3 h4 hc i b b' (tail ++ rest) Hcrc Hl Hb)
      as (calc & recv & Hparse).
    rewrite Hparse. cbn [returned logged rx_after drop].
    split; [reflexivity|]. split; [right; eauto | reflexivity]. }
  destruct data as [[|a payload]|].
  - destruct (build_frame_no_data bt bd bs (Some [])) as (c & Hc & Hwire); [auto|].
    assert (wire = [x55; xff; bt; bd; bs; x00; x00; c]) as -> by congruence.
    apply (Hheader bt bd bs x00 x00 c [] Hc);
      [apply lookup_lt_Some in Hlookup; simpl in Hlookup; lia | exact Hlookup].
  - assert (a :: payload <> []) as Hne by discriminate.
    unfold payload_length in Hfits.
    generalize dependent (a :: payload). clear a payload. intros payload Hbuild Hfits Hne.
    destruct (build_frame_data_wire bt bd bs payload Hne)
      as (lh & ll & hc & c0 & c1 & Hwire & Hlh & Hll & Hhc & Hd).
    assert (wire = x55 :: xff :: [bt; bd; bs; lh; ll; hc] ++ payload ++ [c0; c1])
      as -> by (cbn [app]; congruence).
    destruct (Nat.lt_ge_cases i 6) as [Hlt|Hge]; [now apply Hheader|].
    assert (length_field lh ll = Z.of_nat (length payload)) as Hlen.
    { destruct (length_field_encode (Z.of_nat (length payload)))
        as (lh' & ll' & Hlh' & Hll' & <-); [lia|].
      apply byte_of_int_Some in Hlh', Hll'.
      f_equal; apply byte_val_inj; congruence. }
    replace i with (6 + (i - 6))%nat in Hlookup |- * by lia.
    change ((payload ++ [c0; c1]) !! (i - 6)%nat = Some b) in Hlookup.
    change (<[S (S (6 + (i - 6))):=b']>
              (x55 :: xff :: [bt; bd; bs; lh; ll; hc] ++ payload ++ [c0; c1]))
      with (x55 :: xff :: bt :: bd :: bs :: lh :: ll :: hc
                :: <[(i - 6)%nat:=b']> (payload ++ [c0; c1])).
    cbn [app].
    rewrite (damaged_payload_rejected bt bd bs lh ll hc payload c0 c1
               (i - 6) b b' rest Hhc Hlen Hne Hd Hlookup Hb).
    cbn [returned logged rx_after drop]. auto.
  - destruct (build_frame_no_data bt bd bs None) as (c & Hc & Hwire); [auto|].
    assert (wire = [x55; xff; bt; bd; bs; x00; x00; c]) as -> by congruence.
    apply (Hheader bt bd bs x00 x00 c [] Hc);
      [apply lookup_lt_Some in Hlookup; simpl in Hlookup; lia | exact Hlookup].
Qed.

Lemma corrupted_frame_is_rejected_witness :
  build_frame 5 6 3 (Some [x01; x02])
  = Some [x55; xff; x05; x06; x03; x00; x02; x05; x01; x02; x8d; x35] /\
  returned (parse_frame (<[9%nat:=x03]> [x55; xff; x05; x06; x03; x00; x02; x05;
                                          x01; x02; x8d; x35] ++ [x55; xff])) = None /\
  logged (parse_frame (<[9%nat:=x03]> [x55; xff; x05; x06; x03; x00; x02; x05;
                                        x01; x02; x8d; x35] ++ [x55; xff]))
  = Some DataCrcError.
Proof.
  assert (build_frame 5 6 3 (Some [x01; x02])
          = Some [x55; xff; x05; x06; x03; x00; x02; x05; x01; x02; x8d; x35]) as Hbuild
    by (vm_compute; reflexivity).
  split; [exact Hbuild|].
  destruct (corrupted_frame_is_rejected 5 6 3 (Some [x01; x02]) _ [x55; xff] 9 x02 x03
              Hbuild ltac:(vm_compute; discriminate) ltac:(lia) eq_refl
              ltac:(discriminate)) as (Hret & _ & _).
  split; [exact Hret|]. vm_compute. reflexivity.
Defined.

Lemma resync_after_header_crc_error_witness :
  let rest := [x55; xff; x00; x06; x03; x00; x00; x62] in
  let damaged := x55 :: xff :: x00 :: x06 :: x03 :: x00 :: x00 :: x63 :: rest in
  logged (parse_frame damaged) = Some (HeaderCrcError 0x62 0x63) /\
  fst (run_rx ([damaged] ++ repeat [] 16) []) = [(0, 6, 3, None)].
Proof.
  cbv zeta.
  destruct (resync_after_header_crc_error x00 x06 x03 x00 x00 x63
              [x55; xff; x00; x06; x03; x00; x00; x62] 16) as [Hlogged Hrun].
  - vm_compute. discriminate.
  - intros Hin. repeat (apply elem_of_cons in Hin as [Hin|Hin]; [discriminate|]).
    now apply elem_of_nil in Hin.
  - simpl. lia.
  - split; [rewrite Hlogged; vm_compute; reflexivity|].
    rewrite Hrun. vm_compute. reflexivity.
Defined.

(** ** The station and the frames it handles *)

Lemma handle_frame_dispatch (t d src : Z) (data : option (list byte))
    (self : MstpSimulator) :
  handle_frame t d src data self = dispatch t d src data (discovered t d src self).
Proof.
  unfold handle_frame, dispatch, discovered.
  destruct (t =? FRAME_TOKEN); [|destruct (t =? FRAME_REPLY_TO_POLL)];
    run_steps; reflexivity.
Qed.

Lemma dispatch_keeps_ring (t d src : Z) (data : option (list byte)) :
  keeps_ring (dispatch t d src data).
Proof.
  unfold dispatch.
  keeps_ring_steps;
    solve [ apply handle_use_token_keeps_ring | apply send_frame_keeps_ring ].
Qed.

Lemma discovered_same (t d src : Z) (self : MstpSimulator) :
  mac (discovered t d src self) = mac self /\
  max_master (discovered t d src self) = max_master self /\
  state (discovered t d src self) = state self /\
  effects (discovered t d src self) = effects self /\
  frames_sent (discovered t d src self) = frames_sent self.
Proof.
  unfold discovered.
  repeat case_match;
    repeat match goal with
      | |- context [discover_master ?m ?s] =>
          destruct (discover_master_same m s) as (-> & -> & -> & -> & ->)
      end; repeat split.
Qed.

(** [build_frame] succeeds on bytes, whatever the payload. *)
Lemma build_frame_bytes (t d s : Z) (data : option (list byte)) :
  0 <= t < 256 -> 0 <= d < 256 -> 0 <= s < 256 ->
  exists wire, build_frame t d s data = Some wire.
Proof.
  intros Ht Hd Hs.
  destruct (byte_of_int_in_range t Ht) as (bt & _ & <-).
  destruct (byte_of_int_in_range d Hd) as (bd & _ & <-).
  destruct (byte_of_int_in_range s Hs) as (bs & _ & <-).
  destruct data as [[|a payload]|].
  - destruct (build_frame_no_data bt bd bs (Some [])) as (c & _ & ->); eauto.
  - destruct (build_frame_data_wire bt bd bs (a :: payload)) as (? & ? & ? & ? & ? & -> & _);
      [discriminate | eauto].
  - destruct (build_frame_no_data bt bd bs None) as (c & _ & ->); eauto.
Qed.

(** A frame for another station goes no further than the discovery
    step. *)
Lemma dispatch_not_for_us (t d src : Z) (data : option (list byte)) (s : MstpSimulator) :
  d <> mac s -> d <> 255 -> dispatch t d src data s = (Done tt, s).
Proof.
  intros Hmac Hbroadcast. unfold dispatch. run_steps.
  rewrite (proj2 (Z.eqb_neq _ _) Hmac), (proj2 (Z.eqb_neq _ _) Hbroadcast).
  reflexivity.
Qed.

Lemma for_us (d : Z) (s : MstpSimulator) :
  d = mac s \/ d = 255 -> negb (d =? mac s) && negb (d =? 255) = false.
Proof. intros [->| ->]; rewrite Z.eqb_refl; [reflexivity | apply andb_false_r]. Qed.

Lemma dispatch_token (d src : Z) (data : option (list byte)) (s : MstpSimulator) :
  d = mac s \/ d = 255 ->
  dispatch FRAME_TOKEN d src data s
  = handle_use_token (set_state USE_TOKEN (set_tokens_received (tokens_received s + 1) s)).
Proof.
  intros Hd. unfold dispatch. run_steps. rewrite (for_us d s Hd).
  change (FRAME_TOKEN =? FRAME_TOKEN) with true. run_steps. reflexivity.
Qed.

Lemma dispatch_poll (d src : Z) (data : option (list byte)) (s : MstpSimulator)
    (frame : list byte) :
  d = mac s \/ d = 255 ->
  build_frame FRAME_REPLY_TO_POLL src (mac s) None = Some frame ->
  dispatch FRAME_POLL_FOR_MASTER d src data s
  = (Done tt, sent frame (emit (Sleep T_REPLY_DELAY)
                            (set_polls_received (polls_received s + 1) s))).
Proof.
  intros Hd Hbuild. unfold dispatch. run_steps. rewrite (for_us d s Hd).
  change (FRAME_POLL_FOR_MASTER =? FRAME_TOKEN) with false.
  change (FRAME_POLL_FOR_MASTER =? FRAME_POLL_FOR_MASTER) with true. run_steps.
  now rewrite (send_frame_built FRAME_REPLY_TO_POLL src None frame).
Qed.

Lemma dispatch_test_request (d src : Z) (data : option (list byte)) (s : MstpSimulator)
    (frame : list byte) :
  d = mac s \/ d = 255 ->
  build_frame FRAME_TEST_RESPONSE src (mac s) data = Some frame ->
  dispatch FRAME_TEST_REQUEST d src data s
  = (Done tt, sent frame (emit (Sleep T_REPLY_DELAY) s)).
Proof.
  intros Hd Hbuild. unfold dispatch. run_steps. rewrite (for_us d s Hd).
  change (FRAME_TEST_REQUEST =? FRAME_TOKEN) with false.
  change (FRAME_TEST_REQUEST =? FRAME_POLL_FOR_MASTER) with false.
  change (FRAME_TEST_REQUEST =? FRAME_BACNET_DATA_EXPECTING_REPLY) with false.
  change (FRAME_TEST_REQUEST =? FRAME_BACNET_DATA_NOT_EXPECTING_REPLY) with false.
  change (FRAME_TEST_REQUEST =? FRAME_TEST_REQUEST) with true. run_steps.
  now rewrite (send_frame_built FRAME_TEST_RESPONSE src data frame).
Qed.

(** The frame types that make the station send nothing: all but Token,
    Poll-For-Master and Test_Request. *)
Lemma dispatch_quiet (t d src : Z) (data : option (list byte)) (s : MstpSimulator) :
  t <> FRAME_TOKEN -> t <> FRAME_POLL_FOR_MASTER -> t <> FRAME_TEST_REQUEST ->
  dispatch t d src data s
  = (Done tt,
     if negb (negb (d =? mac s) && negb (d =? 255))
        && ((t =? FRAME_BACNET_DATA_EXPECTING_REPLY)
            || (t =? FRAME_BACNET_DATA_NOT_EXPECTING_REPLY))
     then set_data_frames_received (data_frames_received s + 1) s
     else s).
Proof.
  intros Htoken Hpoll Htest. unfold dispatch. run_steps.
  destruct (negb (d =? mac s) && negb (d =? 255)); [reflexivity|].
  rewrite (proj2 (Z.eqb_neq _ _) Htoken), (proj2 (Z.eqb_neq _ _) Hpoll),
    (proj2 (Z.eqb_neq _ _) Htest).
  destruct (t =? FRAME_BACNET_DATA_EXPECTING_REPLY); [run_steps; reflexivity|].
  destruct (t =? FRAME_BACNET_DATA_NOT_EXPECTING_REPLY); run_steps; reflexivity.
Qed.

(** The discovery step changes [known_masters] and [next_station] and
    nothing else. *)
Lemma discover_master_shape (m : Z) (self : MstpSimulator) :
  exists K v, discover_master m self = set_next_station v (set_known_masters K self).
Proof.
  unfold discover_master. case_match.
  - unfold _update_next_station. repeat case_match; eexists _, _; reflexivity.
  - exists (known_masters self), (next_station self). now destruct self.
Qed.

Lemma discovered_shape (t d src : Z) (self : MstpSimulator) :
  exists K v, discovered t d src self = set_next_station v (set_known_masters K self).
Proof.
  unfold discovered.
  destruct (discover_master_shape src self) as (K1 & v1 & ->).
  repeat case_match;
    first [ destruct (discover_master_shape
                        d (set_next_station v1 (set_known_masters K1 self)))
              as (K2 & v2 & ->)
          | destruct (discover_master_shape
                        src (set_next_station v1 (set_known_masters K1 self)))
              as (K2 & v2 & ->)
          | idtac ];
    eexists _, _; reflexivity.
Qed.

Lemma discovered_in_range (t d src : Z) (self : MstpSimulator) :
  0 <= d < 256 -> 0 <= src < 256 -> addresses_in_range self ->
  addresses_in_range (discovered t d src self).
Proof.
  intros Hd Hsrc Hrange. unfold discovered.
  repeat case_match; auto using discover_master_in_range.
Qed.

Lemma same_ring_in_range (s s' : MstpSimulator) :
  same_ring s s' -> addresses_in_range s -> addresses_in_range s'.
Proof.
  unfold same_ring, addresses_in_range. intros (-> & -> & -> & ->). auto.
Qed.

Lemma written_app (l l' : list effect) : written (l ++ l') = written l ++ written l'.
Proof.
  induction l as [|[frame| |us] l IH]; cbn [app written]; [reflexivity | | assumption..].
  now rewrite IH.
Qed.

(** What a frame does to the counters of frames sent and of tokens received
    and used, when its addresses are bytes. *)
Lemma handle_frame_outcome (t d src : Z) (data : option (list byte))
    (s : MstpSimulator) :
  addresses_in_range s -> 0 <= t < 256 -> 0 <= d < 256 -> 0 <= src < 256 ->
  exists s',
    handle_frame t d src data s = (Done tt, s') /\
    same_ring (discovered t d src s) s' /\
    frames_sent s' - Z.of_nat (length (written (effects s')))
    = frames_sent s - Z.of_nat (length (written (effects s))) /\
    tokens_received s' - token_count s' = tokens_received s - token_count s.
Proof.
  intros Hrange Ht Hd Hsrc. rewrite handle_frame_dispatch.
  pose proof (discovered_in_range t d src s Hd Hsrc Hrange) as (Hmac & Hmax & _ & Hnext).
  destruct (discovered_shape t d src s) as (K & v & Hshape).
  rewrite Hshape in *. clear Hshape.
  set (S := set_next_station v (set_known_masters K s)) in *.
  assert (forall frame,
            frames_sent (sent frame S)
            - Z.of_nat (length (written (effects (sent frame S))))
            = frames_sent s - Z.of_nat (length (written (effects s)))) as Hsent.
  { intros frame. cbn. rewrite !written_app, !length_app. cbn. lia. }
  destruct (decide (d = mac S \/ d = 255)) as [Hus|Hother]; cycle 1.
  { exists S. rewrite dispatch_not_for_us by tauto. repeat split. }
  destruct (decide (t = FRAME_TOKEN)) as [->|Htoken].
  { rewrite dispatch_token by exact Hus.
    set (held := set_state USE_TOKEN (set_tokens_received (tokens_received S + 1) S)).
    destruct (next_station S) as [n|] eqn:Hn.
    - destruct (build_frame_bytes FRAME_TOKEN n (mac S) None) as (frame & Hbuild);
        [unfold FRAME_TOKEN; lia | exact (Hnext n eq_refl) | exact Hmac |].
      exists (set_state IDLE (sent frame (counted held))).
      rewrite (handle_use_token_known held n frame Hn Hbuild).
      split; [reflexivity|]. split; [repeat split|].
      split; [|cbn; lia].
      rewrite <- (Hsent frame). cbn. reflexivity.
    - destruct (build_frame_bytes FRAME_POLL_FOR_MASTER
                  ((mac S + 1) `mod` (max_master S + 1)) (mac S) None)
        as (frame & Hbuild);
        [ unfold FRAME_POLL_FOR_MASTER; lia
        | pose proof (Z.mod_pos_bound (mac S + 1) (max_master S + 1)); lia
        | exact Hmac |].
      exists (set_state IDLE (emit (Sleep T_USAGE_TIMEOUT) (sent frame (counted held)))).
      rewrite (handle_use_token_unknown held frame Hn ltac:(cbn in *; lia) Hbuild).
      split; [reflexivity|]. split; [repeat split|].
      split; [|cbn; lia].
      rewrite <- (Hsent frame). cbn. rewrite !written_app, !length_app. cbn. lia. }
  destruct (decide (t = FRAME_POLL_FOR_MASTER)) as [->|Hpoll].
  { destruct (build_frame_bytes FRAME_REPLY_TO_POLL src (mac S) None) as (frame & Hbuild);
      [unfold FRAME_REPLY_TO_POLL; lia | exact Hsrc | exact Hmac |].
    rewrite (dispatch_poll d src data S frame Hus Hbuild).
    eexists. split; [reflexivity|]. split; [repeat split|].
    split; [|cbn; lia].
    rewrite <- (Hsent frame). cbn. rewrite !written_app, !length_app. cbn. lia. }
  destruct (decide (t = FRAME_TEST_REQUEST)) as [->|Htest].
  { destruct (build_frame_bytes FRAME_TEST_RESPONSE src (mac S) data) as (frame & Hbuild);
      [unfold FRAME_TEST_RESPONSE; lia | exact Hsrc | exact Hmac |].
    rewrite (dispatch_test_request d src data S frame Hus Hbuild).
    eexists. split; [reflexivity|]. split; [repeat split|].
    split; [|cbn; lia].
    rewrite <- (Hsent frame). cbn. rewrite !written_app, !length_app. cbn. lia. }
  rewrite dispatch_quiet by assumption.
  eexists. split; [reflexivity|].
  case_match; repeat split.
Qed.

(** *** Answers *)

(** X10: Poll-For-Master for this station (or broadcast), the addresses
    being bytes: the station counts the poll, waits [T_REPLY_DELAY] and answers the source with one
    Reply-To-Poll-For-Master frame; its state is unchanged, and the ring
    attributes are those after discovery of the source. *)
Theorem poll_for_master_is_answered (self : MstpSimulator) (dest src : Z)
    (data : option (list byte)) :
  addresses_in_range self -> 0 <= src < 256 ->
  dest = mac self \/ dest = 255 ->
  exists (self' : MstpSimulator) (frame : list byte),
    handle_frame FRAME_POLL_FOR_MASTER dest src data self = (Done tt, self') /\
    build_frame FRAME_REPLY_TO_POLL src (mac self) None = Some frame /\
    parse_frame frame
    = ParseStep (Some (FRAME_REPLY_TO_POLL, src, mac self, None)) None [] /\
    effects self' = effects self ++ [Sleep T_REPLY_DELAY; SerWrite frame; SerFlush] /\
    polls_received self' = polls_received self + 1 /\
    frames_sent self' = frames_sent self + 1 /\
    state self' = state self /\
    known_masters self' = known_masters (discover_master src self) /\
    next_station self' = next_station (discover_master src self).
Proof.
  intros (Hmac & _) Hsrc Hus.
  destruct (control_frame FRAME_REPLY_TO_POLL src (mac self))
    as (frame & Hbuild & Hparse); [unfold FRAME_REPLY_TO_POLL; lia | assumption..|].
  rewrite handle_frame_dispatch.
  assert (discovered FRAME_POLL_FOR_MASTER dest src self = discover_master src self)
    as -> by reflexivity.
  destruct (discover_master_same src self) as (Emac & _ & Estate & Eeff & Esent).
  destruct (discover_master_shape src self) as (K & v & Hshape).
  rewrite (dispatch_poll dest src data (discover_master src self) frame);
    [| rewrite Emac; exact Hus | rewrite Emac; exact Hbuild].
  eexists _, frame. split; [reflexivity|].
  split; [exact Hbuild|]. split; [exact Hparse|].
  split; [cbn; rewrite Eeff, <- !app_assoc; reflexivity|].
  split; [rewrite Hshape; reflexivity|].
  split; [cbn; rewrite Esent; reflexivity|].
  split; [exact Estate|]. split; reflexivity.
Qed.

Lemma poll_for_master_is_answered_witness :
  addresses_in_range (init 3 127) /\
  exists (self' : MstpSimulator) (frame : list byte),
    handle_frame FRAME_POLL_FOR_MASTER 3 6 None (init 3 127) = (Done tt, self') /\
    parse_frame frame = ParseStep (Some (FRAME_REPLY_TO_POLL, 6, 3, None)) None [] /\
    effects self' = [Sleep T_REPLY_DELAY; SerWrite frame; SerFlush] /\
    known_masters self' = {[6]}.
Proof.
  assert (addresses_in_range (init 3 127)) as Hrange.
  { unfold addresses_in_range. simpl.
    repeat split; try lia; try (intros m Hm; set_solver); discriminate. }
  split; [exact Hrange|].
  destruct (poll_for_master_is_answered (init 3 127) 3 6 None Hrange
              ltac:(lia) ltac:(left; reflexivity))
    as (self' & frame & Hrun & _ & Hparse & Heff & _ & _ & _ & Hknown & _).
  exists self', frame. split; [exact Hrun|]. split; [exact Hparse|].
  split; [exact Heff|]. rewrite Hknown. vm_compute. reflexivity.
Defined.

(** X11: Test_Request for this station (or broadcast), the addresses
    being bytes and the payload within the length field: the station waits
    [T_REPLY_DELAY] and sends the payload back to the source in one
    Test_Response frame, which [parse_frame] decodes with that payload. *)
Theorem test_request_is_echoed (self : MstpSimulator) (dest src : Z)
    (data : option (list byte)) :
  addresses_in_range self -> 0 <= src < 256 ->
  dest = mac self \/ dest = 255 ->
  payload_length data <= 65535 ->
  exists (self' : MstpSimulator) (frame : list byte),
    handle_frame FRAME_TEST_REQUEST dest src data self = (Done tt, self') /\
    build_frame FRAME_TEST_RESPONSE src (mac self) data = Some frame /\
    parse_frame frame
    = ParseStep (Some (FRAME_TEST_RESPONSE, src, mac self, decoded_payload data))
                None [] /\
    effects self' = effects self ++ [Sleep T_REPLY_DELAY; SerWrite frame; SerFlush] /\
    frames_sent self' = frames_sent self + 1 /\
    state self' = state self /\
    known_masters self' = known_masters (discover_master src self) /\
    next_station self' = next_station (discover_master src self).
Proof.
  intros (Hmac & _) Hsrc Hus Hfits.
  destruct (byte_of_int_in_range src Hsrc) as (bs & _ & <-).
  destruct (byte_of_int_in_range (mac self) Hmac) as (bm & _ & Hbm).
  destruct (build_frame_parse_frame x04 bs bm data Hfits)
    as (frame & Hbuild & _ & Hparse).
  change (byte_val x04) with FRAME_TEST_RESPONSE in Hbuild, Hparse.
  rewrite Hbm in Hbuild, Hparse.
  rewrite handle_frame_dispatch.
  assert (discovered FRAME_TEST_REQUEST dest (byte_val bs) self
          = discover_master (byte_val bs) self) as -> by reflexivity.
  destruct (discover_master_same (byte_val bs) self)
    as (Emac & _ & Estate & Eeff & Esent).
  rewrite (dispatch_test_request dest (byte_val bs) data
             (discover_master (byte_val bs) self) frame);
    [| rewrite Emac; exact Hus | rewrite Emac; exact Hbuild].
  eexists _, frame. split; [reflexivity|].
  split; [exact Hbuild|]. split; [exact Hparse|].
  split; [cbn; rewrite Eeff, <- !app_assoc; reflexivity|].
  split; [cbn; rewrite Esent; reflexivity|].
  split; [exact Estate|]. split; reflexivity.
Qed.

Lemma test_request_is_echoed_witness :
  addresses_in_range (init 3 127) /\
  exists (self' : MstpSimulator) (frame : list byte),
    handle_frame FRAME_TEST_REQUEST 255 6 (Some [x01; x02]) (init 3 127)
    = (Done tt, self') /\
    parse_frame frame
    = ParseStep (Some (FRAME_TEST_RESPONSE, 6, 3, Some [x01; x02])) None [] /\
    effects self' = [Sleep T_REPLY_DELAY; SerWrite frame; SerFlush].
Proof.
  assert (addresses_in_range (init 3 127)) as Hrange.
  { unfold addresses_in_range. simpl.
    repeat split; try lia; try (intros m Hm; set_solver); discriminate. }
  split; [exact Hrange|].
  destruct (test_request_is_echoed (init 3 127) 255 6 (Some [x01; x02]) Hrange
              ltac:(lia) ltac:(right; reflexivity) ltac:(vm_compute; discriminate))
    as (self' & frame & Hrun & _ & Hparse & Heff & _).
  exists self', frame. auto.
Defined.

(** X12: a frame for another station, and a frame of a type other than
    Token, Poll-For-Master and Test_Request, makes the station send
    nothing: no write to the port, no sleep, the state unchanged; the
    frame's addresses still go through master discovery. *)
Theorem other_frames_are_not_answered (self : MstpSimulator) (t d src : Z)
    (data : option (list byte)) :
  (d <> mac self /\ d <> 255) \/
  (t <> FRAME_TOKEN /\ t <> FRAME_POLL_FOR_MASTER /\ t <> FRAME_TEST_REQUEST) ->
  exists self' : MstpSimulator,
    handle_frame t d src data self = (Done tt, self') /\
    effects self' = effects self /\
    frames_sent self' = frames_sent self /\
    state self' = state self /\
    known_masters self' = known_masters (discovered t d src self) /\
    next_station self' = next_station (discovered t d src self).
Proof.
  intros Hcase. rewrite handle_frame_dispatch.
  destruct (discovered_same t d src self) as (Emac & _ & Estate & Eeff & Esent).
  destruct Hcase as [[Hmac Hbroadcast] | (Htoken & Hpoll & Htest)].
  - rewrite dispatch_not_for_us by (rewrite ?Emac; assumption).
    eexists. split; [reflexivity|]. auto.
  - rewrite dispatch_quiet by assumption.
    eexists. split; [reflexivity|].
    case_match; cbn; auto.
Qed.

Lemma other_frames_are_not_answered_witness :
  exists self' : MstpSimulator,
    handle_frame FRAME_BACNET_DATA_EXPECTING_REPLY 3 6 (Some [x01]) (init 3 127)
    = (Done tt, self') /\
    effects self' = [] /\ data_frames_received self' = 1.
Proof.
  destruct (other_frames_are_not_answered (init 3 127)
              FRAME_BACNET_DATA_EXPECTING_REPLY 3 6 (Some [x01]))
    as (self' & Hrun & Heff & _).
  - right. repeat split; discriminate.
  - exists self'. split; [exact Hrun|]. split; [exact Heff|].
    assert (snd (handle_frame FRAME_BACNET_DATA_EXPECTING_REPLY 3 6 (Some [x01])
                              (init 3 127)) = self') as <- by now rewrite Hrun.
    vm_compute. reflexivity.
Defined.

(** *** The ring *)

Lemma update_next_station_same_known (self : MstpSimulator) :
  exists v, _update_next_station self = set_next_station v self.
Proof. unfold _update_next_station. repeat case_match; eexists; reflexivity. Qed.

Lemma not_elem_of_add (a b : Z) (K : gset Z) : a <> b -> a ∉ K -> a ∉ {[b]} ∪ K.
Proof.
  intros Hab Ha [Hin%elem_of_singleton | Hin]%elem_of_union; contradiction.
Qed.

Lemma elem_of_add (a b : Z) (K : gset Z) : a ∈ K -> a ∈ {[b]} ∪ K.
Proof. apply elem_of_union_r. Qed.

Lemma elem_of_add_same (a : Z) (K : gset Z) : a ∈ {[a]} ∪ K.
Proof. apply elem_of_union_l, elem_of_singleton. reflexivity. Qed.

Lemma add_add (a b : Z) (K : gset Z) : {[a]} ∪ ({[b]} ∪ K) = {[b]} ∪ ({[a]} ∪ K).
Proof. apply set_eq. intros x. rewrite !elem_of_union. tauto. Qed.

(** X13: the masters a station knows and the station it passes the token
    to do not depend on the order in which two addresses are discovered,
    and discovering an address again changes nothing. *)
Theorem discovery_order_does_not_matter (a b : Z) (self : MstpSimulator) :
  discover_master a (discover_master b self)
  = discover_master b (discover_master a self) /\
  discover_master a (discover_master a self) = discover_master a self.
Proof.
  split.
  - destruct (decide (a = b)) as [->|Hab]; [reflexivity|].
    unfold discover_master at 2 4.
    destruct (negb (b =? mac self) && (b <=? max_master self)
              && negb (bool_decide (b ∈ known_masters self))) eqn:Hb;
      destruct (negb (a =? mac self) && (a <=? max_master self)
                && negb (bool_decide (a ∈ known_masters self))) eqn:Ha.
    + (* both are new *)
      destruct (update_next_station_same_known
                  (set_known_masters ({[b]} ∪ known_masters self) self)) as (vb & ->).
      destruct (update_next_station_same_known
                  (set_known_masters ({[a]} ∪ known_masters self) self)) as (va & ->).
      unfold discover_master. cbn [mac max_master known_masters set_next_station
                                   set_known_masters].
      apply andb_prop in Ha as [Ha Ha3]. apply andb_prop in Ha as [Ha1 Ha2].
      apply andb_prop in Hb as [Hb Hb3]. apply andb_prop in Hb as [Hb1 Hb2].
      rewrite Ha1, Ha2, Hb1, Hb2. cbn [andb].
      apply negb_true_iff, bool_decide_eq_false in Ha3, Hb3.
      rewrite (bool_decide_eq_false_2 (a ∈ {[b]} ∪ known_masters self))
        by (apply not_elem_of_add; assumption).
      rewrite (bool_decide_eq_false_2 (b ∈ {[a]} ∪ known_masters self))
        by (apply not_elem_of_add; [apply not_eq_sym|]; assumption).
      cbn [negb]. rewrite (add_add a b).
      destruct self. reflexivity.
    + (* only [b] is new *)
      destruct (update_next_station_same_known
                  (set_known_masters ({[b]} ∪ known_masters self) self)) as (vb & Hvb).
      rewrite Hvb. unfold discover_master at 1 2.
      cbn [mac max_master known_masters set_next_station set_known_masters].
      rewrite Hb.
      assert (negb (a =? mac self) && (a <=? max_master self)
              && negb (bool_decide (a ∈ ({[b]} ∪ known_masters self : gset Z))) = false)
        as ->; [|now rewrite Hvb].
      apply andb_false_iff in Ha as [Ha| Ha]; [now rewrite Ha|].
      apply andb_false_iff. right.
      apply negb_false_iff, bool_decide_eq_true in Ha.
      apply negb_false_iff, bool_decide_eq_true, elem_of_add, Ha.
    + (* only [a] is new *)
      destruct (update_next_station_same_known
                  (set_known_masters ({[a]} ∪ known_masters self) self)) as (va & Hva).
      rewrite Hva. unfold discover_master at 1 2.
      cbn [mac max_master known_masters set_next_station set_known_masters].
      rewrite Ha.
      assert (negb (b =? mac self) && (b <=? max_master self)
              && negb (bool_decide (b ∈ ({[a]} ∪ known_masters self : gset Z))) = false)
        as ->; [|now rewrite Hva].
      apply andb_false_iff in Hb as [Hb| Hb]; [now rewrite Hb|].
      apply andb_false_iff. right.
      apply negb_false_iff, bool_decide_eq_true in Hb.
      apply negb_false_iff, bool_decide_eq_true, elem_of_add, Hb.
    + unfold discover_master. now rewrite Ha, Hb.
  - unfold discover_master at 2.
    destruct (negb (a =? mac self) && (a <=? max_master self)
              && negb (bool_decide (a ∈ known_masters self))) eqn:Ha.
    + destruct (update_next_station_same_known
                  (set_known_masters ({[a]} ∪ known_masters self) self)) as (va & Hva).
      rewrite Hva. unfold discover_master.
      cbn [mac max_master known_masters set_next_station set_known_masters].
      rewrite (bool_decide_eq_true_2 (a ∈ ({[a]} ∪ known_masters self : gset Z)))
        by apply elem_of_add_same.
      cbn [negb]. rewrite andb_false_r, Ha, Hva. reflexivity.
    + unfold discover_master. now rewrite Ha.
Qed.

(** A property of the station that only the discovery step can change
    holds after every operation. *)
Lemma perform_preserves (I : MstpSimulator -> Prop) (op : operation)
    (self : MstpSimulator) :
  (forall s s', same_ring s s' -> I s -> I s') ->
  (forall m s, I s -> I (discover_master m s)) ->
  (forall s, I s -> I (_update_next_station s)) ->
  I self -> I (perform op self).
Proof.
  intros Hring Hdiscover Hupdate Hself. destruct op; cbn [perform].
  - now apply Hdiscover.
  - now apply Hupdate.
  - eapply Hring; [apply send_frame_keeps_ring | exact Hself].
  - eapply Hring; [apply handle_use_token_keeps_ring | exact Hself].
  - rewrite handle_frame_dispatch.
    eapply Hring; [apply dispatch_keeps_ring|].
    unfold discovered. repeat case_match; auto.
Qed.

Lemma operations_preserve (I : MstpSimulator -> Prop) (ops : list operation)
    (self : MstpSimulator) :
  (forall op s, I s -> I (perform op s)) ->
  I self -> I (fold_left (fun s op => perform op s) ops self).
Proof.
  intros Hop. revert self.
  induction ops as [|op ops IH]; intros self Hself; cbn [fold_left]; auto.
Qed.

Lemma discover_master_valid (m : Z) (self : MstpSimulator) :
  masters_valid self -> masters_valid (discover_master m self).
Proof.
  intros Hvalid. unfold discover_master.
  destruct (negb (m =? mac self) && (m <=? max_master self)
            && negb (bool_decide (m ∈ known_masters self))) eqn:Hm; [|exact Hvalid].
  apply andb_prop in Hm as [Hm _]. apply andb_prop in Hm as [Hm1 Hm2].
  apply negb_true_iff, Z.eqb_neq in Hm1. apply Z.leb_le in Hm2.
  destruct (update_next_station_same_known
              (set_known_masters ({[m]} ∪ known_masters self) self)) as (v & ->).
  intros x Hx. cbn in *.
  apply elem_of_union in Hx as [->%elem_of_singleton | Hx]; auto.
Qed.

(** X14: the station never takes itself for a master: after every
    sequence of operations on a fresh station, every known master is an
    address other than its own and at most [max_master], and [next_station]
    is not its own address. *)
Theorem station_never_addresses_itself (mac_address max_master_ : Z)
    (ops : list operation) :
  let self := fold_left (fun s op => perform op s) ops (init mac_address max_master_) in
  (forall m, m ∈ known_masters self -> m <> mac self /\ m <= max_master self) /\
  next_station self <> Some (mac self).
Proof.
  cbv zeta.
  assert (masters_valid
            (fold_left (fun s op => perform op s) ops (init mac_address max_master_)))
    as Hvalid.
  { apply operations_preserve.
    - intros op s. apply perform_preserves.
      + unfold same_ring, masters_valid. intros s1 s2 (-> & -> & -> & _). auto.
      + intros m s0. apply discover_master_valid.
      + intros s0 Hs0.
        destruct (update_next_station_same_known s0) as (v & ->). exact Hs0.
    - intros m Hm. cbn in Hm. now apply elem_of_empty in Hm. }
  assert (next_station_invariant
            (fold_left (fun s op => perform op s) ops (init mac_address max_master_)))
    as Hinv.
  { apply operations_preserve; [intros op s; apply perform_invariant | reflexivity]. }
  split; [exact Hvalid|].
  intros Hnext. apply (invariant_next_known _ _ Hinv) in Hnext.
  now destruct (Hvalid _ Hnext).
Qed.

(** *** The loop *)

Lemma process_rx_buffer (in_waiting rx_buffer : list byte) :
  snd (process_rx in_waiting rx_buffer) = rx_buffer ++ in_waiting.
Proof.
  unfold process_rx. destruct in_waiting; [now rewrite app_nil_r | reflexivity].
Qed.

Lemma same_ring_sym (s s' : MstpSimulator) : same_ring s s' -> same_ring s' s.
Proof. unfold same_ring. intuition congruence. Qed.

(** The discovery step reads and writes the ring attributes only. *)
Lemma discover_master_ring (m : Z) (s1 s2 : MstpSimulator) :
  same_ring s1 s2 -> same_ring (discover_master m s1) (discover_master m s2).
Proof.
  destruct s1, s2. unfold same_ring. cbn. intros (? & ? & ? & ?). subst.
  unfold discover_master, _update_next_station. cbn.
  repeat case_match; repeat split; congruence.
Qed.

Lemma handle_frame_ring (t d src : Z) (data : option (list byte))
    (s1 s2 : MstpSimulator) :
  same_ring s1 s2 ->
  same_ring (snd (handle_frame t d src data s1)) (snd (handle_frame t d src data s2)).
Proof.
  intros Hring. rewrite !handle_frame_dispatch.
  eapply same_ring_trans; [apply same_ring_sym, dispatch_keeps_ring|].
  eapply same_ring_trans; [|apply dispatch_keeps_ring].
  unfold discovered. repeat case_match; auto using discover_master_ring.
Qed.

Lemma handle_frames_ring (fs : list frame) (s1 s2 : MstpSimulator) :
  same_ring s1 s2 -> same_ring (handle_frames fs s1) (handle_frames fs s2).
Proof.
  unfold handle_frames. revert s1 s2.
  induction fs as [|[[[t d] src] data] fs IH]; intros s1 s2 Hring; cbn [fold_left];
    [exact Hring|].
  apply IH, handle_frame_ring, Hring.
Qed.

(** The addresses of a frame that [parse_frame] returns are bytes. *)
Lemma parse_frame_returned_bytes (buf : list byte) (t d s : Z)
    (data : option (list byte)) :
  returned (parse_frame buf) = Some (t, d, s, data) ->
  0 <= t < 256 /\ 0 <= d < 256 /\ 0 <= s < 256.
Proof.
  intros Hret.
  destruct (parse_frame_returned_header buf t d s data Hret)
    as (k & c2 & c3 & c4 & c5 & c6 & c7 & rest & _ & -> & -> & -> & _).
  auto using byte_val_range.
Qed.

(** The loop with a station whose addresses are bytes: no pass raises. *)
Lemma run_outcome (reads : list (list byte)) (rx : list byte) (s : MstpSimulator) :
  addresses_in_range s ->
  exists s',
    run reads rx s = (Done (snd (run_rx reads rx)), s') /\
    same_ring (handle_frames (fst (run_rx reads rx)) s) s' /\
    frames_sent s' - Z.of_nat (length (written (effects s')))
    = frames_sent s - Z.of_nat (length (written (effects s))) /\
    tokens_received s' - token_count s' = tokens_received s - token_count s.
Proof.
  revert rx s. induction reads as [|chunk reads IH]; intros rx s Hrange.
  { exists s. repeat split. }
  rewrite run_rx_cons. cbn [run fst snd]. rewrite process_rx_buffer.
  destruct (returned (parse_frame (rx ++ chunk))) as [[[[t d] src] data]|] eqn:Hret.
  - destruct (parse_frame_returned_bytes _ _ _ _ _ Hret) as (Ht & Hd & Hsrc).
    destruct (handle_frame_outcome t d src data s Hrange Ht Hd Hsrc)
      as (s1 & Hrun & Hring & Hsent & Htokens).
    rewrite run_bind, Hrun, run_bind, run_assign.
    assert (addresses_in_range (emit (Sleep 1000) s1)) as Hrange1.
    { apply (same_ring_in_range s1); [repeat split|].
      eapply same_ring_in_range; [exact Hring|].
      apply discovered_in_range; assumption. }
    destruct (IH (rx_after (parse_frame (rx ++ chunk))) _ Hrange1)
      as (s' & Hrun' & Hring' & Hsent' & Htokens').
    exists s'. split; [exact Hrun'|]. split; [|split].
    + cbn [with_returned]. unfold handle_frames in *. cbn [fold_left].
      rewrite Hrun. cbn [snd].
      eapply same_ring_trans; [|exact Hring'].
      apply (handle_frames_ring _ s1 (emit (Sleep 1000) s1)). repeat split.
    + rewrite Hsent', <- Hsent. cbn. rewrite written_app, app_nil_r. reflexivity.
    + rewrite Htokens', <- Htokens. reflexivity.
  - rewrite run_bind, run_ret, run_bind, run_assign.
    assert (addresses_in_range (emit (Sleep 1000) s)) as Hrange1
      by (apply (same_ring_in_range s); [repeat split | exact Hrange]).
    destruct (IH (rx_after (parse_frame (rx ++ chunk))) _ Hrange1)
      as (s' & Hrun' & Hring' & Hsent' & Htokens').
    exists s'. split; [exact Hrun'|]. split; [|split].
    + cbn [with_returned].
      eapply same_ring_trans; [|exact Hring'].
      apply (handle_frames_ring _ s (emit (Sleep 1000) s)). repeat split.
    + rewrite Hsent'. cbn. rewrite written_app, app_nil_r. reflexivity.
    + rewrite Htokens'. reflexivity.
Qed.

(** X15: the loop of [run] does not raise, whatever bytes arrive, when the
    station's own address and [max_master] are bytes: every pass ends, the
    receive buffer is the one [run_rx] computes, and the ring attributes
    ([known_masters], [next_station]) are those left by handling the
    decoded frames in order. *)
Theorem run_never_raises (mac_address max_master_ : Z) (reads : list (list byte)) :
  0 <= mac_address < 256 -> 0 <= max_master_ < 256 ->
  exists self' : MstpSimulator,
    run reads [] (init mac_address max_master_)
    = (Done (snd (run_rx reads [])), self') /\
    known_masters self'
    = known_masters (handle_frames (fst (run_rx reads [])) (init mac_address max_master_)) /\
    next_station self'
    = next_station (handle_frames (fst (run_rx reads [])) (init mac_address max_master_)) /\
    next_station_invariant self'.
Proof.
  intros Hmac Hmax.
  assert (addresses_in_range (init mac_address max_master_)) as Hrange.
  { unfold addresses_in_range. cbn.
    split; [exact Hmac|]. split; [exact Hmax|].
    split; [intros m Hm; now apply elem_of_empty in Hm | discriminate]. }
  destruct (run_outcome reads [] _ Hrange) as (s' & Hrun & Hring & _).
  exists s'. split; [exact Hrun|].
  pose proof Hring as (Emac & Emax & Eknown & Enext).
  split; [exact Eknown|]. split; [exact Enext|].
  apply (same_ring_invariant _ _ Hring), handle_frames_invariant. reflexivity.
Qed.

Lemma run_never_raises_witness :
  exists self' : MstpSimulator,
    run [[x55; xff; x00; x03; x02]; [x00; x00; x51]; []] [] (init 3 127)
    = (Done [], self') /\
    known_masters self' = {[2]} /\ next_station self' = Some 2.
Proof.
  destruct (run_never_raises 3 127 [[x55; xff; x00; x03; x02]; [x00; x00; x51]; []]
              ltac:(lia) ltac:(lia)) as (self' & Hrun & Hknown & Hnext & _).
  exists self'. split; [rewrite Hrun; vm_compute; reflexivity|].
  split; [rewrite Hknown | rewrite Hnext]; vm_compute; reflexivity.
Defined.

(** X16: the statistics that [run] prints at the end are consistent:
    started fresh with byte addresses, [frames_sent] is the number of frames
    written to the port and [tokens_received] the number of times the token
    was used, whatever bytes arrived. *)
Theorem run_statistics_are_consistent (mac_address max_master_ : Z)
    (reads : list (list byte)) :
  0 <= mac_address < 256 -> 0 <= max_master_ < 256 ->
  let self' := snd (run reads [] (init mac_address max_master_)) in
  frames_sent self' = Z.of_nat (length (written (effects self'))) /\
  tokens_received self' = token_count self'.
Proof.
  intros Hmac Hmax. cbv zeta.
  assert (addresses_in_range (init mac_address max_master_)) as Hrange.
  { unfold addresses_in_range. cbn.
    split; [exact Hmac|]. split; [exact Hmax|].
    split; [intros m Hm; now apply elem_of_empty in Hm | discriminate]. }
  destruct (run_outcome reads [] _ Hrange) as (s' & Hrun & _ & Hsent & Htokens).
  rewrite Hrun. cbn [snd]. cbn in Hsent, Htokens. lia.
Qed.

Lemma run_statistics_are_consistent_witness :
  let self' :=
    snd (run [[x55; xff; x00; x03; x02]; [x00; x00; x51]; []] [] (init 3 127)) in
  frames_sent self' = 1 /\ tokens_received self' = 1 /\
  frames_sent self' = Z.of_nat (length (written (effects self'))).
Proof.
  cbv zeta.
  destruct (run_statistics_are_consistent 3 127
              [[x55; xff; x00; x03; x02]; [x00; x00; x51]; []] ltac:(lia) ltac:(lia))
    as [Hsent Htokens].
  split; [vm_compute; reflexivity|]. split; [vm_compute; reflexivity | exact Hsent].
Defined.

(** ** The sniffer at work *)

(** The frame that [build_mstp_frame] returns, in full. *)
Lemma build_mstp_frame_wire (t d s : byte) (data : option (list byte)) :
  payload_length data <= 65535 ->
  exists (lh ll hc : byte) (crc : list byte),
    TestSender.build_mstp_frame (byte_val t) (byte_val d) (byte_val s) data
    = Some (x55 :: xff :: t :: d :: s :: lh :: ll :: hc :: default [] data ++ crc) /\
    length_field lh ll = payload_length data /\
    byte_val hc = TestSender.crc8_header [t; d; s; lh; ll] /\
    match data with
    | None => crc = []
    | Some payload =>
        exists c0 c1 : byte,
          crc = [c0; c1] /\
          Z.lor (Z.shiftl (byte_val c1) 8) (byte_val c0) = TestSender.crc16_data payload
    end.
Proof.
  intros Hfits. destruct data as [payload|].
  - unfold payload_length in *.
    destruct (length_field_encode (Z.of_nat (length payload)))
      as (lh & ll & Hlh & Hll & Hfield); [lia|].
    destruct (bytes_of_ints_one _ (sender_crc8_header_range [t; d; s; lh; ll]))
      as (hc & Hhc & Vhc).
    destruct (pack_le_u16_decode _ (sender_crc16_data_range payload))
      as (c0 & c1 & Hpack & Vpack).
    exists lh, ll, hc, [c0; c1]. split; [|split; [exact Hfield|split; [exact Vhc|]]].
    + unfold TestSender.build_mstp_frame. cbv zeta.
      cbn [bytes_of_ints]. rewrite !byte_of_int_val, Hlh, Hll, bind_Some.
      fold (bytes_of_ints [TestSender.crc8_header [t; d; s; lh; ll]]).
      rewrite Hhc, bind_Some, Hpack, bind_Some. reflexivity.
    + exists c0, c1. split; [reflexivity|]. now rewrite Z.lor_comm.
  - destruct (bytes_of_ints_one _ (sender_crc8_header_range [t; d; s; x00; x00]))
      as (hc & Hhc & Vhc).
    exists x00, x00, hc, []. split; [|split; [reflexivity|split; [exact Vhc|reflexivity]]].
    unfold TestSender.build_mstp_frame.
    change 0x00 with (byte_val x00).
    rewrite bytes_of_ints_header, bind_Some, Hhc, bind_Some. reflexivity.
Qed.

(** From a fresh sniffer, a header with a valid CRC and length 0 is a
    frame. *)
Lemma sniffer_control_frame (v : bool) (t d s lh ll hc : byte) :
  Sniffer.crc8 [t; d; s; lh; ll] = byte_val hc ->
  length_field lh ll = 0 ->
  Sniffer.process_bytes (Sniffer.init v) [x55; xff; t; d; s; lh; ll; hc]
  = ([(Sniffer.format_frame 1 (byte_val t) (byte_val d) (byte_val s) 0 [], None)],
     Sniffer.mkSniffer v [] 1 Sniffer.IDLE (byte_val t) (byte_val d) (byte_val s)
                       0 (byte_val hc) [] 0 []).
Proof.
  intros Hcrc Hlen.
  change [x55; xff; t; d; s; lh; ll; hc] with ([x55; xff; t; d; s; lh; ll] ++ [hc]).
  rewrite sniffer_process_bytes_app, sniffer_header_bytes.
  cbn [fst snd app Sniffer.process_bytes].
  rewrite sniffer_header_crc_byte.
  rewrite Hcrc. rewrite Z.eqb_refl. rewrite Hlen.
  reflexivity.
Qed.

(** X17: what the sniffer makes of the frames of the test sender: a frame
    built by [build_mstp_frame] is shown as one frame, numbered 1, with the
    fields and the payload it was built from, and no CRC complaint is
    printed even in verbose mode; the sniffer is idle afterwards. *)
Theorem sender_frames_are_shown_by_sniffer (v : bool) (t d s : byte)
    (data : option (list byte)) :
  payload_length data <= 65535 ->
  exists (wire : list byte) (self' : Sniffer.MstpSniffer),
    TestSender.build_mstp_frame (byte_val t) (byte_val d) (byte_val s) data = Some wire /\
    Sniffer.process_bytes (Sniffer.init v) wire
    = ([(Sniffer.format_frame 1 (byte_val t) (byte_val d) (byte_val s)
                              (payload_length data) (default [] data),
         decoded_payload data)],
       self') /\
    Sniffer.state self' = Sniffer.IDLE /\ Sniffer.buffer self' = [] /\
    Sniffer.printed self' = [] /\ Sniffer.frame_count self' = 1.
Proof.
  intros Hfits.
  destruct (build_mstp_frame_wire t d s data Hfits)
    as (lh & ll & hc & crc & Hwire & Hfield & Hhc & Hcrc).
  rewrite <- sniffer_crc8_eq in Hhc. symmetry in Hhc.
  change (x55 :: xff :: t :: d :: s :: lh :: ll :: hc :: default [] data ++ crc)
    with ([x55; xff; t; d; s; lh; ll; hc] ++ default [] data ++ crc) in Hwire.
  destruct (Z.ltb_spec 0 (payload_length data)) as [Hpos|Hzero].
  - (* a payload follows *)
    destruct data as [payload|]; [|cbn in Hpos; lia].
    destruct Hcrc as (c0 & c1 & -> & Hcrc).
    change (default [] (Some payload)) with payload in *.
    cbn [payload_length] in *.
    assert (payload <> []) as Hne by (intros ->; cbn in Hpos; lia).
    eexists _. eexists. split; [exact Hwire|].
    rewrite sniffer_process_bytes_app,
      (sniffer_header v t d s lh ll hc Hhc ltac:(lia)).
    cbn [fst snd app]. rewrite Hfield.
    change (payload ++ [c0; c1]) with (payload ++ [c0] ++ [c1]).
    rewrite app_assoc, sniffer_process_bytes_app.
    rewrite sniffer_data_bytes by (rewrite length_app; cbn; lia).
    cbn [fst snd app Sniffer.process_bytes].
    rewrite sniffer_data_last by exact Hne.
    rewrite Hcrc, sniffer_crc16_eq, Z.eqb_refl.
    assert (decoded_payload (Some payload) = Some payload) as ->
      by (destruct payload; [congruence | reflexivity]).
    split; [reflexivity|]. cbn. repeat split.
  - (* the header is the frame *)
    assert (default [] data = [] /\ decoded_payload data = None) as [Hempty Hnone].
    { destruct data as [[|p payload]|]; cbn in *; auto; lia. }
    assert (payload_length data = 0) as Hlen
      by (destruct data as [payload|]; cbn in *; lia).
    assert (crc = [] \/ crc = [x00; x00]) as Hcases.
    { destruct data as [payload|]; [|now left]. right.
      destruct Hcrc as (c0 & c1 & -> & Hcrc).
      assert (payload = []) as -> by (destruct payload; [reflexivity | cbn in Hzero; lia]).
      change (TestSender.crc16_data []) with (Z.lor (Z.shiftl (byte_val x00) 8) (byte_val x00))
        in Hcrc.
      rewrite (Z.lor_comm _ (byte_val c0)), (Z.lor_comm _ (byte_val x00)) in Hcrc.
      apply data_crc_bytes_injective in Hcrc as [-> ->]. reflexivity. }
    rewrite Hempty, Hnone, Hlen in *. cbn [app] in *.
    eexists _. eexists. split; [exact Hwire|].
    change (x55 :: xff :: t :: d :: s :: lh :: ll :: hc :: crc)
      with ([x55; xff; t; d; s; lh; ll; hc] ++ crc).
    rewrite sniffer_process_bytes_app,
      (sniffer_control_frame v t d s lh ll hc Hhc Hfield).
    cbn [fst snd].
    destruct Hcases as [-> | ->]; (split; [reflexivity|]); cbn; repeat split.
Qed.

Lemma sender_frames_are_shown_by_sniffer_witness :
  payload_length (Some [x01; x02]) <= 65535 /\
  exists (wire : list byte) (self' : Sniffer.MstpSniffer),
    TestSender.build_mstp_frame (byte_val x05) (byte_val x06) (byte_val x03)
                                (Some [x01; x02]) = Some wire /\
    Sniffer.process_bytes (Sniffer.init true) wire
    = ([(Sniffer.format_frame 1 (byte_val x05) (byte_val x06) (byte_val x03)
                              (payload_length (Some [x01; x02]))
                              (default [] (Some [x01; x02])),
         decoded_payload (Some [x01; x02]))],
       self') /\
    Sniffer.printed self' = [].
Proof.
  assert (payload_length (Some [x01; x02]) <= 65535) as Hfits
    by (vm_compute; discriminate).
  split; [exact Hfits|].
  destruct (sender_frames_are_shown_by_sniffer true x05 x06 x03 (Some [x01; x02]) Hfits)
    as (wire & self' & Hbuild & Hrun & _ & _ & Hprinted & _).
  exists wire, self'. auto.
Defined.

(** *** Repeated preamble bytes *)

(** In the [PREAMBLE] state every further [0x55] is added to the buffer. *)
Lemma sniffer_preamble_bytes (v : bool) (buf : list byte) (fc : Z)
    (ft da sa dl hcr : Z) (dat : list byte) (dc : Z)
    (pr : list Sniffer.crc_message) (k : nat) :
  Sniffer.process_bytes
    (Sniffer.mkSniffer v buf fc Sniffer.PREAMBLE ft da sa dl hcr dat dc pr)
    (repeat x55 k)
  = ([], Sniffer.mkSniffer v (buf ++ repeat x55 k) fc Sniffer.PREAMBLE
                           ft da sa dl hcr dat dc pr).
Proof.
  revert buf. induction k as [|k IH]; intros buf.
  - cbn. now rewrite app_nil_r.
  - cbn [repeat Sniffer.process_bytes]. unfold Sniffer.process_byte.
    unfold Sniffer.set_buffer, Sniffer.set_state. cbn.
    change (byte_val x55 =? Sniffer.PREAMBLE2) with false.
    change (byte_val x55 =? Sniffer.PREAMBLE1) with true. cbv iota.
    rewrite IH. now rewrite <- app_assoc.
Qed.

(** In the [HEADER] state with eight bytes or more in the buffer, the
    bytes that follow are added to the buffer and nothing else happens. *)
Lemma sniffer_header_overrun (v : bool) (buf : list byte) (fc : Z)
    (ft da sa dl hcr : Z) (dat : list byte) (dc : Z)
    (pr : list Sniffer.crc_message) (more : list byte) :
  (8 <= length buf)%nat ->
  Sniffer.process_bytes
    (Sniffer.mkSniffer v buf fc Sniffer.HEADER ft da sa dl hcr dat dc pr) more
  = ([], Sniffer.mkSniffer v (buf ++ more) fc Sniffer.HEADER
                           ft da sa dl hcr dat dc pr).
Proof.
  revert buf. induction more as [|b more IH]; intros buf Hlen.
  - cbn. now rewrite app_nil_r.
  - assert (Sniffer.process_byte
              (Sniffer.mkSniffer v buf fc Sniffer.HEADER ft da sa dl hcr dat dc pr) b
            = (None, Sniffer.mkSniffer v (buf ++ [b]) fc Sniffer.HEADER
                                       ft da sa dl hcr dat dc pr)) as Hbyte.
    { destruct buf as [|? [|? [|? [|? [|? [|? [|? [|? tail]]]]]]]];
        try (cbn in Hlen; lia).
      destruct tail; reflexivity. }
    cbn [Sniffer.process_bytes]. rewrite Hbyte.
    rewrite IH by (rewrite length_app; cbn; lia).
    now rewrite <- app_assoc.
Qed.

(** The byte [0x55] takes the idle sniffer to the [PREAMBLE] state, and
    the byte [0xFF] takes it from there to the [HEADER] state. *)
Lemma sniffer_idle_55 (v : bool) (buf : list byte) (fc : Z)
    (ft da sa dl hcr : Z) (dat : list byte) (dc : Z) (pr : list Sniffer.crc_message) :
  Sniffer.process_bytes
    (Sniffer.mkSniffer v buf fc Sniffer.IDLE ft da sa dl hcr dat dc pr) [x55]
  = ([], Sniffer.mkSniffer v [x55] fc Sniffer.PREAMBLE ft da sa dl hcr dat dc pr).
Proof. reflexivity. Qed.

Lemma sniffer_preamble_ff (v : bool) (buf : list byte) (fc : Z)
    (ft da sa dl hcr : Z) (dat : list byte) (dc : Z) (pr : list Sniffer.crc_message) :
  Sniffer.process_bytes
    (Sniffer.mkSniffer v buf fc Sniffer.PREAMBLE ft da sa dl hcr dat dc pr) [xff]
  = ([], Sniffer.mkSniffer v (buf ++ [xff]) fc Sniffer.HEADER
                           ft da sa dl hcr dat dc pr).
Proof. reflexivity. Qed.

(** X18: seven or more bytes [0x55] in a row, followed by [0xFF], stop an
    idle sniffer for good: the buffer then holds more than eight bytes in the
    [HEADER] state, where its length is compared with 8 after each byte,
    so whatever follows is stored and never decoded. *)
Theorem sniffer_stops_after_long_preamble (self : Sniffer.MstpSniffer) (k : nat)
    (rest : list byte) :
  Sniffer.state self = Sniffer.IDLE ->
  let stream := repeat x55 (7 + k) ++ xff :: rest in
  fst (Sniffer.process_bytes self stream) = [] /\
  Sniffer.state (snd (Sniffer.process_bytes self stream)) = Sniffer.HEADER /\
  Sniffer.buffer (snd (Sniffer.process_bytes self stream)) = stream /\
  Sniffer.frame_count (snd (Sniffer.process_bytes self stream))
  = Sniffer.frame_count self.
Proof.
  intros Hidle. cbv zeta.
  destruct self as [v buf fc st ft da sa dl hcr dat dc pr]. cbn in Hidle. subst st.
  assert (Sniffer.process_bytes
            (Sniffer.mkSniffer v buf fc Sniffer.IDLE ft da sa dl hcr dat dc pr)
            (([x55] ++ repeat x55 (6 + k) ++ [xff]) ++ rest)
          = ([], Sniffer.mkSniffer v (([x55] ++ repeat x55 (6 + k) ++ [xff]) ++ rest) fc
                                   Sniffer.HEADER ft da sa dl hcr dat dc pr)) as Hrun.
  { eapply (sniffer_process_bytes_chain _ _ _ _ _ [] []);
      [|apply sniffer_header_overrun; rewrite !length_app, repeat_length; cbn; lia].
    eapply (sniffer_process_bytes_chain _ _ _ _ _ [] []); [apply sniffer_idle_55|].
    eapply (sniffer_process_bytes_chain _ _ _ _ _ [] []);
      [apply sniffer_preamble_bytes|].
    rewrite app_assoc. apply sniffer_preamble_ff. }
  assert (repeat x55 (7 + k) ++ xff :: rest
          = ([x55] ++ repeat x55 (6 + k) ++ [xff]) ++ rest) as ->.
  { cbn [repeat Nat.add app]. now rewrite <- app_assoc. }
  rewrite Hrun. repeat split.
Qed.

Lemma sniffer_stops_after_long_preamble_witness :
  Sniffer.state (Sniffer.init false) = Sniffer.IDLE /\
  fst (Sniffer.process_bytes (Sniffer.init false)
         (repeat x55 7 ++ xff :: [x00; x06; x03; x00; x00; xdb;
                                  x55; xff; x00; x06; x03; x00; x00; xdb])) = [] /\
  fst (Sniffer.process_bytes (Sniffer.init false)
         [x55; xff; x00; x06; x03; x00; x00; xdb])
  = [(Sniffer.format_frame 1 0 6 3 0 [], None)].
Proof.
  split; [reflexivity|].
  split; [|vm_compute; reflexivity].
  exact (proj1 (sniffer_stops_after_long_preamble (Sniffer.init false) 0
                  [x00; x06; x03; x00; x00; xdb; x55; xff; x00; x06; x03; x00; x00; xdb]
                  eq_refl)).
Defined.

(** *** Counting and shape of what is shown *)

(** One byte: either nothing is shown and the count stays, or one frame
    is shown under the next number. *)
Lemma sniffer_process_byte_count (self : Sniffer.MstpSniffer) (b : byte) :
  match fst (Sniffer.process_byte self b) with
  | None =>
      Sniffer.frame_count (snd (Sniffer.process_byte self b)) = Sniffer.frame_count self
  | Some r =>
      frame_num r = Sniffer.frame_count self + 1 /\
      Sniffer.frame_count (snd (Sniffer.process_byte self b))
      = Sniffer.frame_count self + 1
  end.
Proof.
  destruct self as [v buf fc st ft da sa dl hcr dat dc pr].
  unfold Sniffer.process_byte. generalize Sniffer.crc8, Sniffer.crc16.
  intros crc8' crc16'.
  destruct st.
  - simpl. destruct (byte_val b =? Sniffer.PREAMBLE1); reflexivity.
  - simpl. destruct (byte_val b =? Sniffer.PREAMBLE2); [reflexivity|].
    destruct (byte_val b =? Sniffer.PREAMBLE1); reflexivity.
  - cbn [Sniffer.state Sniffer.set_buffer Sniffer.buffer].
    generalize (buf ++ [b]). intros l.
    destruct l as [|a0 [|a1 [|a2 [|a3 [|a4 [|a5 [|a6 [|a7 [|a8 tl]]]]]]]]];
      try reflexivity.
    cbn [Sniffer.set_header Sniffer.header_crc Sniffer.buffer Sniffer.data_len
         take drop].
    destruct (negb _); [destruct v; reflexivity|].
    destruct (0 <? _); [reflexivity|]. cbn. auto.
  - cbn [Sniffer.state Sniffer.set_buffer Sniffer.buffer Sniffer.set_data
         Sniffer.data Sniffer.data_len].
    destruct (_ =? _); [|reflexivity].
    destruct (rev (dat ++ [b])) as [|last1 [|last2 tl]]; try reflexivity.
    cbn [Sniffer.set_data_crc Sniffer.set_data Sniffer.data Sniffer.data_crc].
    destruct (negb _); [destruct v|]; cbn; auto.
Qed.

(** X19: the frames shown are numbered from the count on, one by one,
    and the count grows by the number of frames shown: what [main] prints
    at the end as the number of captured frames. *)
Theorem sniffer_counts_what_it_shows (self : Sniffer.MstpSniffer) (bytes : list byte) :
  Sniffer.frame_count (snd (Sniffer.process_bytes self bytes))
  = Sniffer.frame_count self + Z.of_nat (length (fst (Sniffer.process_bytes self bytes))) /\
  map frame_num (fst (Sniffer.process_bytes self bytes))
  = numbers_from (Sniffer.frame_count self + 1)
                 (length (fst (Sniffer.process_bytes self bytes))).
Proof.
  revert self. induction bytes as [|b bytes IH]; intros self.
  - cbn. split; [lia | reflexivity].
  - cbn [Sniffer.process_bytes].
    pose proof (sniffer_process_byte_count self b) as Hbyte.
    destruct (Sniffer.process_byte self b) as [r self1]. cbn [fst snd] in Hbyte.
    specialize (IH self1).
    destruct (Sniffer.process_bytes self1 bytes) as [rs self2]. cbn [fst snd] in *.
    destruct IH as [IHcount IHnums].
    destruct r as [r|].
    + destruct Hbyte as [Hnum Hcount]. cbn [length map numbers_from].
      rewrite IHcount, IHnums, Hcount, Hnum. split; [lia | reflexivity].
    + rewrite IHcount, IHnums, Hbyte. split; reflexivity.
Qed.

Lemma sniffer_process_byte_consistent (self : Sniffer.MstpSniffer) (b : byte) :
  sniffer_consistent self ->
  sniffer_consistent (snd (Sniffer.process_byte self b)) /\
  match fst (Sniffer.process_byte self b) with
  | None => True
  | Some r => well_formed r
  end.
Proof.
  destruct self as [v buf fc st ft da sa dl hcr dat dc pr].
  unfold sniffer_consistent.
  cbn [Sniffer.state Sniffer.frame_type Sniffer.dst_addr Sniffer.src_addr
       Sniffer.data_len Sniffer.data].
  intros (Hft & Hda & Hsa & Hdl & Hstate).
  unfold Sniffer.process_byte. generalize Sniffer.crc8, Sniffer.crc16.
  intros crc8' crc16'.
  destruct st; cbv beta iota in Hstate.
  - simpl. destruct (byte_val b =? Sniffer.PREAMBLE1); cbn; repeat split; auto; lia.
  - simpl. destruct (byte_val b =? Sniffer.PREAMBLE2); [cbn; repeat split; auto; lia|].
    destruct (byte_val b =? Sniffer.PREAMBLE1); cbn; repeat split; auto; lia.
  - cbn [Sniffer.state Sniffer.set_buffer Sniffer.buffer].
    generalize (buf ++ [b]). intros l.
    destruct l as [|a0 [|a1 [|a2 [|a3 [|a4 [|a5 [|a6 [|a7 [|a8 tl]]]]]]]]];
      try (cbn; repeat split; auto; lia).
    cbn [Sniffer.set_header Sniffer.header_crc Sniffer.buffer Sniffer.data_len
         take drop].
    fold (length_field a5 a6).
    destruct (length_field_bytes a5 a6) as (_ & _ & _ & Hlen).
    pose proof (byte_val_range a2). pose proof (byte_val_range a3).
    pose proof (byte_val_range a4).
    generalize dependent (length_field a5 a6). intros len Hlen.
    destruct (negb _); [destruct v; cbn; repeat split; auto; lia|].
    destruct (Z.ltb_spec 0 len) as [Hpos|Hzero].
    + cbn. repeat split; lia.
    + subst dat. cbn.
      assert (len = 0) as -> by lia. repeat split; auto; lia.
  - cbn [Sniffer.state Sniffer.set_buffer Sniffer.buffer Sniffer.set_data
         Sniffer.data Sniffer.data_len].
    destruct Hstate as [Hpos Hless].
    rewrite rev_unit, length_app. cbn [length].
    destruct (Z.eqb_spec (Z.of_nat (length dat + 1)) (dl + 2)) as [Hfull|Hmore];
      [|cbn; rewrite length_app; cbn [length]; repeat split; lia].
    destruct (rev dat) as [|last2 tl] eqn:Hrev.
    { apply (f_equal (@length byte)) in Hrev. rewrite length_rev in Hrev.
      cbn in Hrev. lia. }
    cbn [Sniffer.set_data_crc Sniffer.set_data Sniffer.data Sniffer.data_crc].
    rewrite length_app. cbn [length].
    assert (take (length dat + 1 - 2) (dat ++ [b]) = take (Z.to_nat dl) dat) as ->.
    { replace (length dat + 1 - 2)%nat with (Z.to_nat dl) by lia.
      apply take_app_le. lia. }
    assert (length (take (Z.to_nat dl) dat) = Z.to_nat dl) as Hlen
      by (rewrite length_take; lia).
    destruct (take (Z.to_nat dl) dat) as [|p payload] eqn:Hdata;
      [cbn in Hlen; lia|].
    assert (Z.of_nat (length (p :: payload)) = dl) as Hdl' by lia.
    destruct (Z.ltb_spec 0 dl); [|lia].
    destruct (negb _); [destruct v|]; cbn -[length Z.of_nat];
      repeat split; auto; try lia;
      destruct (Z.ltb_spec 0 dl); (reflexivity || lia).
Qed.

(** X20: what the sniffer shows is consistent: in every frame it shows,
    from the first byte it is given on, the header fields are bytes, the
    length shown is the number of payload bytes shown, below 65536, and the
    payload is handed over ([hex_data]) exactly when that length is not
    0. *)
Theorem sniffer_shows_well_formed_frames (v : bool) (bytes : list byte) :
  Forall well_formed (fst (Sniffer.process_bytes (Sniffer.init v) bytes)).
Proof.
  assert (sniffer_consistent (Sniffer.init v)) as Hinit
    by (unfold sniffer_consistent; cbn; repeat split; lia).
  revert Hinit. generalize (Sniffer.init v).
  induction bytes as [|b bytes IH]; intros self Hself; [constructor|].
  cbn [Sniffer.process_bytes].
  destruct (sniffer_process_byte_consistent self b Hself) as [Hnext Hshown].
  destruct (Sniffer.process_byte self b) as [r self1]. cbn [fst snd] in *.
  specialize (IH self1 Hnext).
  destruct (Sniffer.process_bytes self1 bytes) as [rs self2]. cbn [fst] in *.
  destruct r as [r|]; [constructor|]; assumption.
Qed.

(** ** The decoders of the payload *)

Lemma item_in_range (data : list byte) (i : Z) :
  0 <= i < Z.of_nat (length data) ->
  exists b, data !! Z.to_nat i = Some b /\ Sniffer.item data i = Some (byte_val b).
Proof.
  intros Hi. unfold Sniffer.item. cbv zeta.
  destruct (Z.ltb_spec i 0); [lia|].
  destruct (Z.ltb_spec i 0); [lia|].
  destruct (lookup_lt_is_Some_2 data (Z.to_nat i)) as [b Hb]; [lia|].
  exists b. rewrite Hb. split; reflexivity.
Qed.

Lemma length_slice (data : list byte) (start stop : Z) :
  0 <= start <= stop -> stop <= Z.of_nat (length data) ->
  Z.of_nat (length (Sniffer.slice data start stop)) = stop - start.
Proof.
  intros Hstart Hstop. unfold Sniffer.slice.
  rewrite length_take, length_drop. lia.
Qed.

(** The block for one network reads within the data and leaves the offset
    within the data. *)
Lemma decode_network_returns (present : bool) (data : list byte) (offset : Z) :
  0 <= offset <= Z.of_nat (length data) ->
  exists net len adr offset',
    Sniffer.decode_network present data offset = Some (net, len, adr, offset') /\
    offset <= offset' <= Z.of_nat (length data) /\
    (forall a, adr = Some a -> len = Some (Z.of_nat (length a))) /\
    (forall n, net = Some n -> 0 <= n < 65536).
Proof.
  intros Hoffset. unfold Sniffer.decode_network.
  destruct present; cbn [andb];
    [|exists None, None, None, offset; repeat split; (lia || discriminate)].
  destruct (Z.ltb_spec (offset + 3) (Z.of_nat (length data))) as [Hfits|Hshort];
    [|exists None, None, None, offset; repeat split; (lia || discriminate)].
  destruct (item_in_range data offset) as (high & _ & ->); [lia|].
  destruct (item_in_range data (offset + 1)) as (low & _ & ->); [lia|].
  destruct (item_in_range data (offset + 2)) as (len & _ & ->); [lia|].
  cbn [mbind option_bind]. cbv zeta.
  pose proof (byte_val_range len) as Hlen.
  destruct (length_field_bytes high low) as (_ & _ & _ & Hnet).
  unfold length_field in Hnet.
  destruct (Z.ltb_spec 0 (byte_val len)) as [Hpos|Hzero]; cbn [andb].
  - destruct (Z.ltb_spec (offset + 3 + byte_val len) (Z.of_nat (length data)))
      as [Hadr|Hadr].
    + eexists _, _, _, _. split; [reflexivity|].
      split; [lia|]. split.
      * intros a [= <-]. rewrite length_slice by lia. f_equal. lia.
      * intros n [= <-]. exact Hnet.
    + eexists _, _, _, _. split; [reflexivity|].
      split; [lia|]. split; [discriminate|]. intros n [= <-]. exact Hnet.
  - eexists _, _, _, _. split; [reflexivity|].
    split; [lia|]. split; [discriminate|]. intros n [= <-]. exact Hnet.
Qed.

Lemma service_text_returns (services : Z -> option string) (kind : string)
    (data : list byte) (index : Z) :
  0 <= index -> is_Some (Sniffer.service_text services kind data index).
Proof.
  intros Hindex. unfold Sniffer.service_text.
  destruct (Z.ltb_spec (Z.of_nat (length data)) (index + 1)); [eexists; reflexivity|].
  destruct (item_in_range data index) as (b & _ & ->); [lia|].
  eexists; reflexivity.
Qed.

Lemma decode_apdu_returns (data : list byte) : is_Some (Sniffer.decode_apdu data).
Proof.
  unfold Sniffer.decode_apdu.
  destruct (Z.ltb_spec (Z.of_nat (length data)) 1); [eexists; reflexivity|].
  destruct (item_in_range data 0) as (b & _ & ->); [lia|].
  cbn [mbind option_bind]. cbv zeta.
  repeat (destruct (_ =? _); [try apply service_text_returns; try lia|]);
    try (eexists; reflexivity).
  - destruct (Z.ltb_spec (Z.of_nat (length data)) 4); [eexists; reflexivity|].
    destruct (item_in_range data 3) as (c & _ & ->); [lia|]. eexists; reflexivity.
  - destruct (Z.ltb_spec (Z.of_nat (length data)) 2); [eexists; reflexivity|].
    destruct (item_in_range data 1) as (c & _ & ->); [lia|]. eexists; reflexivity.
Qed.

(** X21: the decoders of the payload never raise, whatever bytes they are
    given.  [decode_npdu] returns an error message exactly when there are
    fewer than two bytes or the first is not 1; otherwise it returns the
    dictionary, in which [apdu_offset] is at least 2 and at most the length
    of the data, the networks are 16-bit numbers, an address that is given
    has the length given for it, and a hop count is only given with a
    destination network.  [decode_apdu] returns a text for every byte
    sequence. *)
Theorem payload_decoders_never_raise (data : list byte) :
  (exists r, Sniffer.decode_npdu data = Some r /\
     match r with
     | (Some info, None) =>
         Sniffer.item data 0 = Some 1 /\
         2 <= Sniffer.apdu_offset info <= Z.of_nat (length data) /\
         (forall a, Sniffer.dadr info = Some a ->
                    Sniffer.dlen info = Some (Z.of_nat (length a))) /\
         (forall a, Sniffer.sadr info = Some a ->
                    Sniffer.slen info = Some (Z.of_nat (length a))) /\
         (forall n, Sniffer.dnet info = Some n \/ Sniffer.snet info = Some n ->
                    0 <= n < 65536) /\
         (Sniffer.hop_count info <> None -> Sniffer.dnet_present info = true)
     | (None, Some _) =>
         Z.of_nat (length data) < 2 \/ Sniffer.item data 0 <> Some 1
     | _ => False
     end) /\
  is_Some (Sniffer.decode_apdu data).
Proof.
  split; [|apply decode_apdu_returns].
  unfold Sniffer.decode_npdu.
  destruct (Z.ltb_spec (Z.of_nat (length data)) 2) as [Hshort|Hlong].
  { eexists. split; [reflexivity|]. left. exact Hshort. }
  destruct (item_in_range data 0) as (v & _ & Hv); [lia|].
  destruct (item_in_range data 1) as (c & _ & Hc); [lia|].
  rewrite Hv, Hc. cbn [mbind option_bind].
  destruct (Z.eqb_spec (byte_val v) 1) as [Hone|Hother]; cbn [negb].
  2: { eexists. split; [reflexivity|]. right. intros [= ?]. contradiction. }
  cbv zeta.
  destruct (decode_network_returns (negb (Z.land (byte_val c) 32 =? 0)) data 2)
    as (dn & dl & da & o1 & -> & Ho1 & Hda & Hdn); [lia|].
  cbn [mbind option_bind].
  destruct (decode_network_returns (negb (Z.land (byte_val c) 8 =? 0)) data o1)
    as (sn & sl & sa & o2 & -> & Ho2 & Hsa & Hsn); [lia|].
  cbn [mbind option_bind].
  assert (forall n, dn = Some n \/ sn = Some n -> 0 <= n < 65536) as Hnets
    by (intros n [Hn|Hn]; eauto).
  destruct (negb (Z.land (byte_val c) 32 =? 0)) eqn:Hpresent; cbn [andb].
  - destruct (Z.ltb_spec o2 (Z.of_nat (length data))) as [Hhop|Hhop].
    + destruct (item_in_range data o2) as (h & _ & ->); [lia|].
      cbn [mbind option_bind].
      eexists. split; [reflexivity|]. cbn.
      rewrite Hone. split; [reflexivity|]. split; [lia|]. auto.
    + eexists. split; [reflexivity|]. cbn.
      rewrite Hone. split; [reflexivity|]. split; [lia|]. auto.
  - eexists. split; [reflexivity|]. cbn.
    rewrite Hone. split; [reflexivity|]. split; [lia|].
    split; [exact Hda|]. split; [exact Hsa|]. split; [exact Hnets|].
    intros Hno. now contradiction Hno.
Qed.
